(** * Safety monitoring and alerting engine (gbean-24/BFP, backend/app)

    A shallow embedding of [safety_service.py] (class [SafetyMonitor]),
    of the alert routes of [routes.py] and of the tables of [models.py]
    they touch, together with the properties of the engine's specification.

    Python [float] is IEEE-754 binary64: it is modelled by the Standard
    Library's [spec_float] at precision 53 and maximal exponent 1024, so
    NaN, the infinities, signed zeros and rounding are those of the
    interpreter.  The transcendental functions of [math] come from the
    platform's C library; they are a parameter ([PyMath]) constrained by
    the laws the C standard and CPython guarantee, and a reference
    implementation is supplied to run the model on concrete inputs. *)

From Stdlib Require Import ZArith List String Bool Lia DecimalString.
From Stdlib Require Import Floats.SpecFloat.
From Stdlib Require Import Sorting.Sorted Sorting.Permutation.
Import ListNotations.
Open Scope Z_scope.

(** ** Python exceptions and the error monad *)

Inductive exn : Type :=
| ValueError
| OverflowError
| HTTPException (status_code : Z) (detail : string).

Inductive result (A : Type) : Type :=
| Ok (a : A)
| Raise (e : exn).
Arguments Ok {A} a.
Arguments Raise {A} e.

Definition bind {A B : Type} (r : result A) (k : A -> result B) : result B :=
  match r with
  | Ok a => k a
  | Raise e => Raise e
  end.

Notation "x <- r ;; k" := (bind r (fun x => k))
  (at level 61, r at next level, right associativity).

Definition returns {A : Type} (r : result A) : Prop := exists a, r = Ok a.

(** ** binary64 *)

Module F64.

Definition float : Type := spec_float.

Definition prec : Z := 53.
Definition emax : Z := 1024.

Definition fadd : float -> float -> float := SFadd prec emax.
Definition fsub : float -> float -> float := SFsub prec emax.
Definition fmul : float -> float -> float := SFmul prec emax.
Definition fdiv : float -> float -> float := SFdiv prec emax.
Definition fsqrt : float -> float := SFsqrt prec emax.
Definition fopp : float -> float := SFopp.
Definition fabs : float -> float := SFabs.

(** Python's [x < y], [x > y] and [x == y] on floats. *)
Definition flt (x y : float) : bool := SFltb x y.
Definition fgt (x y : float) : bool := SFltb y x.
Definition feq (x y : float) : bool := SFeqb x y.
Definition fle (x y : float) : bool := SFleb x y.

(** Conversion of a Python [int] (the literals [2], [1], [6371]) and of a
    dyadic literal. *)
Definition of_int (z : Z) : float := binary_normalize prec emax z 0 false.
Definition of_dyadic (m e : Z) : float := binary_normalize prec emax m e false.

Definition pos_zero : float := S754_zero false.
Definition inf : float := S754_infinity false.
Definition nan : float := S754_nan.
Definition one : float := Eval vm_compute in of_int 1.
Definition two : float := Eval vm_compute in of_int 2.
Definition half : float := Eval vm_compute in of_dyadic 1 (-1).

Definition is_nan (x : float) : bool :=
  match x with S754_nan => true | _ => false end.
Definition is_inf (x : float) : bool :=
  match x with S754_infinity _ => true | _ => false end.
Definition is_finite (x : float) : bool :=
  match x with S754_zero _ | S754_finite _ _ _ => true | _ => false end.
Definition signbit (x : float) : bool :=
  match x with
  | S754_zero s | S754_infinity s | S754_finite s _ _ => s
  | S754_nan => false
  end.

(** A well-formed binary64 (canonical mantissa, exponent in range) whose
    magnitude is at most [b]. *)
Definition valid (x : float) : bool := valid_binary prec emax x.
Definition in_range (b x : float) : bool := valid x && fle (fabs x) b.

(** Equality up to the sign. *)
Definition eq_abs (x y : float) : Prop := x = y \/ x = fopp y.

(** Size of a finite number: the mantissa fits the precision; its exponent. *)
Definition digits_ok (x : float) : Prop :=
  match x with
  | S754_finite _ m _ => Zpos (digits2_pos m) <= 53
  | _ => True
  end.

Definition exponent (x : float) : Z :=
  match x with
  | S754_finite _ _ e => e
  | _ => -1074
  end.

(** The order of [SFcompare] is the lexicographic order of a key. *)
Definition key (x : float) : Z * Z * Z :=
  match x with
  | S754_infinity true => (-2, 0, 0)
  | S754_finite true m e => (-1, - e, - Zpos m)
  | S754_zero _ | S754_nan => (0, 0, 0)
  | S754_finite false m e => (1, e, Zpos m)
  | S754_infinity false => (2, 0, 0)
  end.

Definition klt (a b : Z * Z * Z) : Prop :=
  let '(a1, a2, a3) := a in
  let '(b1, b2, b3) := b in
  a1 < b1 \/ (a1 = b1 /\ (a2 < b2 \/ (a2 = b2 /\ a3 < b3))).

Definition kle (a b : Z * Z * Z) : Prop :=
  let '(a1, a2, a3) := a in
  let '(b1, b2, b3) := b in
  a1 < b1 \/ (a1 = b1 /\ (a2 < b2 \/ (a2 = b2 /\ a3 <= b3))).

(** A decimal literal [n / 10^k], correctly rounded as the Python parser
    rounds it. *)
Definition of_decimal (n : Z) (k : positive) : float :=
  fdiv (of_int n) (of_int (Z.pow_pos 10 k)).

End F64.
Import F64.

(** ** The [math] module and float exponentiation

    [math.radians] and [math.sqrt] are determined by IEEE-754 and are
    defined outright.  [math.sin], [math.cos], [math.atan2] and
    [float.__pow__] go through the platform's C library: they are the fields
    of [PyMath].  [None] stands for [ValueError: math domain error], the
    only exception the wrappers of [sin], [cos] and [atan2] raise. *)

Definition math_pi : float := S754_finite false 7074237752028440 (-51).

(** [degToRad = Py_MATH_PI / 180.0] *)
Definition degToRad : float := Eval vm_compute in fdiv math_pi (of_int 180).

Definition math_radians (x : float) : float := fmul x degToRad.

Definition math_sqrt (x : float) : result float :=
  let r := fsqrt x in
  if is_nan r && negb (is_nan x) then Raise ValueError else Ok r.

Definition domain_error (r : option float) : result float :=
  match r with
  | Some y => Ok y
  | None => Raise ValueError
  end.

Record PyMath : Type := {
  math_sin : float -> option float;
  math_cos : float -> option float;
  math_atan2 : float -> float -> option float;
  (** [x ** 2] *)
  float_pow2 : float -> result float;

  (** [sin] maps a zero to itself (ISO C, Annex F) and is odd: the C
      libraries compute it on the magnitude and restore the sign. *)
  math_sin_zero : forall s, math_sin (S754_zero s) = Some (S754_zero s);
  math_sin_odd : forall x, math_sin (fopp x) = option_map fopp (math_sin x);
  (** [cos] of a finite number is a number of [[-1, 1]]. *)
  math_cos_range : forall x, is_finite x = true ->
    exists c, math_cos x = Some c /\ in_range one c = true;
  (** [m_atan2]: a zero ordinate with a positive abscissa gives that zero. *)
  math_atan2_zero : forall s x, is_nan x = false -> signbit x = false ->
    math_atan2 (S754_zero s) x = Some (S754_zero s);
  (** [float_pow]: a zero raised to a positive even power is [0.0]; a
      negative base is replaced by its magnitude before [pow] is called. *)
  float_pow2_zero : forall s, float_pow2 (S754_zero s) = Ok pos_zero;
  float_pow2_even : forall x, float_pow2 (fopp x) = float_pow2 x
}.

(** ** GeoMath: [SafetyMonitor.calculate_distance_km] *)

Section GeoMath.

Variable M : PyMath.

Definition calculate_distance_km (lat1 lon1 lat2 lon2 : float) : result float :=
  (* Haversine formula *)
  let R := of_int 6371 in
  let lat1_rad := math_radians lat1 in
  let lat2_rad := math_radians lat2 in
  let delta_lat := math_radians (fsub lat2 lat1) in
  let delta_lon := math_radians (fsub lon2 lon1) in
  s1 <- domain_error (math_sin M (fdiv delta_lat two)) ;;
  p1 <- float_pow2 M s1 ;;
  c1 <- domain_error (math_cos M lat1_rad) ;;
  c2 <- domain_error (math_cos M lat2_rad) ;;
  s2 <- domain_error (math_sin M (fdiv delta_lon two)) ;;
  p2 <- float_pow2 M s2 ;;
  let a := fadd p1 (fmul (fmul c1 c2) p2) in
  q1 <- math_sqrt a ;;
  q2 <- math_sqrt (fsub one a) ;;
  c0 <- domain_error (math_atan2 M q1 q2) ;;
  let c := fmul two c0 in
  Ok (fmul R c).

(** The two stages of the formula, named for the proofs:
    [sin(d / 2) ** 2], and the angle from the value [a]. *)
Definition haversine (d : float) : result float :=
  s <- domain_error (math_sin M (fdiv d two)) ;; float_pow2 M s.

Definition central_angle (h1 c1 c2 h2 : float) : result float :=
  let a := fadd h1 (fmul (fmul c1 c2) h2) in
  q1 <- math_sqrt a ;;
  q2 <- math_sqrt (fsub one a) ;;
  c0 <- domain_error (math_atan2 M q1 q2) ;;
  Ok (fmul (of_int 6371) (fmul two c0)).

End GeoMath.

(** Coordinates in degrees, as the engine expects them from the ingestion:
    well-formed numbers with [|latitude| <= 90] and [|longitude| <= 180]. *)
Definition valid_coordinate (lat lon : float) : bool :=
  in_range (of_int 90) lat && in_range (of_int 180) lon.

(** ** A reference C library

    Fixed-point evaluation (160 fractional bits) of the Taylor series of
    [sin], [cos] and [atan], rounded to nearest-even binary64.  It makes the
    model executable and shows that the laws of [PyMath] hold together. *)

Module RefMath.

Definition P : Z := 160.
Definition fx_one : Z := Z.shiftl 1 P.
Definition fx_mul (a b : Z) : Z := Z.shiftr (a * b) P.
Definition fx_div (a b : Z) : Z := Z.shiftl a P / b.
Definition fx_sqrt (a : Z) : Z := Z.sqrt (Z.shiftl a P).

Definition to_fix (m : positive) (e : Z) : Z := Z.shiftl (Zpos m) (e + P).
Definition of_fix (v : Z) : float := binary_normalize prec emax v (- P) false.

(** [atan (1/n)] by its alternating series, for Machin's formula. *)
Fixpoint atan_inv_series (fuel : nat) (n2 pw k : Z) (sgn : bool) (acc : Z) : Z :=
  match fuel with
  | O => acc
  | S f =>
      let t := pw / k in
      atan_inv_series f n2 (pw / n2) (k + 2) (negb sgn)
                      (if sgn then acc - t else acc + t)
  end.

Definition atan_inv (n : Z) : Z :=
  atan_inv_series 120 (n * n) (fx_one / n) 1 false 0.

Definition fx_pi : Z := Eval vm_compute in 16 * atan_inv 5 - 4 * atan_inv 239.

(** Common series of [sin] ([k = 1], first term [r]) and [cos] ([k = 0],
    first term [1]). *)
Fixpoint trig_series (fuel : nat) (r2 term k acc : Z) : Z :=
  match fuel with
  | O => acc
  | S f =>
      let term' := - fx_mul term r2 / ((k + 1) * (k + 2)) in
      trig_series f r2 term' (k + 2) (acc + term')
  end.

Definition fx_sin (r : Z) : Z := trig_series 40 (fx_mul r r) r 1 r.
Definition fx_cos (r : Z) : Z := trig_series 40 (fx_mul r r) fx_one 0 fx_one.

(** Reduction of a non-negative argument to [[-pi, pi)]. *)
Definition reduce (v : Z) : Z := (v + fx_pi) mod (2 * fx_pi) - fx_pi.

Fixpoint atan_series (fuel : nat) (q2 pw k : Z) (sgn : bool) (acc : Z) : Z :=
  match fuel with
  | O => acc
  | S f =>
      let t := pw / k in
      atan_series f q2 (fx_mul pw q2) (k + 2) (negb sgn)
                  (if sgn then acc - t else acc + t)
  end.

(** [atan q = 2 * atan (q / (1 + sqrt (1 + q^2)))], applied three times
    before the series; [0 <= q <= 1]. *)
Definition halve (q : Z) : Z :=
  fx_div q (fx_one + fx_sqrt (fx_one + fx_mul q q)).

Definition fx_atan (q : Z) : Z :=
  let q3 := halve (halve (halve q)) in
  8 * atan_series 30 (fx_mul q3 q3) q3 1 false 0.

Definition tiny (m : positive) (e : Z) : bool :=
  Zpos (digits2_pos m) + e <? -30.

Definition with_sign (s : bool) (x : float) : float :=
  if s then fopp x else x.

Definition clamp_unit (x : float) : float :=
  if in_range one x then x else one.

Definition sin (x : float) : option float :=
  match x with
  | S754_nan => Some nan
  | S754_infinity _ => None
  | S754_zero _ => Some x
  | S754_finite s m e =>
      let mag := if tiny m e then S754_finite false m e
                 else of_fix (fx_sin (reduce (to_fix m e))) in
      Some (with_sign s mag)
  end.

Definition cos (x : float) : option float :=
  match x with
  | S754_nan => Some nan
  | S754_infinity _ => None
  | S754_zero _ => Some one
  | S754_finite s m e =>
      Some (if tiny m e then one
            else clamp_unit (of_fix (fx_cos (reduce (to_fix m e)))))
  end.

(** [atan (|y| / |x|)] in fixed point, for finite non-zero [y] and [x]. *)
Definition fx_atan_ratio (my : positive) (ey : Z) (mx : positive) (ex : Z) : Z :=
  let d := ey - ex in
  let ny := Z.shiftl (Zpos my) (Z.max d 0) in
  let nx := Z.shiftl (Zpos mx) (Z.max (- d) 0) in
  if ny <=? nx then fx_atan (fx_div ny nx)
  else fx_pi / 2 - fx_atan (fx_div nx ny).

(** The case analysis is that of CPython's [m_atan2]. *)
Definition atan2 (y x : float) : option float :=
  match y, x with
  | S754_nan, _ | _, S754_nan => Some nan
  | S754_infinity sy, S754_infinity sx =>
      Some (with_sign sy (of_fix (if sx then 3 * fx_pi / 4 else fx_pi / 4)))
  | S754_infinity sy, _ => Some (with_sign sy (of_fix (fx_pi / 2)))
  | S754_zero sy, _ | S754_finite sy _ _, S754_infinity _ =>
      Some (with_sign sy (if signbit x then of_fix fx_pi else pos_zero))
  | S754_finite sy _ _, S754_zero _ => Some (with_sign sy (of_fix (fx_pi / 2)))
  | S754_finite sy my ey, S754_finite sx mx ex =>
      let t := fx_atan_ratio my ey mx ex in
      let mag :=
        if sx then of_fix (fx_pi - t)
        else if t =? 0 then fdiv (S754_finite false my ey) (S754_finite false mx ex)
        else of_fix t in
      Some (with_sign sy mag)
  end.

(** [x ** 2] as [float_pow] computes it: on the magnitude of [x], with
    [OverflowError] when the result is out of range. *)
Definition pow2 (x : float) : result float :=
  match x with
  | S754_nan => Ok nan
  | S754_infinity _ => Ok inf
  | S754_zero _ => Ok pos_zero
  | S754_finite _ m e =>
      let r := fmul (S754_finite false m e) (S754_finite false m e) in
      if is_inf r then Raise OverflowError else Ok r
  end.

End RefMath.

(** ** Formatting: [format(x, ".1f")]

    The exact binary value is rounded half-even to one decimal place. *)

Definition round_tenths (m : positive) (e : Z) : Z :=
  let n := 10 * Zpos m in
  if 0 <=? e then Z.shiftl n e
  else
    let d := Z.shiftl 1 (- e) in
    let q := n / d in
    let r := n mod d in
    match 2 * r ?= d with
    | Lt => q
    | Eq => if Z.even q then q else q + 1
    | Gt => q + 1
    end.

Definition string_of_nat_Z (z : Z) : string :=
  NilZero.string_of_uint (N.to_uint (Z.to_N z)).

Definition format_1f (x : float) : string :=
  let sign (s : bool) := if s then "-"%string else EmptyString in
  match x with
  | S754_nan => "nan"
  | S754_infinity s => sign s ++ "inf"
  | S754_zero s => sign s ++ "0.0"
  | S754_finite s m e =>
      let t := round_tenths m e in
      sign s ++ string_of_nat_Z (t / 10) ++ "." ++ string_of_nat_Z (t mod 10)
  end.

(** ** Data model ([models.py])

    A [datetime] is a count of microseconds; the tables keep the columns
    the engine reads or writes. *)

Definition datetime : Type := Z.

Definition timedelta_minutes (n : Z) : Z := n * 60 * 1000000.
Definition timedelta_hours (n : Z) : Z := n * 3600 * 1000000.

Record Trip : Type := {
  t_id : Z;
  t_monitoring_enabled : bool;
  t_deviation_threshold_km : float;
  t_owner_id : Z
}.

Record PlannedLocation : Type := {
  pl_id : Z;
  pl_name : string;
  pl_latitude : float;
  pl_longitude : float;
  pl_radius_meters : Z;
  pl_is_accommodation : bool;
  pl_trip_id : Z
}.

Record LocationUpdate : Type := {
  lu_id : Z;
  lu_latitude : float;
  lu_longitude : float;
  lu_timestamp : datetime;
  lu_user_id : Z;
  lu_trip_id : Z
}.

Record SafetyAlert : Type := {
  sa_id : Z;
  sa_alert_type : string;  (* "deviation", "stationary", "manual" *)
  sa_status : string;      (* "active", "responded_safe", "escalated" *)
  sa_title : string;
  sa_message : string;
  sa_latitude : float;
  sa_longitude : float;
  sa_distance_from_planned_km : option float;
  sa_triggered_at : datetime;
  sa_response_deadline : datetime;
  sa_responded_at : option datetime;
  sa_response_message : option string;
  sa_user_id : Z;
  sa_trip_id : Z
}.

(** The database session: the tables in row order and the next primary
    key of [safety_alerts]. *)
Record Session : Type := {
  trips : list Trip;
  planned_locations : list PlannedLocation;
  location_updates : list LocationUpdate;
  safety_alerts : list SafetyAlert;
  next_alert_id : Z
}.

(** The world a request runs in: the session and the wall clock, whose
    successive readings are [readings 0], [readings 1], ... *)
Record World : Type := {
  db : Session;
  readings : nat -> datetime;
  ticks : nat
}.

(** [datetime.utcnow()] *)
Definition utcnow (w : World) : datetime * World :=
  (readings w (ticks w),
   {| db := db w; readings := readings w; ticks := S (ticks w) |}).

Definition set_id (a : SafetyAlert) (i : Z) : SafetyAlert :=
  {| sa_id := i;
     sa_alert_type := sa_alert_type a;
     sa_status := sa_status a;
     sa_title := sa_title a;
     sa_message := sa_message a;
     sa_latitude := sa_latitude a;
     sa_longitude := sa_longitude a;
     sa_distance_from_planned_km := sa_distance_from_planned_km a;
     sa_triggered_at := sa_triggered_at a;
     sa_response_deadline := sa_response_deadline a;
     sa_responded_at := sa_responded_at a;
     sa_response_message := sa_response_message a;
     sa_user_id := sa_user_id a;
     sa_trip_id := sa_trip_id a |}.

(** [db.add(alert); db.commit(); db.refresh(alert)]: the row is appended
    under a fresh primary key and read back. *)
Definition add_alert (a : SafetyAlert) (w : World) : SafetyAlert * World :=
  let a' := set_id a (next_alert_id (db w)) in
  (a',
   {| db := {| trips := trips (db w);
               planned_locations := planned_locations (db w);
               location_updates := location_updates (db w);
               safety_alerts := safety_alerts (db w) ++ [a'];
               next_alert_id := next_alert_id (db w) + 1 |};
      readings := readings w;
      ticks := ticks w |}).

(** [db.query(PlannedLocation).filter(PlannedLocation.trip_id == trip.id).all()] *)
Definition query_planned_locations (w : World) (trip : Trip) : list PlannedLocation :=
  filter (fun p => pl_trip_id p =? t_id trip) (planned_locations (db w)).

(** [order_by(LocationUpdate.timestamp.desc())]: a stable insertion sort. *)
Fixpoint insert_desc (x : LocationUpdate) (l : list LocationUpdate) : list LocationUpdate :=
  match l with
  | [] => [x]
  | y :: l' =>
      if lu_timestamp y <=? lu_timestamp x then x :: l
      else y :: insert_desc x l'
  end.

Definition order_by_timestamp_desc (l : list LocationUpdate) : list LocationUpdate :=
  fold_right insert_desc [] l.

Definition query_recent_locations (w : World) (user_id : Z) (trip : Trip)
    (since : datetime) : list LocationUpdate :=
  order_by_timestamp_desc
    (filter (fun u => (lu_user_id u =? user_id) && (lu_trip_id u =? t_id trip)
                      && (since <=? lu_timestamp u))
            (location_updates (db w))).

(** ** [SafetyMonitor] ([safety_service.py]) *)

Section SafetyMonitor.

Variable M : PyMath.

(** The [for] loop of [find_nearest_planned_location], with its two
    loop variables. *)
Fixpoint nearest_loop (current_lat current_lon : float)
    (locations : list PlannedLocation)
    (nearest_location : option PlannedLocation) (min_distance : float)
    : result (option PlannedLocation * float) :=
  match locations with
  | [] => Ok (nearest_location, min_distance)
  | location :: rest =>
      distance <- calculate_distance_km M current_lat current_lon
                    (pl_latitude location) (pl_longitude location) ;;
      if flt distance min_distance
      then nearest_loop current_lat current_lon rest (Some location) distance
      else nearest_loop current_lat current_lon rest nearest_location min_distance
  end.

Definition find_nearest_planned_location (current_lat current_lon : float)
    (planned_locations : list PlannedLocation)
    : result (option PlannedLocation * float) :=
  match planned_locations with
  | [] => Ok (None, inf)
  | _ => nearest_loop current_lat current_lon planned_locations None inf
  end.

(** What the scan is specified to find: every distance is an ordinary
    number, and [w], at distance [d], is the first location of the sequence
    at minimal distance. *)
Definition distance_to (current_lat current_lon : float)
    (p : PlannedLocation) : result float :=
  calculate_distance_km M current_lat current_lon (pl_latitude p) (pl_longitude p).

Definition finite_distances (current_lat current_lon : float)
    (locations : list PlannedLocation) : Prop :=
  Forall (fun p => exists d, distance_to current_lat current_lon p = Ok d
                             /\ is_finite d = true) locations.

Definition farther (current_lat current_lon : float) (strict : bool)
    (d : float) (p : PlannedLocation) : Prop :=
  exists dp, distance_to current_lat current_lon p = Ok dp
             /\ (if strict then flt d dp else fle d dp) = true.

Definition first_nearest (current_lat current_lon : float)
    (locations : list PlannedLocation) (w : PlannedLocation) (d : float) : Prop :=
  exists before after,
    locations = before ++ w :: after /\
    distance_to current_lat current_lon w = Ok d /\
    Forall (farther current_lat current_lon true d) before /\
    Forall (farther current_lat current_lon false d) after.

Definition check_deviation_alert (w : World) (location_update : LocationUpdate)
    (trip : Trip) : result (option SafetyAlert * World) :=
  (* Get planned locations for this trip *)
  let planned_locations := query_planned_locations w trip in
  match planned_locations with
  | [] => Ok (None, w)
  | _ =>
      (* Find nearest planned location *)
      nd <- find_nearest_planned_location (lu_latitude location_update)
              (lu_longitude location_update) planned_locations ;;
      let distance_km := snd nd in
      (* Check if distance exceeds threshold *)
      if fgt distance_km (t_deviation_threshold_km trip) then
        let (t1, w1) := utcnow w in
        let (t2, w2) := utcnow w1 in
        let alert :=
          {| sa_id := 0;
             sa_alert_type := "deviation";
             sa_status := "active";
             sa_title := "Location Deviation Detected";
             sa_message := "You are " ++ format_1f distance_km
                           ++ "km away from your planned route. Are you safe?";
             sa_latitude := lu_latitude location_update;
             sa_longitude := lu_longitude location_update;
             sa_distance_from_planned_km := Some distance_km;
             sa_triggered_at := t1;
             sa_response_deadline := t2 + timedelta_minutes 15;
             sa_responded_at := None;
             sa_response_message := None;
             sa_user_id := lu_user_id location_update;
             sa_trip_id := t_id trip |} in
        let (alert', w3) := add_alert alert w2 in
        Ok (Some alert', w3)
      else Ok (None, w)
  end.

(** The [for ... break] loop of [check_stationary_alert]: the final value
    of [stationary]. *)
Fixpoint stationary_loop (latest_location : LocationUpdate)
    (others : list LocationUpdate) : result bool :=
  match others with
  | [] => Ok true
  | location :: rest =>
      distance <- calculate_distance_km M
                    (lu_latitude latest_location) (lu_longitude latest_location)
                    (lu_latitude location) (lu_longitude location) ;;
      if fgt distance half  (* More than 500m movement *)
      then Ok false
      else stationary_loop latest_location rest
  end.

Definition check_stationary_alert (w : World) (user_id : Z) (trip : Trip)
    : result (option SafetyAlert * World) :=
  (* Get recent location updates (last 4 hours) *)
  let (t0, w0) := utcnow w in
  let four_hours_ago := t0 - timedelta_hours 4 in
  let recent_locations := query_recent_locations w0 user_id trip four_hours_ago in
  match recent_locations with
  | [] | [_] => Ok (None, w0)
  | latest_location :: others =>
      (* Check if user has been in roughly the same location *)
      stationary <- stationary_loop latest_location others ;;
      if stationary : bool then
        (* Check if current location is near any planned location *)
        let planned_locations := query_planned_locations w0 trip in
        nd <- find_nearest_planned_location (lu_latitude latest_location)
                (lu_longitude latest_location) planned_locations ;;
        let distance_km := snd nd in
        (* If stationary and far from planned locations, create alert *)
        if fgt distance_km one then
          let (t1, w1) := utcnow w0 in
          let (t2, w2) := utcnow w1 in
          let alert :=
            {| sa_id := 0;
               sa_alert_type := "stationary";
               sa_status := "active";
               sa_title := "Stationary Alert";
               sa_message := "You've been in the same location for 4+ hours, "
                             ++ format_1f distance_km
                             ++ "km from planned locations. Are you safe?";
               sa_latitude := lu_latitude latest_location;
               sa_longitude := lu_longitude latest_location;
               sa_distance_from_planned_km := Some distance_km;
               sa_triggered_at := t1;
               sa_response_deadline := t2 + timedelta_minutes 15;
               sa_responded_at := None;
               sa_response_message := None;
               sa_user_id := user_id;
               sa_trip_id := t_id trip |} in
          let (alert', w3) := add_alert alert w2 in
          Ok (Some alert', w3)
        else Ok (None, w0)
      else Ok (None, w0)
  end.

End SafetyMonitor.

(** ** Alert routes ([routes.py]) *)

(** [schemas.AlertResponse] *)
Record AlertResponse : Type := {
  response : string;  (* "safe" or "help" *)
  message : option string
}.

(** The JSON object a successful [respond_to_alert] returns. *)
Record RespondReply : Type := {
  reply_message : string;
  reply_alert_id : Z
}.

(** Python's [message or default]: [None] and the empty string are falsy. *)
Definition or_default (m : option string) (d : string) : string :=
  match m with
  | None | Some EmptyString => d
  | Some s => s
  end.

Definition set_response (a : SafetyAlert) (st : string) (msg : string) : SafetyAlert :=
  {| sa_id := sa_id a;
     sa_alert_type := sa_alert_type a;
     sa_status := st;
     sa_title := sa_title a;
     sa_message := sa_message a;
     sa_latitude := sa_latitude a;
     sa_longitude := sa_longitude a;
     sa_distance_from_planned_km := sa_distance_from_planned_km a;
     sa_triggered_at := sa_triggered_at a;
     sa_response_deadline := sa_response_deadline a;
     sa_responded_at := sa_responded_at a;
     sa_response_message := Some msg;
     sa_user_id := sa_user_id a;
     sa_trip_id := sa_trip_id a |}.

Definition set_responded_at (a : SafetyAlert) (t : datetime) : SafetyAlert :=
  {| sa_id := sa_id a;
     sa_alert_type := sa_alert_type a;
     sa_status := sa_status a;
     sa_title := sa_title a;
     sa_message := sa_message a;
     sa_latitude := sa_latitude a;
     sa_longitude := sa_longitude a;
     sa_distance_from_planned_km := sa_distance_from_planned_km a;
     sa_triggered_at := sa_triggered_at a;
     sa_response_deadline := sa_response_deadline a;
     sa_responded_at := Some t;
     sa_response_message := sa_response_message a;
     sa_user_id := sa_user_id a;
     sa_trip_id := sa_trip_id a |}.

(** The filter of the route's query:
    [SafetyAlert.id == alert_id, SafetyAlert.user_id == current_user.id]. *)
Definition owned_alert (alert_id current_user_id : Z) (a : SafetyAlert) : bool :=
  (sa_id a =? alert_id) && (sa_user_id a =? current_user_id).

(** [.first()] *)
Definition query_alert (w : World) (alert_id current_user_id : Z) : option SafetyAlert :=
  find (owned_alert alert_id current_user_id) (safety_alerts (db w)).

(** [db.commit()] after the attributes of the queried object were
    assigned: its row, the first the filter selects, is rewritten. *)
Fixpoint update_first (p : SafetyAlert -> bool) (a' : SafetyAlert)
    (rows : list SafetyAlert) : list SafetyAlert :=
  match rows with
  | [] => []
  | a :: rest => if p a then a' :: rest else a :: update_first p a' rest
  end.

Definition commit_alert (w : World) (p : SafetyAlert -> bool)
    (a' : SafetyAlert) : World :=
  {| db := {| trips := trips (db w);
              planned_locations := planned_locations (db w);
              location_updates := location_updates (db w);
              safety_alerts := update_first p a' (safety_alerts (db w));
              next_alert_id := next_alert_id (db w) |};
     readings := readings w;
     ticks := ticks w |}.

Definition respond_to_alert (w : World) (alert_id : Z) (r : AlertResponse)
    (current_user_id : Z) : result (RespondReply * World) :=
  (* Find the alert *)
  match query_alert w alert_id current_user_id with
  | None => Raise (HTTPException 404 "Alert not found")
  | Some alert =>
      (* Update alert status *)
      let alert1 :=
        if (response r =? "safe")%string then
          set_response alert "responded_safe"
            (or_default (message r) "User confirmed they are safe")
        else if (response r =? "help")%string then
          set_response alert "responded_help"
            (or_default (message r) "User requested help")
        else alert in
      let (now, w1) := utcnow w in
      let alert2 := set_responded_at alert1 now in
      let w2 := commit_alert w1 (owned_alert alert_id current_user_id) alert2 in
      Ok ({| reply_message := "Alert response recorded: " ++ response r;
             reply_alert_id := alert_id |}, w2)
  end.

(** The queried object once [respond_to_alert] has made its assignments. *)
Definition responded (r : AlertResponse) (now : datetime) (alert : SafetyAlert)
    : SafetyAlert :=
  set_responded_at
    (if (response r =? "safe")%string then
       set_response alert "responded_safe"
         (or_default (message r) "User confirmed they are safe")
     else if (response r =? "help")%string then
       set_response alert "responded_help"
         (or_default (message r) "User requested help")
     else alert) now.

(** [create_manual_alert], the third place where alerts are created. *)
Definition create_manual_alert (w : World) (trip_id : Z) (msg : string)
    (current_user_id : Z) : result (RespondReply * World) :=
  (* Verify trip belongs to user *)
  match find (fun t => (t_id t =? trip_id) && (t_owner_id t =? current_user_id))
             (trips (db w)) with
  | None => Raise (HTTPException 404 "Trip not found")
  | Some trip =>
      (* Get user's latest location *)
      match order_by_timestamp_desc
              (filter (fun u => (lu_user_id u =? current_user_id)
                                && (lu_trip_id u =? trip_id))
                      (location_updates (db w))) with
      | [] => Raise (HTTPException 400 "No location data found for this trip")
      | latest_location :: _ =>
          let (t1, w1) := utcnow w in
          let (t2, w2) := utcnow w1 in
          let alert :=
            {| sa_id := 0;
               sa_alert_type := "manual";
               sa_status := "active";
               sa_title := "Manual Safety Alert";
               sa_message := msg;
               sa_latitude := lu_latitude latest_location;
               sa_longitude := lu_longitude latest_location;
               sa_distance_from_planned_km := None;
               sa_triggered_at := t1;
               sa_response_deadline := t2 + timedelta_minutes 15;
               sa_responded_at := None;
               sa_response_message := None;
               sa_user_id := current_user_id;
               sa_trip_id := trip_id |} in
          let (alert', w3) := add_alert alert w2 in
          Ok ({| reply_message := "Manual alert created";
                 reply_alert_id := sa_id alert' |}, w3)
      end
  end.

(** ** The deadline transition of the alert lifecycle *)

Inductive LifecycleError : Type := InvalidStateError.

Definition set_status (a : SafetyAlert) (st : string) : SafetyAlert :=
  {| sa_id := sa_id a;
     sa_alert_type := sa_alert_type a;
     sa_status := st;
     sa_title := sa_title a;
     sa_message := sa_message a;
     sa_latitude := sa_latitude a;
     sa_longitude := sa_longitude a;
     sa_distance_from_planned_km := sa_distance_from_planned_km a;
     sa_triggered_at := sa_triggered_at a;
     sa_response_deadline := sa_response_deadline a;
     sa_responded_at := sa_responded_at a;
     sa_response_message := sa_response_message a;
     sa_user_id := sa_user_id a;
     sa_trip_id := sa_trip_id a |}.

(** Modelled from the spec: [checkDeadline], the deadline sweep's step.
    No function of the source reaches the status escalated; section 4.5
    gives the transition (an active alert whose deadline is strictly in the
    past becomes escalated) and sections 4.5 and 7 make it fail with
    [InvalidStateError] on an alert that is not active. *)
Definition checkDeadline (alert : SafetyAlert) (now : datetime)
    : SafetyAlert + LifecycleError :=
  if (sa_status alert =? "active")%string then
    if sa_response_deadline alert <? now
    then inl (set_status alert "escalated")
    else inl alert
  else inr InvalidStateError.

(** ** The operations that write alerts *)

Inductive Operation : Type :=
| CheckDeviation (location_update : LocationUpdate) (trip : Trip)
| CheckStationary (user_id : Z) (trip : Trip)
| Respond (alert_id : Z) (r : AlertResponse) (current_user_id : Z)
| ManualAlert (trip_id : Z) (msg : string) (current_user_id : Z).

(** One operation on the world; the alert a detector opened, if any. *)
Definition run (M : PyMath) (op : Operation) (w : World)
    : result (option SafetyAlert * World) :=
  match op with
  | CheckDeviation location_update trip => check_deviation_alert M w location_update trip
  | CheckStationary user_id trip => check_stationary_alert M w user_id trip
  | Respond alert_id r current_user_id =>
      x <- respond_to_alert w alert_id r current_user_id ;; Ok (None, snd x)
  | ManualAlert trip_id msg current_user_id =>
      x <- create_manual_alert w trip_id msg current_user_id ;; Ok (None, snd x)
  end.

(** What is fixed when an alert is created. *)
Definition stamps (a : SafetyAlert) : Z * datetime * datetime :=
  (sa_id a, sa_triggered_at a, sa_response_deadline a).

Definition escalated (a : SafetyAlert) : Prop := sa_status a = "escalated"%string.

(** An alert opened from the readings [k] and [k + 1] of the clock of [w],
    and appended to the table. *)
Definition opened (w : World) (k : nat) (a : SafetyAlert) (w' : World) : Prop :=
  sa_triggered_at a = readings w k /\
  sa_response_deadline a = readings w (S k) + timedelta_minutes 15 /\
  safety_alerts (db w') = safety_alerts (db w) ++ [a].

(** The distance between two samples, as the stationary check computes it. *)
Definition distance_between (M : PyMath) (a b : LocationUpdate) : result float :=
  calculate_distance_km M (lu_latitude a) (lu_longitude a)
                        (lu_latitude b) (lu_longitude b).

(** ** A running example

    One traveller (user 7) on one trip (trip 1); the clock advances by a
    microsecond per reading. *)

Module Paris.

Definition clock (n : nat) : datetime := Z.of_nat n + 1700000000000000.

Definition trip : Trip :=
  {| t_id := 1;
     t_monitoring_enabled := true;
     t_deviation_threshold_km := two;
     t_owner_id := 7 |}.

Definition planned (i : Z) (name : string) (lat lon : float) : PlannedLocation :=
  {| pl_id := i;
     pl_name := name;
     pl_latitude := lat;
     pl_longitude := lon;
     pl_radius_meters := 500;
     pl_is_accommodation := false;
     pl_trip_id := 1 |}.

Definition eiffel_tower : PlannedLocation :=
  planned 1 "Eiffel Tower" (of_decimal 488584 4) (of_decimal 22945 4).
Definition louvre : PlannedLocation :=
  planned 2 "Louvre" (of_decimal 488606 4) (of_decimal 23376 4).

(** A sample taken [minutes_ago] minutes before the clock's first reading. *)
Definition sample (i : Z) (lat lon : float) (minutes_ago : Z) : LocationUpdate :=
  {| lu_id := i;
     lu_latitude := lat;
     lu_longitude := lon;
     lu_timestamp := clock 0 - timedelta_minutes minutes_ago;
     lu_user_id := 7;
     lu_trip_id := 1 |}.

Definition world (locations : list PlannedLocation) (samples : list LocationUpdate)
    (alerts : list SafetyAlert) : World :=
  {| db := {| trips := [trip];
              planned_locations := locations;
              location_updates := samples;
              safety_alerts := alerts;
              next_alert_id := 1 + Z.of_nat (List.length alerts) |};
     readings := clock;
     ticks := 0 |}.

(** Alert 1 of user 7, in a given status. *)
Definition alert_in (st : string) : SafetyAlert :=
  {| sa_id := 1;
     sa_alert_type := "deviation";
     sa_status := st;
     sa_title := "Location Deviation Detected";
     sa_message := "You are 4.2km away from your planned route. Are you safe?";
     sa_latitude := of_decimal 488566 4;
     sa_longitude := of_decimal 23522 4;
     sa_distance_from_planned_km := Some (of_decimal 42 1);
     sa_triggered_at := clock 0 - timedelta_minutes 60;
     sa_response_deadline := clock 0 - timedelta_minutes 45;
     sa_responded_at := None;
     sa_response_message := None;
     sa_user_id := 7;
     sa_trip_id := 1 |}.

(** City centre, 4.2 km from the Eiffel Tower. *)
Definition hotel_de_ville : float * float := (of_decimal 488566 4, of_decimal 23522 4).

End Paris.

(** A sample 4.2 km from the only planned location. *)
Module DeviationExample.
Definition far_sample : LocationUpdate :=
  Paris.sample 1 (fst Paris.hotel_de_ville) (snd Paris.hotel_de_ville) 0.
Definition w : World := Paris.world [Paris.eiffel_tower] [far_sample] [].
End DeviationExample.

(** Samples 0.4 km north and south of a point, at the point, and 1.1 km
    north of it. *)
Module MovedExample.
Definition north : LocationUpdate := Paris.sample 1 (of_decimal 36 4) (of_int 0) 120.
Definition south : LocationUpdate := Paris.sample 2 (of_decimal (-36) 4) (of_int 0) 60.
Definition middle : LocationUpdate := Paris.sample 3 (of_int 0) (of_int 0) 0.
Definition far_north : LocationUpdate := Paris.sample 4 (of_decimal 100 4) (of_int 0) 30.
Definition far_earlier : LocationUpdate := Paris.sample 5 (of_decimal 100 4) (of_int 0) 90.
End MovedExample.

(** Two valid coordinates on opposite sides of the globe, for which the
    value [a] of the formula is rounded above [1.0]. *)
Module AntipodeExample.
Definition here : float * float := (of_decimal (-39522) 3, of_decimal (-837681) 4).
Definition there : float * float := (of_decimal 39522 3, of_decimal 962319 4).
Definition antipode : PlannedLocation :=
  Paris.planned 3 "Antipode" (fst there) (snd there).
Definition sample_here : LocationUpdate := Paris.sample 1 (fst here) (snd here) 0.
Definition sample_there : LocationUpdate := Paris.sample 2 (fst there) (snd there) 60.
(** The trip has the one planned location; the traveller reports from
    the other side. *)
Definition w : World := Paris.world [antipode] [sample_here] [].
(** The traveller was on the other side an hour ago. *)
Definition moved : World := Paris.world [antipode] [sample_there; sample_here] [].
End AntipodeExample.

(** ** The other routes around the engine ([routes.py]) *)

(** [order_by(<column>.desc())] on any table: the insertion sort of
    [order_by_timestamp_desc], the column being a parameter. *)
Fixpoint insert_desc_by {A : Type} (column : A -> Z) (x : A) (l : list A) : list A :=
  match l with
  | [] => [x]
  | y :: l' =>
      if column y <=? column x then x :: l
      else y :: insert_desc_by column x l'
  end.

Definition order_by_desc {A : Type} (column : A -> Z) (l : list A) : list A :=
  fold_right (insert_desc_by column) [] l.

(** The guard every route starts with:
    [db.query(Trip).filter(Trip.id == trip_id, Trip.owner_id == current_user.id).first()] *)
Definition query_trip (w : World) (trip_id current_user_id : Z) : option Trip :=
  find (fun t => (t_id t =? trip_id) && (t_owner_id t =? current_user_id))
       (trips (db w)).

(** [schemas.LocationUpdateCreate], with the columns the tables keep. *)
Record LocationUpdateCreate : Type := {
  luc_trip_id : Z;
  luc_latitude : float;
  luc_longitude : float;
  luc_timestamp : datetime
}.

(** The JSON object [create_location_update] returns; the key
    [alerts_triggered] is present only when an alert was opened. *)
Record LocationReply : Type := {
  lr_message : string;
  lr_location_id : Z;
  lr_alerts_triggered : option (list (string * Z))
}.

(** [db.add(db_location); db.commit(); db.refresh(db_location)] *)
Definition add_location (u : LocationUpdate) (w : World) : World :=
  {| db := {| trips := trips (db w);
              planned_locations := planned_locations (db w);
              location_updates := location_updates (db w) ++ [u];
              safety_alerts := safety_alerts (db w);
              next_alert_id := next_alert_id (db w) |};
     readings := readings w;
     ticks := ticks w |}.

Definition alert_entry (kind : string) (created : option SafetyAlert)
    : list (string * Z) :=
  match created with
  | Some alert => [(kind, sa_id alert)]
  | None => []
  end.

(** [create_location_update]: the sample is stored, then both checks run
    when the trip is monitored.  [location_id] is the primary key the
    database gives the new row. *)
Definition create_location_update (M : PyMath) (w : World)
    (location : LocationUpdateCreate) (current_user_id : Z) (location_id : Z)
    : result (LocationReply * World) :=
  (* Verify trip belongs to user *)
  match query_trip w (luc_trip_id location) current_user_id with
  | None => Raise (HTTPException 404 "Trip not found")
  | Some trip =>
      let db_location :=
        {| lu_id := location_id;
           lu_latitude := luc_latitude location;
           lu_longitude := luc_longitude location;
           lu_timestamp := luc_timestamp location;
           lu_user_id := current_user_id;
           lu_trip_id := luc_trip_id location |} in
      let w1 := add_location db_location w in
      (* Check for safety alerts (geofencing) *)
      r <- (if t_monitoring_enabled trip then
              (* Check deviation alert *)
              dev <- check_deviation_alert M w1 db_location trip ;;
              (* Check stationary alert *)
              sta <- check_stationary_alert M (snd dev) current_user_id trip ;;
              Ok ((alert_entry "deviation" (fst dev)
                   ++ alert_entry "stationary" (fst sta))%list, snd sta)
            else Ok ([], w1)) ;;
      let alerts_created := fst r in
      Ok (match alerts_created with
          | [] =>
              {| lr_message := "Location updated successfully";
                 lr_location_id := location_id;
                 lr_alerts_triggered := None |}
          | _ =>
              {| lr_message :=
                   "Location updated successfully" ++ " - "
                   ++ string_of_nat_Z (Z.of_nat (List.length alerts_created))
                   ++ " safety alert(s) triggered";
                 lr_location_id := location_id;
                 lr_alerts_triggered := Some alerts_created |}
          end, snd r)
  end.

(** [get_trip_locations]: the 50 most recent samples of a trip of the
    caller. *)
Definition get_trip_locations (w : World) (trip_id current_user_id : Z)
    : result (list LocationUpdate) :=
  match query_trip w trip_id current_user_id with
  | None => Raise (HTTPException 404 "Trip not found")
  | Some _ =>
      Ok (firstn 50
            (order_by_timestamp_desc
               (filter (fun u => lu_trip_id u =? trip_id)
                       (location_updates (db w)))))
  end.

(** [get_user_alerts] *)
Definition get_user_alerts (w : World) (current_user_id : Z) : list SafetyAlert :=
  order_by_desc sa_triggered_at
    (filter (fun a => sa_user_id a =? current_user_id) (safety_alerts (db w))).

(** [schemas.PlannedLocationCreate], with the columns the tables keep. *)
Record PlannedLocationCreate : Type := {
  plc_name : string;
  plc_latitude : float;
  plc_longitude : float;
  plc_radius_meters : Z;
  plc_is_accommodation : bool
}.

(** [add_planned_location]; [location_id] is the primary key the database
    gives the new row. *)
Definition add_planned_location (w : World) (trip_id : Z)
    (location : PlannedLocationCreate) (current_user_id : Z) (location_id : Z)
    : result (PlannedLocation * World) :=
  (* Verify trip belongs to user *)
  match query_trip w trip_id current_user_id with
  | None => Raise (HTTPException 404 "Trip not found")
  | Some _ =>
      let db_location :=
        {| pl_id := location_id;
           pl_name := plc_name location;
           pl_latitude := plc_latitude location;
           pl_longitude := plc_longitude location;
           pl_radius_meters := plc_radius_meters location;
           pl_is_accommodation := plc_is_accommodation location;
           pl_trip_id := trip_id |} in
      Ok (db_location,
          {| db := {| trips := trips (db w);
                      planned_locations := planned_locations (db w) ++ [db_location];
                      location_updates := location_updates (db w);
                      safety_alerts := safety_alerts (db w);
                      next_alert_id := next_alert_id (db w) |};
             readings := readings w;
             ticks := ticks w |})
  end.

(** The primary key of [safety_alerts]: the stored ids are distinct and
    below the next one. *)
Definition alert_keys_ok (w : World) : Prop :=
  NoDup (map sa_id (safety_alerts (db w))) /\
  Forall (fun a => sa_id a < next_alert_id (db w)) (safety_alerts (db w)).

(** ** What the properties of the routes speak of *)

(** The order of [order_by(<column>.desc())]: no row is followed by one
    with a greater value of the column. *)
Definition newer_first {A : Type} (column : A -> Z) (a b : A) : Prop :=
  column b <= column a.

(** The filter of the window query, [since] being four hours before the
    reading of the clock. *)
Definition in_window (user_id : Z) (trip : Trip) (since : datetime)
    (u : LocationUpdate) : bool :=
  (lu_user_id u =? user_id) && (lu_trip_id u =? t_id trip)
  && (since <=? lu_timestamp u).

(** [a] was stored as a new active alert under the next primary key;
    nothing else changed in the tables. *)
Definition appended (w : World) (a : SafetyAlert) (w' : World) : Prop :=
  trips (db w') = trips (db w) /\
  planned_locations (db w') = planned_locations (db w) /\
  location_updates (db w') = location_updates (db w) /\
  safety_alerts (db w') = (safety_alerts (db w) ++ [a])%list /\
  next_alert_id (db w') = next_alert_id (db w) + 1 /\
  sa_id a = next_alert_id (db w) /\
  sa_status a = "active"%string.

(** The row [create_location_update] stores. *)
Definition stored_sample (location : LocationUpdateCreate)
    (current_user_id location_id : Z) : LocationUpdate :=
  {| lu_id := location_id;
     lu_latitude := luc_latitude location;
     lu_longitude := luc_longitude location;
     lu_timestamp := luc_timestamp location;
     lu_user_id := current_user_id;
     lu_trip_id := luc_trip_id location |}.

(** An entry of [alerts_triggered]. *)
Definition reported (a : SafetyAlert) : string * Z := (sa_alert_type a, sa_id a).

Definition created_rows (created : option SafetyAlert) : list SafetyAlert :=
  match created with
  | Some a => [a]
  | None => []
  end.

Module PostedExample.
(** The traveler posts a first sample from the city centre. *)
Definition posted : LocationUpdateCreate :=
  {| luc_trip_id := 1;
     luc_latitude := fst Paris.hotel_de_ville;
     luc_longitude := snd Paris.hotel_de_ville;
     luc_timestamp := Paris.clock 0 |}.
Definition w : World := Paris.world [Paris.eiffel_tower] [] [].
(** The Louvre is added to the trip. *)
Definition added : PlannedLocationCreate :=
  {| plc_name := "Louvre";
     plc_latitude := pl_latitude Paris.louvre;
     plc_longitude := pl_longitude Paris.louvre;
     plc_radius_meters := 500;
     plc_is_accommodation := false |}.
End PostedExample.

Module ArrivedExample.
(** The traveler stands at the Eiffel Tower. *)
Definition at_tower : LocationUpdate :=
  Paris.sample 1 (pl_latitude Paris.eiffel_tower) (pl_longitude Paris.eiffel_tower) 0.
Definition w : World := Paris.world [Paris.louvre; Paris.eiffel_tower] [at_tower] [].
End ArrivedExample.


(** The readings of the clock increase. *)
Definition clock_increasing (w : World) : Prop :=
  forall m n : nat, (m < n)%nat -> readings w m < readings w n.

(** The alerts are stored in the order of their trigger times, all of
    them before the next reading of the clock. *)
Definition chronological (w : World) : Prop :=
  StronglySorted (fun a b => sa_triggered_at a < sa_triggered_at b)
                 (safety_alerts (db w)) /\
  Forall (fun a => sa_triggered_at a < readings w (ticks w)) (safety_alerts (db w)).

Module AlertsExample.
(** A second alert of user 7, triggered half an hour after the first. *)
Definition later : SafetyAlert :=
  {| sa_id := 2;
     sa_alert_type := "manual";
     sa_status := "active";
     sa_title := "Manual Safety Alert";
     sa_message := "help me";
     sa_latitude := fst Paris.hotel_de_ville;
     sa_longitude := snd Paris.hotel_de_ville;
     sa_distance_from_planned_km := None;
     sa_triggered_at := Paris.clock 0 - timedelta_minutes 30;
     sa_response_deadline := Paris.clock 0 - timedelta_minutes 15;
     sa_responded_at := None;
     sa_response_message := None;
     sa_user_id := 7;
     sa_trip_id := 1 |}.
End AlertsExample.

(** A database in use: two earlier samples of user 7 on trip 1, two alerts
    of user 7 and one of user 8. *)
Module BusyExample.
Definition earlier : LocationUpdate :=
  Paris.sample 1 (fst Paris.hotel_de_ville) (snd Paris.hotel_de_ville) 120.
Definition recent : LocationUpdate :=
  Paris.sample 2 (pl_latitude Paris.louvre) (pl_longitude Paris.louvre) 60.
Definition stranger : SafetyAlert :=
  {| sa_id := 3;
     sa_alert_type := "manual";
     sa_status := "active";
     sa_title := "Manual Safety Alert";
     sa_message := "lost";
     sa_latitude := pl_latitude Paris.louvre;
     sa_longitude := pl_longitude Paris.louvre;
     sa_distance_from_planned_km := None;
     sa_triggered_at := Paris.clock 0 - timedelta_minutes 20;
     sa_response_deadline := Paris.clock 0 - timedelta_minutes 5;
     sa_responded_at := None;
     sa_response_message := None;
     sa_user_id := 8;
     sa_trip_id := 2 |}.
Definition alerts : list SafetyAlert :=
  [Paris.alert_in "active"; AlertsExample.later; stranger].
Definition w : World := Paris.world [Paris.eiffel_tower] [earlier; recent] alerts.
End BusyExample.

(** * Properties *)

(** ** binary64: signs

    Negation commutes with rounding, so multiplication and division are
    odd in their first argument and subtraction is antisymmetric up to the
    sign of a zero. *)

Lemma fopp_involutive (x : float) : fopp (fopp x) = x.
Proof. destruct x as [s|s| |s m e]; simpl; try rewrite negb_involutive; reflexivity. Qed.

Lemma binary_round_aux_opp (s : bool) (m e : Z) (l : location) :
  binary_round_aux prec emax (negb s) m e l = fopp (binary_round_aux prec emax s m e l).
Proof.
  unfold binary_round_aux.
  destruct (shr_fexp prec emax m e l) as [mrs' e'].
  destruct (shr_fexp prec emax _ e' loc_Exact) as [mrs'' e''].
  destruct (shr_m mrs'') as [|p|p]; try reflexivity.
  destruct (e'' <=? emax - prec); reflexivity.
Qed.

Lemma fmul_comm (x y : float) : fmul x y = fmul y x.
Proof.
  destruct x as [sx|sx| |sx mx ex], y as [sy|sy| |sy my ey];
    cbv [fmul SFmul]; rewrite ?(xorb_comm sx sy); try reflexivity.
  now rewrite Pos.mul_comm, Z.add_comm.
Qed.

Lemma fmul_opp_l (x c : float) : fmul (fopp x) c = fopp (fmul x c).
Proof.
  destruct x as [sx|sx| |sx mx ex], c as [sy|sy| |sy my ey];
    cbv [fmul SFmul fopp SFopp]; rewrite <- ?negb_xorb_l; try reflexivity.
  apply (binary_round_aux_opp (xorb sx sy)).
Qed.

Lemma fdiv_opp_l (x c : float) : fdiv (fopp x) c = fopp (fdiv x c).
Proof.
  destruct x as [sx|sx| |sx mx ex], c as [sy|sy| |sy my ey];
    cbv [fdiv SFdiv fopp SFopp]; rewrite <- ?negb_xorb_l; try reflexivity.
  destruct (SFdiv_core_binary prec emax (Z.pos mx) ex (Z.pos my) ey) as [[mz ez] lz].
  apply (binary_round_aux_opp (xorb sx sy)).
Qed.

Lemma binary_round_opp (s : bool) (m : positive) (e : Z) :
  binary_round prec emax (negb s) m e = fopp (binary_round prec emax s m e).
Proof.
  unfold binary_round.
  destruct (shl_align m e _) as [mz ez].
  apply binary_round_aux_opp.
Qed.

Lemma binary_normalize_opp (z e : Z) :
  eq_abs (binary_normalize prec emax (- z) e false) (binary_normalize prec emax z e false).
Proof.
  destruct z as [|p|p]; cbv [binary_normalize Z.opp].
  - now left.
  - right. apply (binary_round_opp false).
  - right. exact (binary_round_opp true p e).
Qed.

Lemma fsub_swap (x y : float) : eq_abs (fsub x y) (fsub y x).
Proof.
  destruct x as [[]|[]| |sx mx ex], y as [[]|[]| |sy my ey];
    cbv [fsub SFsub];
    try (left; reflexivity);
    try (right; cbv [fopp SFopp]; rewrite ?negb_involutive; reflexivity).
  rewrite (Z.min_comm ey ex).
  match goal with |- eq_abs (binary_normalize _ _ (?a - ?b) _ _) _ =>
    replace (a - b) with (- (b - a)) by ring end.
  apply binary_normalize_opp.
Qed.

Lemma eq_abs_fmul (x y c : float) : eq_abs x y -> eq_abs (fmul x c) (fmul y c).
Proof. intros [->| ->]; [now left | right; apply fmul_opp_l]. Qed.

Lemma eq_abs_fdiv (x y c : float) : eq_abs x y -> eq_abs (fdiv x c) (fdiv y c).
Proof. intros [->| ->]; [now left | right; apply fdiv_opp_l]. Qed.

Lemma fsub_diag (x : float) : is_finite x = true -> fsub x x = pos_zero.
Proof.
  destruct x as [[]| | |s m e]; try discriminate; intros _; try reflexivity.
  cbv [fsub SFsub]. now rewrite Z.sub_diag.
Qed.

(** ** binary64: no overflow far from the largest exponent *)

Lemma digits2_pos_log2 (p : positive) : Zpos (digits2_pos p) = Z.log2 (Zpos p) + 1.
Proof.
  assert (H : forall q, digits2_pos q = Pos.size q)
    by (induction q; simpl; congruence).
  destruct p; simpl; rewrite ?H; lia.
Qed.

Lemma Zdigits2_log2 (z : Z) : 0 < z -> Zdigits2 z = Z.log2 z + 1.
Proof. destruct z; try lia. intros _. apply digits2_pos_log2. Qed.

Lemma Zdigits2_nonneg (z : Z) : 0 <= Zdigits2 z.
Proof. destruct z; simpl; lia. Qed.

Lemma Zdigits2_le (a b : Z) : 0 <= a <= b -> Zdigits2 a <= Zdigits2 b.
Proof.
  intros [Ha Hab].
  destruct (Z.eq_dec a 0) as [->|Hn]; [apply Zdigits2_nonneg|].
  rewrite !Zdigits2_log2 by lia.
  apply Z.add_le_mono_r, Z.log2_le_mono; lia.
Qed.

Lemma Zdigits2_succ (a : Z) : 0 <= a -> Zdigits2 (a + 1) <= Zdigits2 a + 1.
Proof.
  intros Ha.
  destruct (Z.eq_dec a 0) as [->|Hn]; [simpl; lia|].
  rewrite !Zdigits2_log2 by lia.
  pose proof (Z.log2_succ_le a) as H. unfold Z.succ in H. lia.
Qed.

Lemma digits2_pos_mul (p q : positive) :
  Zpos (digits2_pos (p * q)) <= Zpos (digits2_pos p) + Zpos (digits2_pos q).
Proof.
  rewrite !digits2_pos_log2, Pos2Z.inj_mul.
  pose proof (Z.log2_mul_above (Zpos p) (Zpos q)). lia.
Qed.

Lemma shr_1_bounds (r : shr_record) :
  0 <= shr_m r -> 0 <= shr_m (shr_1 r) <= shr_m r.
Proof.
  destruct r as [m rb sb]; simpl.
  destruct m as [|[p|p|]|p]; simpl; lia.
Qed.

Lemma iter_shr_1_bounds (p : positive) (r : shr_record) :
  0 <= shr_m r -> 0 <= shr_m (iter_pos shr_1 p r) <= shr_m r.
Proof.
  revert r; induction p as [p IH|p IH|]; intros r Hr; simpl.
  - pose proof (shr_1_bounds r Hr) as H1.
    pose proof (IH _ (proj1 H1)) as H2.
    pose proof (IH _ (proj1 H2)). lia.
  - pose proof (IH _ Hr) as H2.
    pose proof (IH _ (proj1 H2)). lia.
  - now apply shr_1_bounds.
Qed.

Lemma shr_m_of_loc (m : Z) (l : location) : shr_m (shr_record_of_loc m l) = m.
Proof. destruct l as [|[]]; reflexivity. Qed.

Lemma shr_fexp_bounds (m e : Z) (l : location) :
  0 <= m ->
  let r := shr_fexp prec emax m e l in
  0 <= shr_m (fst r) <= m /\
  snd r <= Z.max e (fexp prec emax (Zdigits2 m + e)).
Proof.
  intros Hm. unfold shr_fexp, shr.
  destruct (fexp prec emax (Zdigits2 m + e) - e) as [|p|p] eqn:E; cbn [fst snd];
    rewrite ?shr_m_of_loc; try lia.
  split; [|lia].
  rewrite <- (shr_m_of_loc m l) at 3.
  apply iter_shr_1_bounds. rewrite shr_m_of_loc; lia.
Qed.

Lemma round_nearest_even_bounds (m : Z) (l : location) :
  m <= round_nearest_even m l <= m + 1.
Proof. destruct l as [|[]]; simpl; try lia. destruct (Z.even m); lia. Qed.

(** No overflow far from the largest exponent. *)
Lemma binary_round_aux_finite (s : bool) (m e : Z) (l : location) :
  0 <= m -> Zdigits2 m <= 106 -> e <= 864 ->
  is_finite (binary_round_aux prec emax s m e l) = true.
Proof.
  intros Hm Hd He. unfold binary_round_aux.
  pose proof (shr_fexp_bounds m e l Hm) as H1. cbv zeta in H1.
  destruct (shr_fexp prec emax m e l) as [mrs' e']. cbn [fst snd] in H1.
  destruct H1 as [Hm1 He1].
  pose proof (round_nearest_even_bounds (shr_m mrs') (loc_of_shr_record mrs')) as Hr.
  set (m1 := round_nearest_even (shr_m mrs') (loc_of_shr_record mrs')) in *.
  assert (Hm1' : 0 <= m1) by lia.
  pose proof (shr_fexp_bounds m1 e' loc_Exact Hm1') as H2. cbv zeta in H2.
  destruct (shr_fexp prec emax m1 e' loc_Exact) as [mrs'' e'']. cbn [fst snd] in H2.
  destruct H2 as [Hm2 He2].
  assert (Hd1 : Zdigits2 m1 <= 107).
  { pose proof (Zdigits2_le m1 (shr_m mrs' + 1) ltac:(lia)).
    pose proof (Zdigits2_succ (shr_m mrs') ltac:(lia)).
    pose proof (Zdigits2_le (shr_m mrs') m ltac:(lia)). lia. }
  pose proof (Zdigits2_nonneg m). pose proof (Zdigits2_nonneg m1).
  unfold fexp, emin, prec, emax in *.
  destruct (shr_m mrs'') as [|p|p]; try reflexivity; [|lia].
  destruct (e'' <=? 1024 - 53) eqn:E; [reflexivity|].
  apply Z.leb_gt in E. lia.
Qed.

Lemma fmul_finite (x y : float) :
  is_finite x = true -> is_finite y = true ->
  digits_ok x -> digits_ok y -> exponent x + exponent y <= 864 ->
  is_finite (fmul x y) = true.
Proof.
  destruct x as [sx| | |sx mx ex], y as [sy| | |sy my ey]; try discriminate;
    try reflexivity.
  cbn [digits_ok exponent]. intros _ _ Hx Hy He.
  cbv [fmul SFmul]. apply binary_round_aux_finite; try lia.
  cbn [Zdigits2]. pose proof (digits2_pos_mul mx my). lia.
Qed.

Lemma valid_digits_ok (x : float) : valid_binary prec emax x = true -> digits_ok x.
Proof.
  destruct x as [s|s| |s m e]; cbn; try easy.
  unfold bounded, canonical_mantissa, fexp, emin, prec, emax.
  intros H. apply andb_prop in H as [H _]. apply Z.eqb_eq in H. lia.
Qed.

Lemma fle_fabs_exponent (x b : float) :
  fle (fabs x) b = true -> is_finite b = true ->
  is_finite x = true /\ exponent x <= Z.max (exponent b) (-1074).
Proof.
  intros H Hb.
  destruct x as [s|s| |s m e], b as [sb|sb| |sb mb eb]; try discriminate Hb;
    cbv [fle fabs SFabs SFleb SFcompare] in H; cbn [exponent is_finite];
    try discriminate H; split; try reflexivity; try lia.
  destruct sb; try discriminate H.
  destruct (Z.compare_spec e eb); try discriminate H; lia.
Qed.

(** ** binary64: the order of the comparisons *)

Ltac cmp_cases :=
  repeat match goal with
  | |- context [Z.compare ?a ?b] => destruct (Z.compare_spec a b)
  | |- context [PosDef.Pos.compare_cont Eq ?a ?b] =>
      change (PosDef.Pos.compare_cont Eq a b) with (Pos.compare a b);
      destruct (Pos.compare_spec a b)
  end.

Lemma flt_spec (x y : float) :
  flt x y = true <-> is_nan x = false /\ is_nan y = false /\ klt (key x) (key y).
Proof.
  destruct x as [[]|[]| |[] mx ex], y as [[]|[]| |[] my ey];
    cbv [flt SFltb SFcompare key klt is_nan]; cmp_cases; cbn [CompOpp];
    split; intros HH; try discriminate HH; try reflexivity;
    try (repeat split; try reflexivity; lia);
    try (destruct HH as (H1 & H2 & H3); try discriminate H1; try discriminate H2; lia).
Qed.

Lemma fle_spec (x y : float) :
  fle x y = true <-> is_nan x = false /\ is_nan y = false /\ kle (key x) (key y).
Proof.
  destruct x as [[]|[]| |[] mx ex], y as [[]|[]| |[] my ey];
    cbv [fle SFleb SFcompare key kle is_nan]; cmp_cases; cbn [CompOpp];
    split; intros HH; try discriminate HH; try reflexivity;
    try (repeat split; try reflexivity; lia);
    try (destruct HH as (H1 & H2 & H3); try discriminate H1; try discriminate H2; lia).
Qed.

Lemma feq_spec (x y : float) :
  feq x y = true <-> is_nan x = false /\ is_nan y = false /\ key x = key y.
Proof.
  destruct x as [[]|[]| |[] mx ex], y as [[]|[]| |[] my ey];
    cbv [feq SFeqb SFcompare key is_nan]; cmp_cases; cbn [CompOpp];
    split; intros HH; try discriminate HH; try reflexivity;
    try (repeat split; try reflexivity; congruence);
    try (destruct HH as (H1 & H2 & H3); try discriminate H1; try discriminate H2;
         injection H3; intros; lia).
Qed.

(** ** The reference library satisfies the laws *)

Module RefMathLaws.
Import RefMath.

Lemma with_sign_negb (s : bool) (x : float) :
  with_sign (negb s) x = fopp (with_sign s x).
Proof. destruct s; simpl; [symmetry; apply fopp_involutive | reflexivity]. Qed.

Lemma sin_zero (s : bool) : sin (S754_zero s) = Some (S754_zero s).
Proof. reflexivity. Qed.

Lemma sin_odd (x : float) : sin (fopp x) = option_map fopp (sin x).
Proof.
  destruct x as [s|s| |s m e]; try reflexivity.
  unfold sin, fopp, SFopp, option_map.
  now rewrite with_sign_negb.
Qed.

Lemma clamp_unit_range (x : float) : in_range one (clamp_unit x) = true.
Proof. unfold clamp_unit; destruct (in_range one x) eqn:E; [assumption | reflexivity]. Qed.

Lemma cos_finite (x : float) :
  is_finite x = true -> exists c, cos x = Some c /\ in_range one c = true.
Proof.
  destruct x as [s|s| |s m e]; try discriminate; intros _.
  - exists one; split; reflexivity.
  - unfold cos. eexists; split; [reflexivity|].
    destruct (tiny m e); [reflexivity | apply clamp_unit_range].
Qed.

Lemma atan2_zero (s : bool) (x : float) :
  is_nan x = false -> signbit x = false -> atan2 (S754_zero s) x = Some (S754_zero s).
Proof.
  destruct x as [sx|sx| |sx m e]; try discriminate;
    unfold atan2, signbit; intros _ ->; destruct s; reflexivity.
Qed.

Lemma pow2_zero (s : bool) : pow2 (S754_zero s) = Ok pos_zero.
Proof. reflexivity. Qed.

Lemma pow2_even (x : float) : pow2 (fopp x) = pow2 x.
Proof. destruct x; reflexivity. Qed.

End RefMathLaws.

Definition ref_math : PyMath :=
  {| math_sin := RefMath.sin;
     math_cos := RefMath.cos;
     math_atan2 := RefMath.atan2;
     float_pow2 := RefMath.pow2;
     math_sin_zero := RefMathLaws.sin_zero;
     math_sin_odd := RefMathLaws.sin_odd;
     math_cos_range := RefMathLaws.cos_finite;
     math_atan2_zero := RefMathLaws.atan2_zero;
     float_pow2_zero := RefMathLaws.pow2_zero;
     float_pow2_even := RefMathLaws.pow2_even |}.

Lemma in_range_facts (b x : float) :
  in_range b x = true -> is_finite b = true ->
  is_finite x = true /\ digits_ok x /\ exponent x <= Z.max (exponent b) (-1074).
Proof.
  unfold in_range. intros H Hb. apply andb_prop in H as [Hv Hle].
  destruct (fle_fabs_exponent x b Hle Hb) as [Hf He].
  repeat split; [assumption | now apply valid_digits_ok | assumption].
Qed.

(** Order facts, read off the keys. *)
Ltac by_keys :=
  repeat match goal with
  | |- context [key ?x] => destruct (key x) as [[? ?] ?]
  | H : context [key ?x] |- _ => destruct (key x) as [[? ?] ?]
  end; cbn in *; lia.

Lemma flt_trans (x y z : float) : flt x y = true -> flt y z = true -> flt x z = true.
Proof.
  rewrite !flt_spec. intros (Nx & Ny & H1) (_ & Nz & H2).
  repeat split; try assumption. by_keys.
Qed.

Lemma flt_fle_trans (x y z : float) : flt x y = true -> fle y z = true -> flt x z = true.
Proof.
  rewrite !flt_spec, fle_spec. intros (Nx & Ny & H1) (_ & Nz & H2).
  repeat split; try assumption. by_keys.
Qed.

Lemma not_flt_fle (x y : float) :
  is_nan x = false -> is_nan y = false -> flt x y = false -> fle y x = true.
Proof.
  intros Nx Ny H. apply fle_spec. repeat split; try assumption.
  assert (H' : ~ klt (key x) (key y)).
  { intros K. rewrite (proj2 (flt_spec x y)) in H by auto. discriminate. }
  by_keys.
Qed.

Lemma fle_not_flt (x y : float) : fle x y = true -> flt y x = false.
Proof.
  rewrite fle_spec. intros (Nx & Ny & H).
  destruct (flt y x) eqn:E; [|reflexivity].
  apply flt_spec in E as (_ & _ & K). by_keys.
Qed.

Lemma feq_not_flt (x y : float) : feq x y = true -> flt y x = false.
Proof.
  rewrite feq_spec. intros (Nx & Ny & H).
  destruct (flt y x) eqn:E; [|reflexivity].
  apply flt_spec in E as (_ & _ & K). rewrite H in K. by_keys.
Qed.

Lemma feq_refl (x : float) : is_nan x = false -> feq x x = true.
Proof. intros H. apply feq_spec. auto. Qed.

Lemma finite_not_nan (x : float) : is_finite x = true -> is_nan x = false.
Proof. destruct x; try discriminate; reflexivity. Qed.

Lemma finite_flt_inf (x : float) : is_finite x = true -> flt x inf = true.
Proof. destruct x as [s| | |[] m e]; try discriminate; reflexivity. Qed.

(** ** GeoMath *)

Section GeoMathFacts.

Variable M : PyMath.

Lemma haversine_abs (d d' : float) : eq_abs d d' -> haversine M d = haversine M d'.
Proof.
  intros H. apply (eq_abs_fdiv _ _ two) in H. unfold haversine.
  destruct H as [->| ->]; [reflexivity|].
  rewrite math_sin_odd.
  destruct (math_sin M (fdiv d' two)) as [s|]; [|reflexivity].
  apply float_pow2_even.
Qed.

Lemma haversine_zero : haversine M pos_zero = Ok pos_zero.
Proof.
  unfold haversine. change (fdiv pos_zero two) with pos_zero.
  unfold pos_zero. rewrite math_sin_zero. apply float_pow2_zero.
Qed.

(** The formula in two stages. *)
Lemma calculate_distance_km_eq (lat1 lon1 lat2 lon2 : float) :
  calculate_distance_km M lat1 lon1 lat2 lon2 =
  (h1 <- haversine M (math_radians (fsub lat2 lat1)) ;;
   c1 <- domain_error (math_cos M (math_radians lat1)) ;;
   c2 <- domain_error (math_cos M (math_radians lat2)) ;;
   h2 <- haversine M (math_radians (fsub lon2 lon1)) ;;
   central_angle M h1 c1 c2 h2).
Proof.
  unfold calculate_distance_km, haversine, central_angle.
  destruct (math_sin M (fdiv (math_radians (fsub lat2 lat1)) two)) as [s1|]; [|reflexivity].
  cbn [domain_error bind].
  destruct (float_pow2 M s1); [|reflexivity]. cbn [bind].
  destruct (math_cos M (math_radians lat1)); [|reflexivity]. cbn [domain_error bind].
  destruct (math_cos M (math_radians lat2)); [|reflexivity]. cbn [domain_error bind].
  destruct (math_sin M (fdiv (math_radians (fsub lon2 lon1)) two)); reflexivity.
Qed.

(** Exchanging the two points changes neither the value nor the
    exception. *)
Lemma distance_swap (lat1 lon1 lat2 lon2 : float) :
  calculate_distance_km M lat1 lon1 lat2 lon2 =
  calculate_distance_km M lat2 lon2 lat1 lon1.
Proof.
  rewrite !calculate_distance_km_eq.
  rewrite (haversine_abs (math_radians (fsub lat2 lat1)) (math_radians (fsub lat1 lat2)))
    by (apply eq_abs_fmul, fsub_swap).
  rewrite (haversine_abs (math_radians (fsub lon2 lon1)) (math_radians (fsub lon1 lon2)))
    by (apply eq_abs_fmul, fsub_swap).
  destruct (haversine M (math_radians (fsub lat1 lat2))) as [h1|]; [|reflexivity].
  cbn [bind].
  destruct (math_cos M (math_radians lat1)) as [c1|],
           (math_cos M (math_radians lat2)) as [c2|];
    cbn [domain_error bind]; try reflexivity.
  destruct (haversine M (math_radians (fsub lon1 lon2))) as [h2|]; [|reflexivity].
  cbn [bind]. unfold central_angle. now rewrite (fmul_comm c1 c2).
Qed.

Lemma fmul_finite_zero (c : float) :
  is_finite c = true -> exists s, fmul c pos_zero = S754_zero s.
Proof.
  destruct c as [s| | |s m e]; try discriminate; intros _; eexists; reflexivity.
Qed.

Lemma central_angle_zero (c1 c2 : float) :
  in_range one c1 = true -> in_range one c2 = true ->
  central_angle M pos_zero c1 c2 pos_zero = Ok pos_zero.
Proof.
  intros H1 H2.
  destruct (in_range_facts _ _ H1 eq_refl) as (F1 & D1 & E1).
  destruct (in_range_facts _ _ H2 eq_refl) as (F2 & D2 & E2).
  cbn [one exponent] in E1, E2.
  assert (Hcc : is_finite (fmul c1 c2) = true) by (apply fmul_finite; try assumption; lia).
  destruct (fmul_finite_zero _ Hcc) as [s Hz].
  unfold central_angle. rewrite Hz.
  assert (Ha : fadd pos_zero (S754_zero s) = pos_zero) by (destruct s; reflexivity).
  rewrite Ha.
  change (math_sqrt pos_zero) with (Ok pos_zero).
  change (fsub one pos_zero) with one.
  change (math_sqrt one) with (Ok one).
  cbn [bind]. unfold pos_zero at 1.
  rewrite (math_atan2_zero M false one eq_refl eq_refl).
  reflexivity.
Qed.

(** A valid coordinate is at distance [0.0] from itself. *)
Lemma distance_self (lat lon : float) :
  valid_coordinate lat lon = true ->
  calculate_distance_km M lat lon lat lon = Ok pos_zero.
Proof.
  unfold valid_coordinate. intros H. apply andb_prop in H as [Hlat Hlon].
  destruct (in_range_facts _ _ Hlat eq_refl) as (F1 & D1 & E1).
  destruct (in_range_facts _ _ Hlon eq_refl) as (F2 & _ & _).
  assert (Hrad : is_finite (math_radians lat) = true).
  { apply fmul_finite; try assumption; try reflexivity.
    - cbv; discriminate.
    - change (exponent (of_int 90)) with (-46) in E1.
      change (exponent degToRad) with (-58). lia. }
  rewrite calculate_distance_km_eq, !fsub_diag by assumption.
  change (math_radians pos_zero) with pos_zero.
  rewrite haversine_zero. cbn [bind].
  destruct (math_cos_range M _ Hrad) as (c & -> & Hc). cbn [domain_error bind].
  now apply central_angle_zero.
Qed.

End GeoMathFacts.

(** C9: the distance from a to b is the distance from b to a, the same
    float or the same exception, so that [==] holds between the two
    whenever a number comes out; and a valid coordinate is at distance [0.0]
    from itself. *)
Theorem distance_symmetric_and_zero (M : PyMath) (lat1 lon1 lat2 lon2 : float) :
  calculate_distance_km M lat1 lon1 lat2 lon2
    = calculate_distance_km M lat2 lon2 lat1 lon1 /\
  (forall d, calculate_distance_km M lat1 lon1 lat2 lon2 = Ok d -> is_nan d = false ->
     exists d', calculate_distance_km M lat2 lon2 lat1 lon1 = Ok d' /\ feq d d' = true) /\
  (valid_coordinate lat1 lon1 = true ->
     exists d, calculate_distance_km M lat1 lon1 lat1 lon1 = Ok d
               /\ feq d (of_int 0) = true).
Proof.
  split; [apply distance_swap|]. split.
  - intros d Hd Hnan. exists d. split; [now rewrite <- distance_swap | now apply feq_refl].
  - intros Hvalid. exists pos_zero. split; [now apply distance_self | reflexivity].
Qed.

(** The Eiffel Tower and the Hotel de Ville, with the reference library. *)
Lemma distance_symmetric_and_zero_witness :
  let lat1 := of_decimal 488584 4 in
  let lon1 := of_decimal 22945 4 in
  let lat2 := of_decimal 488566 4 in
  let lon2 := of_decimal 23522 4 in
  valid_coordinate lat1 lon1 = true /\
  calculate_distance_km ref_math lat1 lon1 lat2 lon2
    = calculate_distance_km ref_math lat2 lon2 lat1 lon1 /\
  exists d, calculate_distance_km ref_math lat1 lon1 lat1 lon1 = Ok d
            /\ feq d (of_int 0) = true.
Proof.
  cbv zeta. split; [reflexivity|].
  pose proof (distance_symmetric_and_zero ref_math
                (of_decimal 488584 4) (of_decimal 22945 4)
                (of_decimal 488566 4) (of_decimal 23522 4)) as (Hsym & _ & Hzero).
  split; [exact Hsym | apply Hzero; reflexivity].
Defined.

(** ** NearestWaypoint *)

Section NearestWaypoint.

Variable M : PyMath.
Variables current_lat current_lon : float.

Lemma nearest_loop_spec (locations : list PlannedLocation) :
  finite_distances M current_lat current_lon locations ->
  forall (nearest_location : option PlannedLocation) (min_distance : float),
  is_nan min_distance = false ->
  exists n d,
    nearest_loop M current_lat current_lon locations nearest_location min_distance
      = Ok (n, d) /\
    ((n = nearest_location /\ d = min_distance /\
      Forall (farther M current_lat current_lon false min_distance) locations)
     \/ (exists w, n = Some w /\ flt d min_distance = true /\
                   first_nearest M current_lat current_lon locations w d)).
Proof.
  induction 1 as [|p rest (dp & Hp & Hfin) Hrest IH]; intros n0 d0 Hd0; cbn [nearest_loop].
  - exists n0, d0. split; [reflexivity|]. left. repeat split. constructor.
  - fold (distance_to M current_lat current_lon p). rewrite Hp. cbn [bind].
    pose proof (finite_not_nan _ Hfin) as Hnan.
    destruct (flt dp d0) eqn:Hlt.
    + destruct (IH (Some p) dp Hnan) as (n & d & -> & [(-> & -> & Hall)|(w & -> & Hw & Hfirst)]);
        eexists _, _; (split; [reflexivity|]); right.
      * exists p. repeat split; try assumption.
        exists [], rest. repeat split; try assumption. constructor.
      * exists w. repeat split; [eapply flt_trans; eassumption|].
        destruct Hfirst as (before & after & -> & Hdw & Hb & Ha).
        exists (p :: before), after. repeat split; try assumption.
        constructor; [|assumption]. exists dp; split; assumption.
    + destruct (IH n0 d0 Hd0) as (n & d & -> & [(-> & -> & Hall)|(w & -> & Hw & Hfirst)]);
        eexists _, _; (split; [reflexivity|]).
      * left. repeat split. constructor; [|assumption].
        exists dp; split; [assumption|]. now apply not_flt_fle.
      * right. exists w. repeat split; [assumption|].
        destruct Hfirst as (before & after & -> & Hdw & Hb & Ha).
        exists (p :: before), after. repeat split; try assumption.
        constructor; [|assumption]. exists dp; split; [assumption|].
        eapply flt_fle_trans; [eassumption|]. now apply not_flt_fle.
Qed.

Lemma find_nearest_nonempty (locations : list PlannedLocation) :
  locations <> [] -> finite_distances M current_lat current_lon locations ->
  exists w d,
    find_nearest_planned_location M current_lat current_lon locations = Ok (Some w, d) /\
    first_nearest M current_lat current_lon locations w d.
Proof.
  intros Hne Hfin.
  destruct (nearest_loop_spec locations Hfin None inf eq_refl)
    as (n & d & Heq & [(-> & -> & Hall)|(w & -> & _ & Hfirst)]).
  - destruct locations as [|p rest]; [contradiction|].
    inversion Hall as [|? ? (dp & Hp & Hle) _]; subst.
    inversion Hfin as [|? ? (dp' & Hp' & Hf) _]; subst.
    rewrite Hp in Hp'. injection Hp' as <-.
    apply fle_not_flt in Hle. rewrite (finite_flt_inf _ Hf) in Hle. discriminate.
  - exists w, d. split; [|assumption].
    destruct locations; [contradiction | exact Heq].
Qed.

End NearestWaypoint.

(** Outside these hypotheses: a distance that is NaN never passes the test
    [distance < min_distance], so a planned location with a NaN coordinate
    is skipped. *)
Lemma find_nearest_skips_nan :
  find_nearest_planned_location ref_math (of_int 0) (of_int 0)
    [Paris.planned 1 "nowhere" nan (of_int 0)] = Ok (None, inf).
Proof. vm_compute. reflexivity. Qed.

(** Where the distances are ordinary numbers the scan is the minimum the
    specification describes.  On an empty sequence it returns
    [(None, inf)]; on a non-empty one, all of whose distances are finite
    numbers, it returns a location of the sequence with its distance, no
    location of the sequence is nearer, and every location before it is
    strictly farther: among equals the first wins. *)
Theorem find_nearest_planned_location_spec (M : PyMath) (current_lat current_lon : float)
    (locations : list PlannedLocation) :
  (locations = [] ->
     find_nearest_planned_location M current_lat current_lon locations = Ok (None, inf)) /\
  (locations <> [] -> finite_distances M current_lat current_lon locations ->
     exists w d,
       find_nearest_planned_location M current_lat current_lon locations = Ok (Some w, d) /\
       first_nearest M current_lat current_lon locations w d).
Proof.
  split.
  - intros ->. reflexivity.
  - apply find_nearest_nonempty.
Qed.

(** From the Hotel de Ville the Louvre is nearer than the Eiffel Tower; it is
    listed twice and the first entry is returned. *)
Lemma find_nearest_planned_location_spec_witness :
  let locations := [Paris.eiffel_tower; Paris.louvre; Paris.louvre] in
  exists w d,
    find_nearest_planned_location ref_math (fst Paris.hotel_de_ville)
      (snd Paris.hotel_de_ville) locations = Ok (Some w, d) /\
    first_nearest ref_math (fst Paris.hotel_de_ville) (snd Paris.hotel_de_ville)
      locations w d.
Proof.
  cbv zeta.
  apply (proj2 (find_nearest_planned_location_spec ref_math
                  (fst Paris.hotel_de_ville) (snd Paris.hotel_de_ville)
                  [Paris.eiffel_tower; Paris.louvre; Paris.louvre])).
  - discriminate.
  - repeat constructor; eexists; (split; [vm_compute; reflexivity | reflexivity]).
Defined.

(** The defect of [calculate_distance_km]: for two valid coordinates on
    opposite sides of the globe the value [a] of the formula is rounded
    above [1.0], [1 - a] is negative, and [math.sqrt] raises ValueError, in
    either order of the two points. *)
Lemma distance_raises_between_antipodes :
  let lat1 := fst AntipodeExample.here in
  let lon1 := snd AntipodeExample.here in
  let lat2 := fst AntipodeExample.there in
  let lon2 := snd AntipodeExample.there in
  valid_coordinate lat1 lon1 = true /\ valid_coordinate lat2 lon2 = true /\
  (exists h1 c1 c2 h2,
     haversine ref_math (math_radians (fsub lat2 lat1)) = Ok h1 /\
     math_cos ref_math (math_radians lat1) = Some c1 /\
     math_cos ref_math (math_radians lat2) = Some c2 /\
     haversine ref_math (math_radians (fsub lon2 lon1)) = Ok h2 /\
     fgt (fadd h1 (fmul (fmul c1 c2) h2)) one = true /\
     math_sqrt (fsub one (fadd h1 (fmul (fmul c1 c2) h2))) = Raise ValueError) /\
  calculate_distance_km ref_math lat1 lon1 lat2 lon2 = Raise ValueError /\
  calculate_distance_km ref_math lat2 lon2 lat1 lon1 = Raise ValueError.
Proof.
  cbv zeta. split; [reflexivity|]. split; [reflexivity|]. split.
  - eexists _, _, _, _.
    split; [vm_compute; reflexivity|]. split; [vm_compute; reflexivity|].
    split; [vm_compute; reflexivity|]. split; [vm_compute; reflexivity|].
    split; vm_compute; reflexivity.
  - split; vm_compute; reflexivity.
Qed.

(** C8 fails on the code: from a valid point, with the Eiffel Tower and
    the point's antipode as planned locations, both valid, the scan
    returns no location at all.  The distance to the Eiffel Tower is
    computed, the distance to the antipode raises ValueError, and the
    exception leaves the loop. *)
Theorem nearest_raises_between_antipodes :
  let lat := fst AntipodeExample.here in
  let lon := snd AntipodeExample.here in
  let locations := [Paris.eiffel_tower; AntipodeExample.antipode] in
  valid_coordinate lat lon = true /\
  Forall (fun p => valid_coordinate (pl_latitude p) (pl_longitude p) = true) locations /\
  (exists d, distance_to ref_math lat lon Paris.eiffel_tower = Ok d /\ is_finite d = true) /\
  distance_to ref_math lat lon AntipodeExample.antipode = Raise ValueError /\
  find_nearest_planned_location ref_math lat lon locations = Raise ValueError.
Proof.
  cbv zeta. split; [reflexivity|]. split; [repeat constructor|].
  split; [eexists; split; [vm_compute; reflexivity | reflexivity]|].
  split; vm_compute; reflexivity.
Qed.

(** ** DeviationDetector *)

(** C7: with no planned location for the trip, no deviation alert: the
    detector returns [None] and the world is as it was, wherever the sample
    lies. *)
Theorem check_deviation_alert_no_waypoints (M : PyMath) (w : World)
    (location_update : LocationUpdate) (trip : Trip) :
  query_planned_locations w trip = [] ->
  check_deviation_alert M w location_update trip = Ok (None, w).
Proof. intros H. unfold check_deviation_alert. now rewrite H. Qed.

(** A sample near the pole, a trip without planned locations. *)
Lemma check_deviation_alert_no_waypoints_witness :
  check_deviation_alert ref_math (Paris.world [] [] [])
    (Paris.sample 1 (of_int 89) (of_int 179) 0) Paris.trip
  = Ok (None, Paris.world [] [] []).
Proof.
  apply check_deviation_alert_no_waypoints. reflexivity.
Defined.

(** The threshold rule, where the distances are ordinary numbers.  With
    at least one planned location, all at a finite distance, the detector
    opens an alert exactly when the distance [d] to the nearest one is
    strictly greater than the trip's threshold: at [d == threshold] there is
    none.  The alert is of type deviation, active, carries [d] and the
    sample's position. *)
Theorem check_deviation_alert_threshold (M : PyMath) (w : World)
    (location_update : LocationUpdate) (trip : Trip) :
  query_planned_locations w trip <> [] ->
  finite_distances M (lu_latitude location_update) (lu_longitude location_update)
    (query_planned_locations w trip) ->
  exists nearest d,
    first_nearest M (lu_latitude location_update) (lu_longitude location_update)
      (query_planned_locations w trip) nearest d /\
    (fgt d (t_deviation_threshold_km trip) = true ->
       exists alert w',
         check_deviation_alert M w location_update trip = Ok (Some alert, w') /\
         sa_alert_type alert = "deviation"%string /\
         sa_status alert = "active"%string /\
         sa_distance_from_planned_km alert = Some d /\
         sa_latitude alert = lu_latitude location_update /\
         sa_longitude alert = lu_longitude location_update) /\
    (fgt d (t_deviation_threshold_km trip) = false ->
       check_deviation_alert M w location_update trip = Ok (None, w)) /\
    (feq d (t_deviation_threshold_km trip) = true ->
       check_deviation_alert M w location_update trip = Ok (None, w)).
Proof.
  intros Hne Hfin.
  destruct (find_nearest_nonempty M _ _ _ Hne Hfin) as (nearest & d & Heq & Hfirst).
  exists nearest, d. split; [assumption|].
  assert (Hcheck : check_deviation_alert M w location_update trip =
    if fgt d (t_deviation_threshold_km trip) then
      let (t1, w1) := utcnow w in
      let (t2, w2) := utcnow w1 in
      let (alert', w3) := add_alert
        {| sa_id := 0;
           sa_alert_type := "deviation";
           sa_status := "active";
           sa_title := "Location Deviation Detected";
           sa_message := "You are " ++ format_1f d
                         ++ "km away from your planned route. Are you safe?";
           sa_latitude := lu_latitude location_update;
           sa_longitude := lu_longitude location_update;
           sa_distance_from_planned_km := Some d;
           sa_triggered_at := t1;
           sa_response_deadline := t2 + timedelta_minutes 15;
           sa_responded_at := None;
           sa_response_message := None;
           sa_user_id := lu_user_id location_update;
           sa_trip_id := t_id trip |} w2 in
      Ok (Some alert', w3)
    else Ok (None, w)).
  { unfold check_deviation_alert.
    destruct (query_planned_locations w trip) as [|p rest]; [contradiction|].
    rewrite Heq. reflexivity. }
  rewrite Hcheck. split; [|split].
  - intros ->. cbn [utcnow add_alert]. eexists _, _. split; [reflexivity|].
    repeat split.
  - intros ->. reflexivity.
  - intros Heqb. apply feq_not_flt in Heqb. unfold fgt. unfold flt in Heqb.
    now rewrite Heqb.
Qed.

(** The sample of [DeviationExample], 4.2 km from the Eiffel Tower, with the
    threshold of 2 km. *)
Lemma check_deviation_alert_threshold_witness :
  exists nearest d,
    first_nearest ref_math (lu_latitude DeviationExample.far_sample)
      (lu_longitude DeviationExample.far_sample)
      (query_planned_locations DeviationExample.w Paris.trip) nearest d /\
    (fgt d (t_deviation_threshold_km Paris.trip) = true ->
       exists alert w',
         check_deviation_alert ref_math DeviationExample.w DeviationExample.far_sample
           Paris.trip = Ok (Some alert, w') /\
         sa_alert_type alert = "deviation"%string /\
         sa_status alert = "active"%string /\
         sa_distance_from_planned_km alert = Some d /\
         sa_latitude alert = lu_latitude DeviationExample.far_sample /\
         sa_longitude alert = lu_longitude DeviationExample.far_sample) /\
    (fgt d (t_deviation_threshold_km Paris.trip) = false ->
       check_deviation_alert ref_math DeviationExample.w DeviationExample.far_sample
         Paris.trip = Ok (None, DeviationExample.w)) /\
    (feq d (t_deviation_threshold_km Paris.trip) = true ->
       check_deviation_alert ref_math DeviationExample.w DeviationExample.far_sample
         Paris.trip = Ok (None, DeviationExample.w)).
Proof.
  apply (check_deviation_alert_threshold ref_math DeviationExample.w
           DeviationExample.far_sample Paris.trip).
  - discriminate.
  - change (query_planned_locations DeviationExample.w Paris.trip)
      with [Paris.eiffel_tower].
    constructor; [|constructor].
    eexists; split; [vm_compute; reflexivity | reflexivity].
Defined.

(** C5 fails on the code: a valid sample, a trip whose one planned
    location is the valid antipode of the sample.  The detector neither
    opens an alert nor returns none: the distance raises ValueError and
    the exception leaves [check_deviation_alert]. *)
Theorem deviation_check_raises_between_antipodes :
  let sample := AntipodeExample.sample_here in
  valid_coordinate (lu_latitude sample) (lu_longitude sample) = true /\
  query_planned_locations AntipodeExample.w Paris.trip = [AntipodeExample.antipode] /\
  valid_coordinate (pl_latitude AntipodeExample.antipode)
                   (pl_longitude AntipodeExample.antipode) = true /\
  check_deviation_alert ref_math AntipodeExample.w sample Paris.trip = Raise ValueError.
Proof.
  cbv zeta. split; [reflexivity|]. split; [reflexivity|]. split; [reflexivity|].
  vm_compute. reflexivity.
Qed.

(** ** StationarityDetector *)

Section Stationarity.

Variable M : PyMath.

Lemma stationary_loop_same_place (latest : LocationUpdate) (others : list LocationUpdate) :
  valid_coordinate (lu_latitude latest) (lu_longitude latest) = true ->
  Forall (fun s => lu_latitude s = lu_latitude latest
                   /\ lu_longitude s = lu_longitude latest) others ->
  stationary_loop M latest others = Ok true.
Proof.
  intros Hvalid. induction 1 as [|s rest [Hlat Hlon] _ IH]; [reflexivity|].
  cbn [stationary_loop]. rewrite Hlat, Hlon, distance_self by assumption.
  exact IH.
Qed.

(** Without a planned location the nearest distance is [inf], which passes
    the test [distance_km > 1.0]: the stationary traveller gets an alert "inf
    km from planned locations". *)
Lemma check_stationary_alert_no_waypoints (w : World) (user_id : Z) (trip : Trip)
    (latest s : LocationUpdate) (others : list LocationUpdate) :
  query_recent_locations w user_id trip (readings w (ticks w) - timedelta_hours 4)
    = latest :: s :: others ->
  valid_coordinate (lu_latitude latest) (lu_longitude latest) = true ->
  Forall (fun s => lu_latitude s = lu_latitude latest
                   /\ lu_longitude s = lu_longitude latest) (s :: others) ->
  query_planned_locations w trip = [] ->
  exists alert w',
    check_stationary_alert M w user_id trip = Ok (Some alert, w') /\
    sa_alert_type alert = "stationary"%string /\
    sa_status alert = "active"%string /\
    sa_distance_from_planned_km alert = Some inf /\
    In alert (safety_alerts (db w')).
Proof.
  intros Hrecent Hvalid Hsame Hplanned.
  unfold check_stationary_alert. cbn [utcnow].
  change (query_recent_locations _ user_id trip ?t)
    with (query_recent_locations w user_id trip t).
  rewrite Hrecent, (stationary_loop_same_place latest (s :: others) Hvalid Hsame).
  cbn [bind].
  change (query_planned_locations _ trip) with (query_planned_locations w trip).
  rewrite Hplanned. cbn [find_nearest_planned_location bind snd].
  change (fgt inf one) with true. cbv iota. cbn [add_alert].
  eexists _, _. split; [reflexivity|]. repeat split.
  cbn [db safety_alerts]. apply in_or_app. right. now left.
Qed.

End Stationarity.

(** C3 fails on the code: two samples at the same place within the window
    and no planned location for the trip.  The deviation check has the guard
    ([None] on an empty list), the stationary check has not: it opens an
    alert whose distance is [inf]. *)
Lemma stationary_alert_without_planned_locations :
  let s1 := Paris.sample 1 (fst Paris.hotel_de_ville) (snd Paris.hotel_de_ville) 30 in
  let s2 := Paris.sample 2 (fst Paris.hotel_de_ville) (snd Paris.hotel_de_ville) 0 in
  let w := Paris.world [] [s1; s2] [] in
  query_planned_locations w Paris.trip = [] /\
  check_deviation_alert ref_math w s2 Paris.trip = Ok (None, w) /\
  exists alert w',
    check_stationary_alert ref_math w 7 Paris.trip = Ok (Some alert, w') /\
    sa_alert_type alert = "stationary"%string /\
    sa_status alert = "active"%string /\
    sa_distance_from_planned_km alert = Some inf /\
    sa_message alert = "You've been in the same location for 4+ hours, infkm from planned locations. Are you safe?"%string.
Proof.
  cbv zeta. split; [reflexivity|]. split; [reflexivity|].
  eexists _, _. split; [vm_compute; reflexivity|]. repeat split.
Qed.

(** The loop stops at the first sample that is too far: the samples after
    it are not looked at. *)
Lemma stationary_loop_first_moved (M : PyMath) (latest : LocationUpdate)
    (between : list LocationUpdate) (moved : LocationUpdate)
    (older : list LocationUpdate) :
  Forall (fun s => returns (distance_between M latest s)) between ->
  (exists d, distance_between M latest moved = Ok d /\ fgt d half = true) ->
  stationary_loop M latest (between ++ moved :: older) = Ok false.
Proof.
  intros Hret (d & Hd & Hfar).
  induction Hret as [|s rest [ds Hs] _ IH]; cbn [app stationary_loop].
  - fold (distance_between M latest moved). rewrite Hd. cbn [bind]. now rewrite Hfar.
  - fold (distance_between M latest s). rewrite Hs. cbn [bind].
    destruct (fgt ds half); [reflexivity | exact IH].
Qed.

(** C4 (as the code has it): when some sample of the window is more than
    0.5 km from the most recent one, and the distance from the most recent
    sample to each sample newer than that one is computed without an
    exception, no stationary alert is opened, however far the planned
    locations are and whatever the samples older than that one are. *)
Theorem check_stationary_alert_moved (M : PyMath) (w : World) (user_id : Z) (trip : Trip)
    (latest : LocationUpdate) (between : list LocationUpdate) (moved : LocationUpdate)
    (older : list LocationUpdate) :
  query_recent_locations w user_id trip (readings w (ticks w) - timedelta_hours 4)
    = latest :: between ++ moved :: older ->
  Forall (fun s => returns (distance_between M latest s)) between ->
  (exists d, distance_between M latest moved = Ok d /\ fgt d half = true) ->
  check_stationary_alert M w user_id trip = Ok (None, snd (utcnow w)).
Proof.
  intros Hrecent Hret Hmoved.
  unfold check_stationary_alert. cbn [utcnow snd].
  change (query_recent_locations _ user_id trip ?t)
    with (query_recent_locations w user_id trip t).
  rewrite Hrecent.
  pose proof (stationary_loop_first_moved M latest between moved older Hret Hmoved) as Hloop.
  destruct (between ++ moved :: older) as [|s rest] eqn:E.
  - destruct between; discriminate.
  - now rewrite Hloop.
Qed.

(** The traveller was 1.1 km north of the latest position an hour and a
    half ago, and 0.4 km south of it an hour ago. *)
Lemma check_stationary_alert_moved_witness :
  let w := Paris.world [Paris.eiffel_tower]
             [MovedExample.north; MovedExample.far_earlier; MovedExample.south;
              MovedExample.middle] [] in
  check_stationary_alert ref_math w 7 Paris.trip = Ok (None, snd (utcnow w)).
Proof.
  cbv zeta.
  apply (check_stationary_alert_moved ref_math _ 7 Paris.trip MovedExample.middle
           [MovedExample.south] MovedExample.far_earlier [MovedExample.north]).
  - reflexivity.
  - constructor; [eexists; vm_compute; reflexivity | constructor].
  - eexists. split; [vm_compute; reflexivity | reflexivity].
Defined.

(** What the statement above leaves out: when the distance to a sample of
    the window cannot be computed before a sample that is too far is met,
    here a valid sample at the antipode of the latest one, the check
    raises ValueError instead of returning. *)
Lemma stationary_check_raises_between_antipodes :
  query_recent_locations AntipodeExample.moved 7 Paris.trip
    (readings AntipodeExample.moved 0 - timedelta_hours 4)
    = [AntipodeExample.sample_here; AntipodeExample.sample_there] /\
  check_stationary_alert ref_math AntipodeExample.moved 7 Paris.trip = Raise ValueError.
Proof. split; vm_compute; reflexivity. Qed.

(** C4 fails on the code: the traveller went from 0.4 km north of a point
    to 0.4 km south of it and back to the point.  The first two samples are
    0.8 km apart, yet each is within 0.5 km of the latest one, and the alert
    is opened. *)
Lemma stationary_alert_despite_distant_pair :
  let w := Paris.world [Paris.eiffel_tower]
             [MovedExample.north; MovedExample.south; MovedExample.middle] [] in
  (exists d, distance_between ref_math MovedExample.north MovedExample.south = Ok d
             /\ fgt d half = true /\ fgt d (of_decimal 8 1) = true) /\
  (exists d, distance_between ref_math MovedExample.middle MovedExample.north = Ok d
             /\ fgt d half = false /\ flt d (of_decimal 41 2) = true) /\
  (exists d, distance_between ref_math MovedExample.middle MovedExample.south = Ok d
             /\ fgt d half = false /\ flt d (of_decimal 41 2) = true) /\
  exists alert w',
    check_stationary_alert ref_math w 7 Paris.trip = Ok (Some alert, w') /\
    sa_alert_type alert = "stationary"%string /\
    sa_latitude alert = of_int 0 /\ sa_longitude alert = of_int 0.
Proof.
  cbv zeta. split; [|split; [|split]].
  - eexists. split; [vm_compute; reflexivity | split; reflexivity].
  - eexists. split; [vm_compute; reflexivity | split; reflexivity].
  - eexists. split; [vm_compute; reflexivity | split; reflexivity].
  - eexists _, _. split; [vm_compute; reflexivity|]. repeat split.
Qed.


(** ** Alert routes *)

Lemma find_update_first (p : SafetyAlert -> bool) (a' : SafetyAlert)
    (rows : list SafetyAlert) (a : SafetyAlert) :
  find p rows = Some a -> p a' = true -> find p (update_first p a' rows) = Some a'.
Proof.
  intros Hfind Hp. induction rows as [|x rest IH]; [discriminate|].
  cbn [find update_first] in *. destruct (p x) eqn:E.
  - cbn [find]. now rewrite Hp.
  - cbn [find]. rewrite E. now apply IH.
Qed.

Lemma find_some_holds (p : SafetyAlert -> bool) (rows : list SafetyAlert) (a : SafetyAlert) :
  find p rows = Some a -> p a = true.
Proof. intros H. now apply find_some in H. Qed.

(** The rows the filter does not select, and the creation stamps of all
    rows, survive the commit. *)
Lemma update_first_map {B : Type} (f : SafetyAlert -> B) (p : SafetyAlert -> bool)
    (a' : SafetyAlert) (rows : list SafetyAlert) (a : SafetyAlert) :
  find p rows = Some a -> f a' = f a ->
  map f (update_first p a' rows) = map f rows.
Proof.
  intros Hfind Hf. induction rows as [|x rest IH]; [reflexivity|].
  cbn [find update_first] in *. destruct (p x) eqn:E.
  - injection Hfind as ->. cbn [map]. now rewrite Hf.
  - cbn [map]. now rewrite IH.
Qed.

Lemma owned_alert_responded (i u : Z) (r : AlertResponse) (now : datetime) (a : SafetyAlert) :
  owned_alert i u (responded r now a) = owned_alert i u a.
Proof.
  unfold responded, owned_alert.
  destruct (response r =? "safe")%string; [reflexivity|].
  destruct (response r =? "help")%string; reflexivity.
Qed.

Lemma respond_to_alert_found (w : World) (alert_id : Z) (r : AlertResponse)
    (current_user_id : Z) (alert : SafetyAlert) :
  query_alert w alert_id current_user_id = Some alert ->
  let now := readings w (ticks w) in
  let w' := commit_alert (snd (utcnow w)) (owned_alert alert_id current_user_id)
                         (responded r now alert) in
  respond_to_alert w alert_id r current_user_id =
    Ok ({| reply_message := "Alert response recorded: " ++ response r;
           reply_alert_id := alert_id |}, w')
  /\ query_alert w' alert_id current_user_id = Some (responded r now alert).
Proof.
  intros Hq. cbv zeta. split.
  - unfold respond_to_alert. rewrite Hq. reflexivity.
  - unfold query_alert in *. cbn [commit_alert utcnow snd db safety_alerts].
    eapply find_update_first; [eassumption|].
    rewrite owned_alert_responded. eapply find_some_holds; eassumption.
Qed.

Lemma respond_to_alert_missing (w : World) (alert_id : Z) (r : AlertResponse)
    (current_user_id : Z) :
  query_alert w alert_id current_user_id = None ->
  respond_to_alert w alert_id r current_user_id
    = Raise (HTTPException 404 "Alert not found").
Proof. intros Hq. unfold respond_to_alert. now rewrite Hq. Qed.

(** ** The response deadline *)

Lemma stamps_responded (r : AlertResponse) (now : datetime) (a : SafetyAlert) :
  stamps (responded r now a) = stamps a.
Proof.
  unfold responded.
  destruct (response r =? "safe")%string; [reflexivity|].
  destruct (response r =? "help")%string; reflexivity.
Qed.

Lemma check_deviation_alert_writes (M : PyMath) (w : World) (lu : LocationUpdate)
    (trip : Trip) (created : option SafetyAlert) (w' : World) :
  check_deviation_alert M w lu trip = Ok (created, w') ->
  match created with
  | None => safety_alerts (db w') = safety_alerts (db w)
  | Some a => opened w (ticks w) a w'
  end.
Proof.
  unfold check_deviation_alert.
  destruct (query_planned_locations w trip) as [|p rest].
  - intros [= <- <-]. reflexivity.
  - destruct (find_nearest_planned_location M _ _ (p :: rest)) as [[n d]|e];
      cbn [bind snd]; [|discriminate].
    destruct (fgt d (t_deviation_threshold_km trip)).
    + cbn [utcnow add_alert]. intros [= <- <-]. repeat split.
    + intros [= <- <-]. reflexivity.
Qed.

Lemma check_stationary_alert_writes (M : PyMath) (w : World) (user_id : Z)
    (trip : Trip) (created : option SafetyAlert) (w' : World) :
  check_stationary_alert M w user_id trip = Ok (created, w') ->
  match created with
  | None => safety_alerts (db w') = safety_alerts (db w)
  | Some a => opened w (S (ticks w)) a w'
  end.
Proof.
  unfold check_stationary_alert. cbn [utcnow].
  destruct (query_recent_locations _ user_id trip _) as [|latest [|s others]];
    try (intros [= <- <-]; reflexivity).
  destruct (stationary_loop M latest (s :: others)) as [[]|e]; cbn [bind];
    try discriminate; try (intros [= <- <-]; reflexivity).
  destruct (find_nearest_planned_location M _ _ _) as [[n d]|e];
    cbn [bind snd]; [|discriminate].
  destruct (fgt d one).
  - cbn [add_alert]. intros [= <- <-]. repeat split.
  - intros [= <- <-]. reflexivity.
Qed.

Lemma respond_to_alert_writes (w : World) (alert_id : Z) (r : AlertResponse)
    (current_user_id : Z) (reply : RespondReply) (w' : World) :
  respond_to_alert w alert_id r current_user_id = Ok (reply, w') ->
  map stamps (safety_alerts (db w')) = map stamps (safety_alerts (db w)).
Proof.
  destruct (query_alert w alert_id current_user_id) as [alert|] eqn:Hq.
  - destruct (respond_to_alert_found w alert_id r current_user_id alert Hq) as [-> _].
    intros [= _ <-]. cbn [commit_alert utcnow snd db safety_alerts].
    eapply update_first_map; [exact Hq | apply stamps_responded].
  - rewrite respond_to_alert_missing by assumption. discriminate.
Qed.

Lemma create_manual_alert_writes (w : World) (trip_id : Z) (msg : string)
    (current_user_id : Z) (reply : RespondReply) (w' : World) :
  create_manual_alert w trip_id msg current_user_id = Ok (reply, w') ->
  exists a, opened w (ticks w) a w'.
Proof.
  unfold create_manual_alert.
  destruct (find _ (trips (db w))) as [trip|]; [|discriminate].
  destruct (order_by_timestamp_desc _) as [|latest rest]; [discriminate|].
  cbn [utcnow add_alert]. intros [= _ <-]. eexists. unfold opened.
  cbn [db safety_alerts]. refine (conj _ (conj _ eq_refl)); reflexivity.
Qed.

(** C6 (as the code has it): an alert a detector opens is stamped with two
    successive readings of the clock: [triggered_at] is the first,
    [response_deadline] is the second plus 15 minutes, so the deadline is
    the trigger time plus 15 minutes exactly when the two readings agree.
    Both are fixed from then on: no operation changes the id, trigger time
    or deadline of a stored alert; operations only append alerts. *)
Theorem response_deadline_policy (M : PyMath) (op : Operation) (w : World)
    (created : option SafetyAlert) (w' : World) :
  run M op w = Ok (created, w') ->
  (exists new,
     map stamps (safety_alerts (db w'))
       = (map stamps (safety_alerts (db w)) ++ map stamps new)%list) /\
  (forall a, created = Some a ->
     exists k,
       sa_triggered_at a = readings w k /\
       sa_response_deadline a = readings w (S k) + timedelta_minutes 15 /\
       (sa_response_deadline a = sa_triggered_at a + timedelta_minutes 15
          <-> readings w (S k) = readings w k) /\
       In a (safety_alerts (db w'))).
Proof.
  assert (Hopened : forall k a, opened w k a w' ->
            (exists new, map stamps (safety_alerts (db w'))
               = (map stamps (safety_alerts (db w)) ++ map stamps new)%list) /\
            exists k,
              sa_triggered_at a = readings w k /\
              sa_response_deadline a = readings w (S k) + timedelta_minutes 15 /\
              (sa_response_deadline a = sa_triggered_at a + timedelta_minutes 15
                 <-> readings w (S k) = readings w k) /\
              In a (safety_alerts (db w'))).
  { intros k a (Ht & Hd & Hrows). split.
    - exists [a]. now rewrite Hrows, map_app.
    - exists k. repeat split; try assumption; try lia.
      rewrite Hrows. apply in_or_app. right. now left. }
  assert (Hsame : safety_alerts (db w') = safety_alerts (db w) ->
            exists new, map stamps (safety_alerts (db w'))
              = (map stamps (safety_alerts (db w)) ++ map stamps new)%list).
  { intros ->. exists []. now rewrite app_nil_r. }
  destruct op as [lu trip|user_id trip|alert_id r u|trip_id msg u]; cbn [run]; intros Hrun.
  - apply check_deviation_alert_writes in Hrun. destruct created as [a|].
    + destruct (Hopened _ _ Hrun) as [H1 H2]. split; [exact H1|].
      now intros ? [= <-].
    + split; [now apply Hsame | discriminate].
  - apply check_stationary_alert_writes in Hrun. destruct created as [a|].
    + destruct (Hopened _ _ Hrun) as [H1 H2]. split; [exact H1|].
      now intros ? [= <-].
    + split; [now apply Hsame | discriminate].
  - destruct (respond_to_alert w alert_id r u) as [[reply w1]|e] eqn:E; [|discriminate].
    cbn [bind snd] in Hrun. injection Hrun as <- <-.
    apply respond_to_alert_writes in E. split; [|discriminate].
    exists []. now rewrite E, app_nil_r.
  - destruct (create_manual_alert w trip_id msg u) as [[reply w1]|e] eqn:E; [|discriminate].
    cbn [bind snd] in Hrun. injection Hrun as <- <-.
    apply create_manual_alert_writes in E as [a Ha].
    split; [apply (Hopened _ _ Ha) | discriminate].
Qed.

(** C6 fails on the code: the clock is read twice, a microsecond apart, and
    the deadline is 15 minutes and one microsecond after the trigger time. *)
Lemma deadline_from_second_clock_reading :
  exists alert w',
    check_deviation_alert ref_math DeviationExample.w DeviationExample.far_sample
      Paris.trip = Ok (Some alert, w') /\
    sa_triggered_at alert = 1700000000000000 /\
    sa_response_deadline alert = 1700000900000001 /\
    sa_response_deadline alert <> sa_triggered_at alert + timedelta_minutes 15.
Proof.
  eexists _, _. split; [vm_compute; reflexivity|].
  repeat split. discriminate.
Qed.

(** The deviation check on the sample of [DeviationExample]. *)
Lemma response_deadline_policy_witness :
  exists created w',
    run ref_math (CheckDeviation DeviationExample.far_sample Paris.trip)
        DeviationExample.w = Ok (created, w') /\
    (exists new,
       map stamps (safety_alerts (db w'))
         = (map stamps (safety_alerts (db DeviationExample.w)) ++ map stamps new)%list) /\
    (forall a, created = Some a ->
       exists k,
         sa_triggered_at a = readings DeviationExample.w k /\
         sa_response_deadline a
           = readings DeviationExample.w (S k) + timedelta_minutes 15 /\
         (sa_response_deadline a = sa_triggered_at a + timedelta_minutes 15
            <-> readings DeviationExample.w (S k) = readings DeviationExample.w k) /\
         In a (safety_alerts (db w'))).
Proof.
  eexists _, _. split; [vm_compute; reflexivity|].
  apply (response_deadline_policy ref_math
           (CheckDeviation DeviationExample.far_sample Paris.trip) DeviationExample.w).
  vm_compute; reflexivity.
Defined.


(** ** Alert lifecycle: responding *)

(** C1 (as the code has it): [respond_to_alert] never looks at the status of
    the alert.  For an alert the caller owns, in any status, the response
    safe or help succeeds, sets the status to responded_safe or
    responded_help, stores the supplied message or the canned one and sets
    responded_at to the reading of the clock; the call fails only with
    HTTP 404, when the caller owns no alert with that id. *)
Theorem respond_to_alert_any_status (w : World) (alert_id : Z) (r : AlertResponse)
    (current_user_id : Z) :
  match query_alert w alert_id current_user_id with
  | None =>
      respond_to_alert w alert_id r current_user_id
        = Raise (HTTPException 404 "Alert not found")
  | Some alert =>
      forall (kind_status canned : string),
      (response r = "safe"%string /\ kind_status = "responded_safe"%string
         /\ canned = "User confirmed they are safe"%string) \/
      (response r = "help"%string /\ kind_status = "responded_help"%string
         /\ canned = "User requested help"%string) ->
      exists reply w' alert',
        respond_to_alert w alert_id r current_user_id = Ok (reply, w') /\
        query_alert w' alert_id current_user_id = Some alert' /\
        sa_status alert' = kind_status /\
        sa_response_message alert' = Some (or_default (message r) canned) /\
        sa_responded_at alert' = Some (readings w (ticks w))
  end.
Proof.
  destruct (query_alert w alert_id current_user_id) as [alert|] eqn:Hq.
  - intros kind_status canned Hkind.
    destruct (respond_to_alert_found w alert_id r current_user_id alert Hq) as [Hr Hq'].
    eexists _, _, _. split; [exact Hr|]. split; [exact Hq'|].
    unfold responded.
    destruct Hkind as [(-> & -> & ->)|(-> & -> & ->)]; repeat split.
  - now apply respond_to_alert_missing.
Qed.

(** An alert already answered with help is answered again, with safe. *)
Lemma respond_to_alert_any_status_witness :
  exists reply w' alert',
    respond_to_alert (Paris.world [] [] [Paris.alert_in "responded_help"]) 1
      {| response := "safe"%string; message := Some "all good"%string |} 7 = Ok (reply, w') /\
    query_alert w' 1 7 = Some alert' /\
    sa_status alert' = "responded_safe"%string /\
    sa_response_message alert' = Some "all good"%string /\
    sa_responded_at alert' = Some 1700000000000000.
Proof.
  exact (respond_to_alert_any_status
           (Paris.world [] [] [Paris.alert_in "responded_help"]) 1
           {| response := "safe"%string; message := Some "all good"%string |} 7
           "responded_safe"%string "User confirmed they are safe"%string
           (or_introl (conj eq_refl (conj eq_refl eq_refl)))).
Defined.

(** C1 fails on the code: an escalated alert is answered with safe; the
    call succeeds and the stored status, message and time all change. *)
Lemma respond_on_escalated_alert_succeeds :
  let w := Paris.world [] [] [Paris.alert_in "escalated"] in
  query_alert w 1 7 = Some (Paris.alert_in "escalated") /\
  exists reply w' alert',
    respond_to_alert w 1 {| response := "safe"%string; message := None |} 7 = Ok (reply, w') /\
    query_alert w' 1 7 = Some alert' /\
    sa_status alert' = "responded_safe"%string /\
    sa_response_message alert' = Some "User confirmed they are safe"%string /\
    sa_responded_at alert' = Some 1700000000000000.
Proof.
  cbv zeta. split; [reflexivity|].
  eexists _, _, _. split; [reflexivity|]. repeat split.
Qed.

(** C10: a response whose kind is neither safe nor help leaves the status
    and the response message of the alert as they were, yet responded_at is
    overwritten with the current time and the caller is told the response
    was recorded. *)
Theorem respond_to_alert_unknown_kind (w : World) (alert_id : Z) (r : AlertResponse)
    (current_user_id : Z) (alert : SafetyAlert) :
  query_alert w alert_id current_user_id = Some alert ->
  response r <> "safe"%string -> response r <> "help"%string ->
  exists w' alert',
    respond_to_alert w alert_id r current_user_id
      = Ok ({| reply_message := "Alert response recorded: "%string ++ response r;
               reply_alert_id := alert_id |}, w') /\
    query_alert w' alert_id current_user_id = Some alert' /\
    sa_status alert' = sa_status alert /\
    sa_response_message alert' = sa_response_message alert /\
    sa_responded_at alert' = Some (readings w (ticks w)).
Proof.
  intros Hq Hsafe Hhelp.
  destruct (respond_to_alert_found w alert_id r current_user_id alert Hq) as [Hr Hq'].
  eexists _, _. split; [exact Hr|]. split; [exact Hq'|].
  unfold responded.
  apply String.eqb_neq in Hsafe, Hhelp. rewrite Hsafe, Hhelp.
  repeat split.
Qed.

(** The kind maybe on an alert already answered with safe. *)
Lemma respond_to_alert_unknown_kind_witness :
  exists w' alert',
    respond_to_alert (Paris.world [] [] [Paris.alert_in "responded_safe"]) 1
      {| response := "maybe"%string; message := Some "hm"%string |} 7
      = Ok ({| reply_message := "Alert response recorded: maybe"%string;
               reply_alert_id := 1 |}, w') /\
    query_alert w' 1 7 = Some alert' /\
    sa_status alert' = "responded_safe"%string /\
    sa_response_message alert' = None /\
    sa_responded_at alert' = Some 1700000000000000.
Proof.
  apply (respond_to_alert_unknown_kind
           (Paris.world [] [] [Paris.alert_in "responded_safe"]) 1
           {| response := "maybe"%string; message := Some "hm"%string |} 7
           (Paris.alert_in "responded_safe")).
  - reflexivity.
  - discriminate.
  - discriminate.
Defined.

(** ** Alert lifecycle: the deadline *)

Lemma in_update_first (p : SafetyAlert -> bool) (a' : SafetyAlert)
    (rows : list SafetyAlert) (x : SafetyAlert) :
  In x (update_first p a' rows) -> In x rows \/ x = a'.
Proof.
  induction rows as [|y rest IH]; cbn [update_first]; [intros []|].
  destruct (p y); cbn [In]; intros [<-|H]; auto.
  destruct (IH H); auto.
Qed.

(** No operation of the source sets the status escalated: an escalated
    alert after an operation was one, under the same id, before it. *)
Lemma escalated_only_inherited (M : PyMath) (op : Operation) (w : World)
    (created : option SafetyAlert) (w' : World) :
  run M op w = Ok (created, w') ->
  forall a', In a' (safety_alerts (db w')) -> escalated a' ->
  exists a, In a (safety_alerts (db w)) /\ escalated a /\ sa_id a = sa_id a'.
Proof.
  assert (Hsame : safety_alerts (db w') = safety_alerts (db w) ->
            forall a', In a' (safety_alerts (db w')) -> escalated a' ->
            exists a, In a (safety_alerts (db w)) /\ escalated a /\ sa_id a = sa_id a').
  { intros -> a' Hin Hesc. exists a'. auto. }
  assert (Hopened : forall k a, opened w k a w' -> sa_status a = "active"%string ->
            forall a', In a' (safety_alerts (db w')) -> escalated a' ->
            exists a, In a (safety_alerts (db w)) /\ escalated a /\ sa_id a = sa_id a').
  { intros k a (_ & _ & Hrows) Hactive a' Hin Hesc. rewrite Hrows in Hin.
    apply in_app_or in Hin as [Hin|[<-|[]]].
    - exists a'. auto.
    - unfold escalated in Hesc. rewrite Hactive in Hesc. discriminate. }
  destruct op as [lu trip|user_id trip|alert_id r u|trip_id msg u]; cbn [run]; intros Hrun.
  - pose proof (check_deviation_alert_writes _ _ _ _ _ _ Hrun) as Hw.
    destruct created as [a|]; [|now apply Hsame].
    apply (Hopened _ _ Hw).
    revert Hrun. unfold check_deviation_alert.
    destruct (query_planned_locations w trip); [discriminate|].
    destruct (find_nearest_planned_location M _ _ _) as [[n d]|e]; cbn [bind snd]; [|discriminate].
    destruct (fgt d _); [|discriminate].
    cbn [utcnow add_alert]. now intros [= <- _].
  - pose proof (check_stationary_alert_writes _ _ _ _ _ _ Hrun) as Hw.
    destruct created as [a|]; [|now apply Hsame].
    apply (Hopened _ _ Hw).
    revert Hrun. unfold check_stationary_alert. cbn [utcnow].
    destruct (query_recent_locations _ user_id trip _) as [|latest [|s others]];
      try discriminate.
    destruct (stationary_loop M latest (s :: others)) as [[]|e]; cbn [bind];
      try discriminate.
    destruct (find_nearest_planned_location M _ _ _) as [[n d]|e]; cbn [bind snd]; [|discriminate].
    destruct (fgt d one); [|discriminate].
    cbn [add_alert]. now intros [= <- _].
  - destruct (query_alert w alert_id u) as [alert|] eqn:Hq.
    + destruct (respond_to_alert_found w alert_id r u alert Hq) as [Hr _].
      rewrite Hr in Hrun. cbn [bind snd] in Hrun. injection Hrun as _ <-.
      cbn [commit_alert utcnow snd db safety_alerts].
      intros a' Hin Hesc. apply in_update_first in Hin as [Hin| ->].
      * exists a'. auto.
      * exists alert. split; [now apply (find_some _ _ Hq)|].
        revert Hesc. unfold escalated, responded.
        destruct (response r =? "safe")%string; [discriminate|].
        destruct (response r =? "help")%string; [discriminate|]. auto.
    + rewrite respond_to_alert_missing in Hrun by assumption. discriminate.
  - destruct (create_manual_alert w trip_id msg u) as [[reply w1]|e] eqn:E; [|discriminate].
    cbn [bind snd] in Hrun. injection Hrun as _ <-.
    pose proof (create_manual_alert_writes _ _ _ _ _ _ E) as [a Ha].
    apply (Hopened _ _ Ha).
    revert E. unfold create_manual_alert.
    destruct (find _ (trips (db w))); [|discriminate].
    destruct (order_by_timestamp_desc _); [discriminate|].
    cbn [utcnow add_alert]. intros [= _ Hw1].
    destruct Ha as (_ & _ & Hrows). rewrite <- Hw1 in Hrows.
    cbn [db safety_alerts] in Hrows. apply app_inv_head in Hrows.
    injection Hrows as <-. reflexivity.
Qed.

(** C2: on an active alert [checkDeadline] succeeds; the alert becomes
    escalated exactly when [now] is after the response deadline and is left
    as it is, active, otherwise: one microsecond before the deadline it stays
    active, one microsecond after it is escalated. *)
Theorem checkDeadline_active (alert : SafetyAlert) (now : datetime) :
  sa_status alert = "active"%string ->
  exists alert',
    checkDeadline alert now = inl alert' /\
    (sa_status alert' = "escalated"%string <-> sa_response_deadline alert < now) /\
    (now <= sa_response_deadline alert -> alert' = alert) /\
    checkDeadline alert (sa_response_deadline alert - 1) = inl alert /\
    checkDeadline alert (sa_response_deadline alert + 1)
      = inl (set_status alert "escalated").
Proof.
  intros Hactive. unfold checkDeadline. rewrite Hactive. cbn [String.eqb].
  change ("active"%string =? "active"%string)%string with true. cbv iota.
  assert (H1 : (sa_response_deadline alert <? sa_response_deadline alert - 1) = false)
    by (apply Z.ltb_ge; lia).
  assert (H2 : (sa_response_deadline alert <? sa_response_deadline alert + 1) = true)
    by (apply Z.ltb_lt; lia).
  rewrite H1, H2.
  destruct (sa_response_deadline alert <? now) eqn:E.
  - apply Z.ltb_lt in E. eexists. split; [reflexivity|].
    repeat split; try reflexivity; lia.
  - apply Z.ltb_ge in E. exists alert. split; [reflexivity|].
    repeat split; try reflexivity; try lia.
    rewrite Hactive. discriminate.
Qed.

(** An active alert whose deadline passed 45 minutes ago. *)
Lemma checkDeadline_active_witness :
  exists alert',
    checkDeadline (Paris.alert_in "active") (Paris.clock 0) = inl alert' /\
    (sa_status alert' = "escalated"%string
       <-> sa_response_deadline (Paris.alert_in "active") < Paris.clock 0) /\
    (Paris.clock 0 <= sa_response_deadline (Paris.alert_in "active")
       -> alert' = Paris.alert_in "active") /\
    checkDeadline (Paris.alert_in "active")
                  (sa_response_deadline (Paris.alert_in "active") - 1)
      = inl (Paris.alert_in "active") /\
    checkDeadline (Paris.alert_in "active")
                  (sa_response_deadline (Paris.alert_in "active") + 1)
      = inl (set_status (Paris.alert_in "active") "escalated").
Proof.
  apply (checkDeadline_active (Paris.alert_in "active") (Paris.clock 0)).
  reflexivity.
Defined.

(** * Further properties of the code *)

(** ** Ordering of query results *)

Lemma order_by_timestamp_desc_eq (l : list LocationUpdate) :
  order_by_timestamp_desc l = order_by_desc lu_timestamp l.
Proof.
  unfold order_by_timestamp_desc, order_by_desc.
  induction l as [|x l IH]; cbn [fold_right]; [reflexivity|].
  rewrite IH. generalize (fold_right (insert_desc_by lu_timestamp) [] l).
  intros s. induction s as [|y s IHs]; cbn [insert_desc insert_desc_by]; [reflexivity|].
  now rewrite IHs.
Qed.

Section OrderBy.

Context {A : Type}.
Variable column : A -> Z.

Lemma insert_desc_by_perm (x : A) (l : list A) :
  Permutation (insert_desc_by column x l) (x :: l).
Proof.
  induction l as [|y l IH]; cbn [insert_desc_by]; [reflexivity|].
  destruct (column y <=? column x); [reflexivity|].
  rewrite IH. apply perm_swap.
Qed.

Lemma order_by_desc_perm (l : list A) : Permutation (order_by_desc column l) l.
Proof.
  unfold order_by_desc. induction l as [|x l IH]; cbn [fold_right]; [reflexivity|].
  rewrite insert_desc_by_perm. now constructor.
Qed.

Lemma insert_desc_by_sorted (x : A) (l : list A) :
  StronglySorted (newer_first column) l ->
  StronglySorted (newer_first column) (insert_desc_by column x l).
Proof.
  induction 1 as [|y l Hs IH Hy]; cbn [insert_desc_by].
  - repeat constructor.
  - destruct (column y <=? column x) eqn:E.
    + apply Z.leb_le in E. constructor; [now constructor|].
      constructor; [exact E|].
      eapply Forall_impl; [|exact Hy]. unfold newer_first. intros; lia.
    + apply Z.leb_gt in E. constructor; [exact IH|].
      eapply Permutation_Forall; [symmetry; apply insert_desc_by_perm|].
      constructor; [unfold newer_first; lia | exact Hy].
Qed.

Lemma order_by_desc_sorted (l : list A) :
  StronglySorted (newer_first column) (order_by_desc column l).
Proof.
  unfold order_by_desc. induction l as [|x l IH]; cbn [fold_right]; [constructor|].
  now apply insert_desc_by_sorted.
Qed.

Lemma order_by_desc_length (l : list A) :
  List.length (order_by_desc column l) = List.length l.
Proof. apply Permutation_length, order_by_desc_perm. Qed.

(** The first row of the result is a row of the table with the greatest
    value of the column. *)
Lemma order_by_desc_head (l : list A) (x : A) (rest : list A) :
  order_by_desc column l = x :: rest ->
  In x l /\ Forall (fun y => column y <= column x) l.
Proof.
  intros H. pose proof (order_by_desc_perm l) as Hp.
  pose proof (order_by_desc_sorted l) as Hs. rewrite H in Hp, Hs.
  split.
  - eapply Permutation_in; [exact Hp | now left].
  - eapply Permutation_Forall; [exact Hp|].
    inversion Hs; subst. constructor; [lia | assumption].
Qed.

End OrderBy.

(** ** NearestWaypoint, whatever the floats *)

Section NearestAnyFloat.

Variable M : PyMath.
Variables current_lat current_lon : float.

Lemma nearest_loop_sound (locations : list PlannedLocation) :
  forall (n0 : option PlannedLocation) (d0 : float) (n : option PlannedLocation) (d : float),
  nearest_loop M current_lat current_lon locations n0 d0 = Ok (n, d) ->
  (n = n0 /\ d = d0 /\
   Forall (fun p => exists dp, distance_to M current_lat current_lon p = Ok dp
                               /\ flt dp d0 = false) locations)
  \/ (exists w, n = Some w /\ In w locations /\
                distance_to M current_lat current_lon w = Ok d /\ flt d d0 = true).
Proof.
  induction locations as [|p rest IH]; intros n0 d0 n d; cbn [nearest_loop].
  - intros [= <- <-]. left. repeat split. constructor.
  - fold (distance_to M current_lat current_lon p).
    destruct (distance_to M current_lat current_lon p) as [dp|e] eqn:Hp;
      cbn [bind]; [|discriminate].
    destruct (flt dp d0) eqn:Hlt; intros H; apply IH in H.
    + right. destruct H as [(-> & -> & _)|(w & -> & Hin & Hw & Hlt')].
      * exists p. repeat split; auto. now left.
      * exists w. repeat split; auto; [now right | eapply flt_trans; eassumption].
    + destruct H as [(-> & -> & Hall)|(w & -> & Hin & Hw & Hlt')].
      * left. repeat split. constructor; [|assumption]. now exists dp.
      * right. exists w. repeat split; auto. now right.
Qed.

Lemma nearest_loop_raises (locations : list PlannedLocation) (e : exn) :
  forall (n0 : option PlannedLocation) (d0 : float),
  nearest_loop M current_lat current_lon locations n0 d0 = Raise e <->
  exists before p after,
    locations = before ++ p :: after /\
    Forall (fun q => returns (distance_to M current_lat current_lon q)) before /\
    distance_to M current_lat current_lon p = Raise e.
Proof.
  induction locations as [|p rest IH]; intros n0 d0; cbn [nearest_loop].
  - split; [discriminate|]. intros (before & q & after & H & _).
    destruct before; discriminate.
  - fold (distance_to M current_lat current_lon p).
    destruct (distance_to M current_lat current_lon p) as [dp|e'] eqn:Hp; cbn [bind].
    + assert (Hstep : forall n1 d1,
                nearest_loop M current_lat current_lon rest n1 d1 = Raise e <->
                exists before q after,
                  p :: rest = before ++ q :: after /\
                  Forall (fun q => returns (distance_to M current_lat current_lon q)) before /\
                  distance_to M current_lat current_lon q = Raise e).
      { intros n1 d1. rewrite IH. split.
        - intros (before & q & after & -> & Hb & Hq).
          exists (p :: before), q, after. repeat split; auto.
          constructor; [now exists dp | assumption].
        - intros (before & q & after & Heq & Hb & Hq).
          destruct before as [|b before]; cbn [app] in Heq; injection Heq as <- ->.
          + congruence.
          + inversion Hb; subst. now exists before, q, after. }
      destruct (flt dp d0); apply Hstep.
    + split.
      * intros [= ->]. exists [], p, rest. repeat split; auto.
      * intros (before & q & after & Heq & Hb & Hq).
        destruct before as [|b before]; cbn [app] in Heq; injection Heq as <- ->.
        -- congruence.
        -- inversion Hb as [|? ? [x Hx] _]; subst. congruence.
Qed.

End NearestAnyFloat.

(** X1: whatever the coordinates (NaN and infinities included), a result of
    the scan is sound: a location returned is one of the sequence, the
    distance returned is its distance and is below [inf]; when no location is
    returned the distance is [inf] and no distance of the sequence was below
    [inf]. *)
Theorem find_nearest_result_sound (M : PyMath) (current_lat current_lon : float)
    (locations : list PlannedLocation) (n : option PlannedLocation) (d : float) :
  find_nearest_planned_location M current_lat current_lon locations = Ok (n, d) ->
  match n with
  | Some w =>
      In w locations /\ distance_to M current_lat current_lon w = Ok d
      /\ flt d inf = true
  | None =>
      d = inf /\
      Forall (fun p => exists dp, distance_to M current_lat current_lon p = Ok dp
                                  /\ flt dp inf = false) locations
  end.
Proof.
  intros H.
  assert (Hloop : nearest_loop M current_lat current_lon locations None inf = Ok (n, d)).
  { destruct locations; [|exact H]. exact H. }
  apply nearest_loop_sound in Hloop
    as [(-> & -> & Hall)|(w & -> & Hin & Hw & Hlt)]; auto.
Qed.

(** Two planned locations, the second with a NaN latitude. *)
Lemma find_nearest_result_sound_witness :
  let locations := [Paris.louvre; Paris.planned 3 "nowhere" nan (of_int 0)] in
  exists d,
    In Paris.louvre locations /\
    distance_to ref_math (fst Paris.hotel_de_ville) (snd Paris.hotel_de_ville)
      Paris.louvre = Ok d /\
    flt d inf = true.
Proof.
  cbv zeta. eexists.
  apply (find_nearest_result_sound ref_math (fst Paris.hotel_de_ville)
           (snd Paris.hotel_de_ville)
           [Paris.louvre; Paris.planned 3 "nowhere" nan (of_int 0)]
           (Some Paris.louvre)).
  vm_compute. reflexivity.
Defined.

(** X2: the scan raises exactly when the distance to some location of the
    sequence raises, and the exception is that of the first such location;
    the locations after it are not looked at. *)
Theorem find_nearest_raises (M : PyMath) (current_lat current_lon : float)
    (locations : list PlannedLocation) (e : exn) :
  find_nearest_planned_location M current_lat current_lon locations = Raise e <->
  exists before p after,
    locations = before ++ p :: after /\
    Forall (fun q => returns (distance_to M current_lat current_lon q)) before /\
    distance_to M current_lat current_lon p = Raise e.
Proof.
  destruct locations as [|p rest].
  - split; [discriminate|]. intros (before & q & after & H & _).
    destruct before; discriminate.
  - apply (nearest_loop_raises M current_lat current_lon (p :: rest) e None inf).
Qed.

(** The Louvre, then a location with an infinite latitude, whose distance
    the reference library refuses, then the Eiffel Tower. *)
Lemma find_nearest_raises_witness :
  find_nearest_planned_location ref_math (fst Paris.hotel_de_ville)
    (snd Paris.hotel_de_ville)
    [Paris.louvre; Paris.planned 3 "nowhere" inf (of_int 0); Paris.eiffel_tower]
  = Raise ValueError.
Proof.
  apply (proj2 (find_nearest_raises ref_math (fst Paris.hotel_de_ville)
                  (snd Paris.hotel_de_ville)
                  [Paris.louvre; Paris.planned 3 "nowhere" inf (of_int 0);
                   Paris.eiffel_tower] ValueError)).
  exists [Paris.louvre], (Paris.planned 3 "nowhere" inf (of_int 0)), [Paris.eiffel_tower].
  split; [reflexivity|]. split.
  - constructor; [|constructor]. eexists. vm_compute. reflexivity.
  - vm_compute. reflexivity.
Defined.

(** ** StationarityDetector: the window and the decision *)

Lemma query_recent_locations_eq (w : World) (user_id : Z) (trip : Trip)
    (since : datetime) :
  query_recent_locations w user_id trip since
  = order_by_desc lu_timestamp
      (filter (in_window user_id trip since) (location_updates (db w))).
Proof. unfold query_recent_locations. apply order_by_timestamp_desc_eq. Qed.

Lemma stationary_loop_still (M : PyMath) (latest : LocationUpdate)
    (others : list LocationUpdate) :
  Forall (fun s => exists d, distance_between M latest s = Ok d /\ fgt d half = false)
         others ->
  stationary_loop M latest others = Ok true.
Proof.
  induction 1 as [|s rest (d & Hd & Hle) _ IH]; [reflexivity|].
  cbn [stationary_loop]. fold (distance_between M latest s).
  rewrite Hd. cbn [bind]. now rewrite Hle.
Qed.

(** X3: fewer than two samples of the user on the trip in the last four
    hours, however many older ones or samples of other users and trips the
    table holds: no stationary alert, the tables are untouched and the clock
    was read once. *)
Theorem check_stationary_alert_short_window (M : PyMath) (w : World) (user_id : Z)
    (trip : Trip) :
  (List.length (filter (in_window user_id trip
                          (readings w (ticks w) - timedelta_hours 4)%Z)
                       (location_updates (db w))) <= 1)%nat ->
  check_stationary_alert M w user_id trip = Ok (None, snd (utcnow w)).
Proof.
  intros Hlen.
  rewrite <- (order_by_desc_length lu_timestamp), <- query_recent_locations_eq in Hlen.
  unfold check_stationary_alert. cbn [utcnow snd].
  change (query_recent_locations _ user_id trip ?t)
    with (query_recent_locations w user_id trip t).
  destruct (query_recent_locations w user_id trip _) as [|a [|b rest]];
    cbn [List.length] in Hlen; try reflexivity. lia.
Qed.

(** One sample five hours old and one of this minute: a single sample in
    the window. *)
Lemma check_stationary_alert_short_window_witness :
  let old := Paris.sample 1 (fst Paris.hotel_de_ville) (snd Paris.hotel_de_ville) 300 in
  let now := Paris.sample 2 (fst Paris.hotel_de_ville) (snd Paris.hotel_de_ville) 0 in
  let w := Paris.world [] [old; now] [] in
  check_stationary_alert ref_math w 7 Paris.trip = Ok (None, snd (utcnow w)).
Proof.
  cbv zeta. apply check_stationary_alert_short_window.
  vm_compute. lia.
Defined.

(** X4: with at least two samples in the window, none of them more than
    0.5 km from the latest, the decision is that of the nearest planned
    location: an alert (stationary, active, at the latest sample, carrying
    the distance) when it is more than 1.0 km away, none otherwise. *)
Theorem check_stationary_alert_decision (M : PyMath) (w : World) (user_id : Z)
    (trip : Trip) (latest s : LocationUpdate) (others : list LocationUpdate)
    (nearest : option PlannedLocation) (d : float) :
  query_recent_locations w user_id trip (readings w (ticks w) - timedelta_hours 4)
    = latest :: s :: others ->
  Forall (fun x => exists dx, distance_between M latest x = Ok dx /\ fgt dx half = false)
         (s :: others) ->
  find_nearest_planned_location M (lu_latitude latest) (lu_longitude latest)
    (query_planned_locations w trip) = Ok (nearest, d) ->
  (fgt d one = true ->
     exists alert w',
       check_stationary_alert M w user_id trip = Ok (Some alert, w') /\
       sa_alert_type alert = "stationary"%string /\
       sa_status alert = "active"%string /\
       sa_latitude alert = lu_latitude latest /\
       sa_longitude alert = lu_longitude latest /\
       sa_distance_from_planned_km alert = Some d /\
       sa_user_id alert = user_id /\ sa_trip_id alert = t_id trip) /\
  (fgt d one = false ->
     check_stationary_alert M w user_id trip = Ok (None, snd (utcnow w))).
Proof.
  intros Hrecent Hstill Hnearest.
  unfold check_stationary_alert. cbn [utcnow snd].
  change (query_recent_locations _ user_id trip ?t)
    with (query_recent_locations w user_id trip t).
  rewrite Hrecent, (stationary_loop_still M latest (s :: others) Hstill). cbn [bind].
  change (query_planned_locations _ trip) with (query_planned_locations w trip).
  rewrite Hnearest. cbn [bind snd]. split; intros ->.
  - cbn [add_alert]. eexists _, _. split; [reflexivity|]. repeat split.
  - reflexivity.
Qed.

(** Two samples at the Hotel de Ville, the Eiffel Tower 4.2 km away. *)
Lemma check_stationary_alert_decision_witness :
  let s1 := Paris.sample 1 (fst Paris.hotel_de_ville) (snd Paris.hotel_de_ville) 30 in
  let s2 := Paris.sample 2 (fst Paris.hotel_de_ville) (snd Paris.hotel_de_ville) 0 in
  let w := Paris.world [Paris.eiffel_tower] [s1; s2] [] in
  exists alert w',
    check_stationary_alert ref_math w 7 Paris.trip = Ok (Some alert, w') /\
    sa_alert_type alert = "stationary"%string /\
    sa_status alert = "active"%string /\
    sa_latitude alert = fst Paris.hotel_de_ville /\
    sa_longitude alert = snd Paris.hotel_de_ville /\
    sa_distance_from_planned_km alert = Some (S754_finite false 4758066909856293 (-50)) /\
    sa_user_id alert = 7 /\ sa_trip_id alert = 1.
Proof.
  cbv zeta.
  refine (proj1 (check_stationary_alert_decision ref_math
                   (Paris.world [Paris.eiffel_tower]
                      [Paris.sample 1 (fst Paris.hotel_de_ville) (snd Paris.hotel_de_ville) 30;
                       Paris.sample 2 (fst Paris.hotel_de_ville) (snd Paris.hotel_de_ville) 0] [])
                   7 Paris.trip
                   (Paris.sample 2 (fst Paris.hotel_de_ville) (snd Paris.hotel_de_ville) 0)
                   (Paris.sample 1 (fst Paris.hotel_de_ville) (snd Paris.hotel_de_ville) 30)
                   [] (Some Paris.eiffel_tower)
                   (S754_finite false 4758066909856293 (-50)) _ _ _) _).
  - reflexivity.
  - constructor; [|constructor]. exists pos_zero.
    split; [vm_compute; reflexivity | reflexivity].
  - vm_compute. reflexivity.
  - reflexivity.
Defined.

(** X5: a stationary alert is placed at the most recent sample of the
    window: a stored sample of that user and trip, at most four hours old,
    than which no other sample of the window is newer; the alert belongs to
    that user and trip. *)
Theorem stationary_alert_at_latest_sample (M : PyMath) (w : World) (user_id : Z)
    (trip : Trip) (alert : SafetyAlert) (w' : World) :
  check_stationary_alert M w user_id trip = Ok (Some alert, w') ->
  let since := readings w (ticks w) - timedelta_hours 4 in
  exists latest,
    In latest (location_updates (db w)) /\
    in_window user_id trip since latest = true /\
    (forall u, In u (location_updates (db w)) -> in_window user_id trip since u = true ->
               lu_timestamp u <= lu_timestamp latest) /\
    sa_latitude alert = lu_latitude latest /\
    sa_longitude alert = lu_longitude latest /\
    sa_user_id alert = user_id /\ sa_trip_id alert = t_id trip.
Proof.
  cbv zeta. unfold check_stationary_alert. cbn [utcnow].
  change (query_recent_locations _ user_id trip ?t)
    with (query_recent_locations w user_id trip t).
  destruct (query_recent_locations w user_id trip _) as [|latest [|s others]] eqn:Hq;
    try discriminate.
  rewrite query_recent_locations_eq in Hq.
  apply order_by_desc_head in Hq as [Hin Hmax].
  apply filter_In in Hin as [Hin Hwin].
  destruct (stationary_loop M latest (s :: others)) as [[]|e]; cbn [bind];
    try discriminate.
  destruct (find_nearest_planned_location M _ _ _) as [[n d]|e];
    cbn [bind snd]; [|discriminate].
  destruct (fgt d one); [|discriminate].
  cbn [add_alert]. intros [= <- _].
  exists latest. repeat split; try assumption.
  intros u Hu Hw. rewrite Forall_forall in Hmax.
  apply Hmax, filter_In. now split.
Qed.

(** In the example of the two samples at the Hotel de Ville. *)
Lemma stationary_alert_at_latest_sample_witness :
  let s1 := Paris.sample 1 (fst Paris.hotel_de_ville) (snd Paris.hotel_de_ville) 30 in
  let s2 := Paris.sample 2 (fst Paris.hotel_de_ville) (snd Paris.hotel_de_ville) 0 in
  let w := Paris.world [Paris.eiffel_tower] [s1; s2] [] in
  exists alert w',
    check_stationary_alert ref_math w 7 Paris.trip = Ok (Some alert, w') /\
    exists latest,
      In latest (location_updates (db w)) /\
      in_window 7 Paris.trip (readings w (ticks w) - timedelta_hours 4) latest = true /\
      (forall u, In u (location_updates (db w)) ->
                 in_window 7 Paris.trip (readings w (ticks w) - timedelta_hours 4) u = true ->
                 lu_timestamp u <= lu_timestamp latest) /\
      sa_latitude alert = lu_latitude latest /\
      sa_longitude alert = lu_longitude latest /\
      sa_user_id alert = 7 /\ sa_trip_id alert = t_id Paris.trip.
Proof.
  cbv zeta. eexists _, _. split; [vm_compute; reflexivity|].
  eapply (stationary_alert_at_latest_sample ref_math
           (Paris.world [Paris.eiffel_tower]
              [Paris.sample 1 (fst Paris.hotel_de_ville) (snd Paris.hotel_de_ville) 30;
               Paris.sample 2 (fst Paris.hotel_de_ville) (snd Paris.hotel_de_ville) 0] [])
           7 Paris.trip).
  vm_compute. reflexivity.
Defined.

(** ** What the operations write *)

Lemma check_deviation_alert_outcome (M : PyMath) (w : World) (lu : LocationUpdate)
    (trip : Trip) (created : option SafetyAlert) (w' : World) :
  check_deviation_alert M w lu trip = Ok (created, w') ->
  match created with
  | None => db w' = db w
  | Some a =>
      appended w a w' /\ sa_alert_type a = "deviation"%string /\
      sa_user_id a = lu_user_id lu /\ sa_trip_id a = t_id trip /\
      sa_latitude a = lu_latitude lu /\ sa_longitude a = lu_longitude lu
  end.
Proof.
  unfold check_deviation_alert.
  destruct (query_planned_locations w trip) as [|p rest].
  - intros [= <- <-]. reflexivity.
  - destruct (find_nearest_planned_location M _ _ (p :: rest)) as [[n d]|e];
      cbn [bind snd]; [|discriminate].
    destruct (fgt d (t_deviation_threshold_km trip)).
    + cbn [utcnow add_alert]. intros [= <- <-]. unfold appended. repeat split.
    + intros [= <- <-]. reflexivity.
Qed.

Lemma check_stationary_alert_outcome (M : PyMath) (w : World) (user_id : Z)
    (trip : Trip) (created : option SafetyAlert) (w' : World) :
  check_stationary_alert M w user_id trip = Ok (created, w') ->
  match created with
  | None => db w' = db w
  | Some a =>
      appended w a w' /\ sa_alert_type a = "stationary"%string /\
      sa_user_id a = user_id /\ sa_trip_id a = t_id trip
  end.
Proof.
  unfold check_stationary_alert. cbn [utcnow].
  destruct (query_recent_locations _ user_id trip _) as [|latest [|s others]];
    try (intros [= <- <-]; reflexivity).
  destruct (stationary_loop M latest (s :: others)) as [[]|e]; cbn [bind];
    try discriminate; try (intros [= <- <-]; reflexivity).
  destruct (find_nearest_planned_location M _ _ _) as [[n d]|e];
    cbn [bind snd]; [|discriminate].
  destruct (fgt d one).
  - cbn [add_alert]. intros [= <- <-]. unfold appended. repeat split.
  - intros [= <- <-]. reflexivity.
Qed.

Lemma create_manual_alert_outcome (w : World) (trip_id : Z) (msg : string)
    (current_user_id : Z) (reply : RespondReply) (w' : World) :
  create_manual_alert w trip_id msg current_user_id = Ok (reply, w') ->
  exists a,
    appended w a w' /\ sa_alert_type a = "manual"%string /\
    sa_user_id a = current_user_id /\ sa_trip_id a = trip_id /\
    reply_alert_id reply = sa_id a.
Proof.
  unfold create_manual_alert.
  destruct (find _ (trips (db w))) as [trip|]; [|discriminate].
  destruct (order_by_timestamp_desc _) as [|latest rest]; [discriminate|].
  cbn [utcnow add_alert]. intros [= <- <-]. eexists. unfold appended.
  cbn [db trips planned_locations location_updates safety_alerts next_alert_id].
  refine (conj (conj eq_refl (conj eq_refl (conj eq_refl (conj eq_refl _)))) _);
    repeat split.
Qed.

Lemma respond_to_alert_outcome (w : World) (alert_id : Z) (r : AlertResponse)
    (current_user_id : Z) (reply : RespondReply) (w' : World) :
  respond_to_alert w alert_id r current_user_id = Ok (reply, w') ->
  exists alert,
    query_alert w alert_id current_user_id = Some alert /\
    trips (db w') = trips (db w) /\
    planned_locations (db w') = planned_locations (db w) /\
    location_updates (db w') = location_updates (db w) /\
    next_alert_id (db w') = next_alert_id (db w) /\
    safety_alerts (db w')
      = update_first (owned_alert alert_id current_user_id)
          (responded r (readings w (ticks w)) alert) (safety_alerts (db w)).
Proof.
  destruct (query_alert w alert_id current_user_id) as [alert|] eqn:Hq.
  - destruct (respond_to_alert_found w alert_id r current_user_id alert Hq) as [-> _].
    intros [= _ <-]. exists alert. repeat split.
  - rewrite respond_to_alert_missing by assumption. discriminate.
Qed.

(** ** The primary key of the alerts *)

Lemma NoDup_snoc {A : Type} (l : list A) (x : A) :
  NoDup l -> ~ In x l -> NoDup (l ++ [x]).
Proof.
  induction l as [|y l IH]; cbn; intros Hnd Hx.
  - constructor; [intros [] | constructor].
  - inversion Hnd as [|? ? Hy Hl]; subst. constructor.
    + rewrite in_app_iff. cbn. intros [H|[H|[]]]; [tauto | subst; tauto].
    + apply IH; tauto.
Qed.

Lemma alert_keys_ok_appended (w : World) (a : SafetyAlert) (w' : World) :
  alert_keys_ok w -> appended w a w' -> alert_keys_ok w'.
Proof.
  intros [Hnd Hlt] (_ & _ & _ & Hrows & Hnext & Hid & _).
  unfold alert_keys_ok. rewrite Hrows, Hnext, map_app. cbn [map]. split.
  - apply NoDup_snoc; [exact Hnd|].
    intros Hin. apply in_map_iff in Hin as (b & Hb & Hin).
    rewrite Forall_forall in Hlt. specialize (Hlt b Hin). lia.
  - apply Forall_app. split.
    + eapply Forall_impl; [|exact Hlt]. cbn. intros; lia.
    + constructor; [lia | constructor].
Qed.

Lemma alert_keys_ok_same_db (w w' : World) :
  alert_keys_ok w -> db w' = db w -> alert_keys_ok w'.
Proof. unfold alert_keys_ok. now intros H ->. Qed.

(** X6: the primary key of the alerts is an invariant of every operation:
    when the stored ids are distinct and below the next key before a
    detector, a response or a manual alert, they are so afterwards. *)
Theorem run_keeps_alert_keys (M : PyMath) (op : Operation) (w : World)
    (created : option SafetyAlert) (w' : World) :
  alert_keys_ok w ->
  run M op w = Ok (created, w') ->
  alert_keys_ok w'.
Proof.
  intros Hok.
  destruct op as [lu trip|user_id trip|alert_id r u|trip_id msg u]; cbn [run]; intros Hrun.
  - apply check_deviation_alert_outcome in Hrun. destruct created as [a|].
    + now apply (alert_keys_ok_appended w a).
    + now apply (alert_keys_ok_same_db w).
  - apply check_stationary_alert_outcome in Hrun. destruct created as [a|].
    + now apply (alert_keys_ok_appended w a).
    + now apply (alert_keys_ok_same_db w).
  - destruct (respond_to_alert w alert_id r u) as [[reply w1]|e] eqn:E; [|discriminate].
    cbn [bind snd] in Hrun. injection Hrun as _ <-.
    apply respond_to_alert_outcome in E
      as (alert & Hq & _ & _ & _ & Hnext & Hrows).
    destruct Hok as [Hnd Hlt]. unfold alert_keys_ok. rewrite Hrows, Hnext.
    assert (Hid : sa_id (responded r (readings w (ticks w)) alert) = sa_id alert).
    { pose proof (stamps_responded r (readings w (ticks w)) alert) as Hs.
      unfold stamps in Hs. now injection Hs. }
    rewrite (update_first_map sa_id _ _ _ alert Hq Hid). split; [exact Hnd|].
    apply Forall_forall. intros x Hx. apply in_update_first in Hx as [Hx| ->].
    + rewrite Forall_forall in Hlt. now apply Hlt.
    + rewrite Hid. rewrite Forall_forall in Hlt. apply Hlt.
      now apply (find_some _ _ Hq).
  - destruct (create_manual_alert w trip_id msg u) as [[reply w1]|e] eqn:E; [|discriminate].
    cbn [bind snd] in Hrun. injection Hrun as _ <-.
    apply create_manual_alert_outcome in E as (a & Ha & _).
    now apply (alert_keys_ok_appended w a).
Qed.

(** Three alerts are stored under the ids 1, 2 and 3; the deviation check
    stores a fourth. *)
Lemma run_keeps_alert_keys_witness :
  exists created w',
    run ref_math (CheckDeviation DeviationExample.far_sample Paris.trip)
        BusyExample.w = Ok (created, w') /\
    map sa_id (safety_alerts (db w')) = [1; 2; 3; 4] /\
    alert_keys_ok w'.
Proof.
  eexists _, _. split; [vm_compute; reflexivity|]. split; [reflexivity|].
  eapply (run_keeps_alert_keys ref_math
            (CheckDeviation DeviationExample.far_sample Paris.trip) BusyExample.w).
  - split.
    + repeat constructor; cbn; lia.
    + repeat constructor.
  - vm_compute. reflexivity.
Defined.

(** X7: no operation touches the trips, the planned locations or the
    samples, and none deletes an alert or takes a key back: the table of
    alerts keeps its length or grows, and so does the next key. *)
Theorem run_frame (M : PyMath) (op : Operation) (w : World)
    (created : option SafetyAlert) (w' : World) :
  run M op w = Ok (created, w') ->
  trips (db w') = trips (db w) /\
  planned_locations (db w') = planned_locations (db w) /\
  location_updates (db w') = location_updates (db w) /\
  (List.length (safety_alerts (db w)) <= List.length (safety_alerts (db w')))%nat /\
  next_alert_id (db w) <= next_alert_id (db w').
Proof.
  assert (Happ : forall a, appended w a w' ->
            trips (db w') = trips (db w) /\
            planned_locations (db w') = planned_locations (db w) /\
            location_updates (db w') = location_updates (db w) /\
            (List.length (safety_alerts (db w)) <= List.length (safety_alerts (db w')))%nat /\
            next_alert_id (db w) <= next_alert_id (db w')).
  { intros a (H1 & H2 & H3 & H4 & H5 & _). repeat split; try assumption; try lia.
    rewrite H4, length_app. lia. }
  assert (Hsame : db w' = db w ->
            trips (db w') = trips (db w) /\
            planned_locations (db w') = planned_locations (db w) /\
            location_updates (db w') = location_updates (db w) /\
            (List.length (safety_alerts (db w)) <= List.length (safety_alerts (db w')))%nat /\
            next_alert_id (db w) <= next_alert_id (db w')).
  { intros ->. repeat split; lia. }
  destruct op as [lu trip|user_id trip|alert_id r u|trip_id msg u]; cbn [run]; intros Hrun.
  - apply check_deviation_alert_outcome in Hrun. destruct created as [a|]; [|auto].
    now apply (Happ a).
  - apply check_stationary_alert_outcome in Hrun. destruct created as [a|]; [|auto].
    now apply (Happ a).
  - destruct (respond_to_alert w alert_id r u) as [[reply w1]|e] eqn:E; [|discriminate].
    cbn [bind snd] in Hrun. injection Hrun as _ <-.
    apply respond_to_alert_outcome in E
      as (alert & Hq & H1 & H2 & H3 & Hnext & Hrows).
    repeat split; try assumption; try lia.
    rewrite Hrows.
    rewrite <- (length_map sa_id (update_first _ _ _)).
    assert (Hid : sa_id (responded r (readings w (ticks w)) alert) = sa_id alert).
    { pose proof (stamps_responded r (readings w (ticks w)) alert) as Hs.
      unfold stamps in Hs. now injection Hs. }
    rewrite (update_first_map sa_id _ _ _ alert Hq Hid), length_map. lia.
  - destruct (create_manual_alert w trip_id msg u) as [[reply w1]|e] eqn:E; [|discriminate].
    cbn [bind snd] in Hrun. injection Hrun as _ <-.
    apply create_manual_alert_outcome in E as (a & Ha & _).
    now apply (Happ a).
Qed.

Lemma run_frame_witness :
  exists created w',
    run ref_math (CheckDeviation DeviationExample.far_sample Paris.trip)
        DeviationExample.w = Ok (created, w') /\
    trips (db w') = trips (db DeviationExample.w) /\
    planned_locations (db w') = planned_locations (db DeviationExample.w) /\
    location_updates (db w') = location_updates (db DeviationExample.w) /\
    (List.length (safety_alerts (db DeviationExample.w))
       <= List.length (safety_alerts (db w')))%nat /\
    next_alert_id (db DeviationExample.w) <= next_alert_id (db w').
Proof.
  eexists _, _. split; [vm_compute; reflexivity|].
  eapply (run_frame ref_math
            (CheckDeviation DeviationExample.far_sample Paris.trip) DeviationExample.w).
  vm_compute. reflexivity.
Defined.

(** ** The route that stores a sample and runs both detectors *)

Lemma query_trip_owned (w : World) (trip_id current_user_id : Z) (trip : Trip) :
  query_trip w trip_id current_user_id = Some trip ->
  In trip (trips (db w)) /\ t_id trip = trip_id /\ t_owner_id trip = current_user_id.
Proof.
  unfold query_trip. intros H. apply find_some in H as [Hin Hp].
  apply andb_prop in Hp as [H1 H2]. split; [assumption|]. split; lia.
Qed.

Lemma create_location_update_steps (M : PyMath) (w : World)
    (location : LocationUpdateCreate) (current_user_id location_id : Z)
    (reply : LocationReply) (w' : World) :
  create_location_update M w location current_user_id location_id = Ok (reply, w') ->
  let row := stored_sample location current_user_id location_id in
  exists trip dev sta w1,
    query_trip w (luc_trip_id location) current_user_id = Some trip /\
    (if t_monitoring_enabled trip then
       check_deviation_alert M (add_location row w) row trip = Ok (dev, w1) /\
       check_stationary_alert M w1 current_user_id trip = Ok (sta, w')
     else dev = None /\ sta = None /\ w1 = add_location row w /\ w' = w1) /\
    lr_location_id reply = location_id /\
    lr_alerts_triggered reply
      = match alert_entry "deviation" dev ++ alert_entry "stationary" sta with
        | [] => None
        | entries => Some entries
        end.
Proof.
  unfold create_location_update. fold (stored_sample location current_user_id location_id).
  destruct (query_trip w (luc_trip_id location) current_user_id) as [trip|]; [|discriminate].
  cbv zeta. destruct (t_monitoring_enabled trip) eqn:Hm.
  - destruct (check_deviation_alert M _ _ trip) as [[dev w1]|e] eqn:Hd; cbn [bind fst snd];
      [|discriminate].
    destruct (check_stationary_alert M w1 current_user_id trip) as [[sta w2]|e] eqn:Hs;
      cbn [bind fst snd]; [|discriminate].
    intros [= <- <-]. exists trip, dev, sta, w1.
    rewrite Hm. split; [reflexivity|]. split; [exact (conj Hd Hs)|].
    destruct dev as [a|], sta as [b|]; split; reflexivity.
  - cbn [bind fst snd]. intros [= <- <-].
    exists trip, None, None, (add_location (stored_sample location current_user_id location_id) w).
    rewrite Hm. split; [reflexivity|]. split; [|split; reflexivity].
    repeat split.
Qed.

Lemma appended_twice (w w1 w2 : World) (dev sta : option SafetyAlert) :
  match dev with Some a => appended w a w1 | None => db w1 = db w end ->
  match sta with Some b => appended w1 b w2 | None => db w2 = db w1 end ->
  trips (db w2) = trips (db w) /\
  planned_locations (db w2) = planned_locations (db w) /\
  location_updates (db w2) = location_updates (db w) /\
  safety_alerts (db w2)
    = (safety_alerts (db w) ++ created_rows dev ++ created_rows sta)%list /\
  next_alert_id (db w2)
    = next_alert_id (db w) + Z.of_nat (List.length (created_rows dev ++ created_rows sta)).
Proof.
  destruct dev as [a|], sta as [b|]; cbn [created_rows app List.length].
  - intros (H1 & H2 & H3 & H4 & H5 & _) (K1 & K2 & K3 & K4 & K5 & _).
    rewrite K1, K2, K3, K4, K5, H1, H2, H3, H4, H5, <- app_assoc.
    repeat split; lia.
  - intros (H1 & H2 & H3 & H4 & H5 & _) ->.
    rewrite H1, H2, H3, H4, H5. repeat split; lia.
  - intros E (K1 & K2 & K3 & K4 & K5 & _).
    rewrite K1, K2, K3, K4, K5, E. repeat split; lia.
  - intros E ->. rewrite E, app_nil_r. repeat split; cbn; lia.
Qed.

(** X8: what a successful [create_location_update] leaves behind.  The
    caller owns the trip; the sample is appended to the samples under the
    caller's id; trips and planned locations are untouched; the alerts
    gain at most a deviation alert followed by a stationary alert, none
    when monitoring is disabled, each active, owned by the caller, on
    that trip and under consecutive fresh keys; and [alerts_triggered]
    lists exactly the type and id of the rows stored, the key being
    absent when none was. *)
Theorem create_location_update_stores (M : PyMath) (w : World)
    (location : LocationUpdateCreate) (current_user_id location_id : Z)
    (reply : LocationReply) (w' : World) :
  create_location_update M w location current_user_id location_id = Ok (reply, w') ->
  exists trip new_alerts,
    query_trip w (luc_trip_id location) current_user_id = Some trip /\
    trips (db w') = trips (db w) /\
    planned_locations (db w') = planned_locations (db w) /\
    location_updates (db w')
      = (location_updates (db w)
         ++ [stored_sample location current_user_id location_id])%list /\
    safety_alerts (db w') = (safety_alerts (db w) ++ new_alerts)%list /\
    next_alert_id (db w') = next_alert_id (db w) + Z.of_nat (List.length new_alerts) /\
    (t_monitoring_enabled trip = false -> new_alerts = []) /\
    In (map sa_alert_type new_alerts)
       [[]; ["deviation"]; ["stationary"]; ["deviation"; "stationary"]]%string /\
    Forall (fun a => sa_status a = "active"%string /\
                     sa_user_id a = current_user_id /\
                     sa_trip_id a = luc_trip_id location) new_alerts /\
    map sa_id new_alerts
      = map (fun i => next_alert_id (db w) + Z.of_nat i) (seq 0 (List.length new_alerts)) /\
    lr_location_id reply = location_id /\
    lr_alerts_triggered reply
      = match new_alerts with [] => None | _ => Some (map reported new_alerts) end.
Proof.
  intros H. apply create_location_update_steps in H
    as (trip & dev & sta & w1 & Hq & Hrun & Hid & Hrep).
  exists trip, (created_rows dev ++ created_rows sta)%list.
  destruct (query_trip_owned _ _ _ _ Hq) as (_ & Htrip & _).
  set (row := stored_sample location current_user_id location_id) in *.
  split; [exact Hq|].
  assert (Hout :
    match dev with
    | Some a => appended (add_location row w) a w1 /\ sa_alert_type a = "deviation"%string /\
                sa_user_id a = current_user_id /\ sa_trip_id a = t_id trip
    | None => db w1 = db (add_location row w)
    end /\
    match sta with
    | Some b => appended w1 b w' /\ sa_alert_type b = "stationary"%string /\
                sa_user_id b = current_user_id /\ sa_trip_id b = t_id trip
    | None => db w' = db w1
    end /\
    (t_monitoring_enabled trip = false -> dev = None /\ sta = None)).
  { destruct (t_monitoring_enabled trip).
    - destruct Hrun as [Hd Hs].
      apply check_deviation_alert_outcome in Hd.
      apply check_stationary_alert_outcome in Hs.
      split; [|split; [|discriminate]].
      + destruct dev as [a|]; [|exact Hd]. tauto.
      + destruct sta as [b|]; [|exact Hs]. tauto.
    - destruct Hrun as (-> & -> & -> & ->). repeat split. }
  destruct Hout as (Hdev & Hsta & Hoff).
  destruct (appended_twice (add_location row w) w1 w' dev sta) as (T1 & T2 & T3 & T4 & T5).
  { destruct dev; tauto. }
  { destruct sta; tauto. }
  cbn [add_location db trips planned_locations location_updates safety_alerts
       next_alert_id] in T1, T2, T3, T4, T5.
  repeat (split; [assumption|]).
  split; [intros Hm; destruct (Hoff Hm) as [-> ->]; reflexivity|].
  split.
  { destruct dev as [a|], sta as [b|]; cbn [created_rows app map];
      repeat match goal with
      | H : _ /\ _ |- _ => destruct H
      end;
      repeat match goal with
      | H : sa_alert_type _ = _ |- _ => rewrite H
      end; cbn [In]; auto. }
  split.
  { apply Forall_app. split.
    - destruct dev as [a|]; cbn [created_rows]; constructor; [|constructor].
      destruct Hdev as ((_ & _ & _ & _ & _ & _ & Hst) & _ & Hu & Ht).
      repeat split; congruence.
    - destruct sta as [b|]; cbn [created_rows]; constructor; [|constructor].
      destruct Hsta as ((_ & _ & _ & _ & _ & _ & Hst) & _ & Hu & Ht).
      repeat split; congruence. }
  split.
  { destruct dev as [a|], sta as [b|]; cbn [created_rows app map List.length seq];
      try reflexivity.
    - destruct Hdev as ((_ & _ & _ & _ & Hn & Ha & _) & _).
      destruct Hsta as ((_ & _ & _ & _ & _ & Hb & _) & _).
      rewrite Ha, Hb, Hn. cbn [add_location db next_alert_id]. repeat (f_equal; try lia).
    - destruct Hdev as ((_ & _ & _ & _ & _ & Ha & _) & _).
      rewrite Ha. cbn [add_location db next_alert_id]. repeat (f_equal; try lia).
    - destruct Hsta as ((_ & _ & _ & _ & _ & Hb & _) & _).
      rewrite Hb, Hdev. cbn [add_location db next_alert_id]. repeat (f_equal; try lia). }
  split; [exact Hid|]. rewrite Hrep.
  destruct dev as [a|], sta as [b|]; cbn [created_rows alert_entry app map]; unfold reported;
    repeat match goal with
    | H : _ /\ _ |- _ => destruct H
    end;
    repeat match goal with
    | H : sa_alert_type _ = _ |- _ => rewrite H
    end; reflexivity.
Qed.

Lemma create_location_update_stores_witness :
  exists reply w',
    create_location_update ref_math PostedExample.w PostedExample.posted 7 1
      = Ok (reply, w') /\
    exists trip new_alerts,
      query_trip PostedExample.w (luc_trip_id PostedExample.posted) 7 = Some trip /\
      trips (db w') = trips (db PostedExample.w) /\
      planned_locations (db w') = planned_locations (db PostedExample.w) /\
      location_updates (db w')
        = (location_updates (db PostedExample.w)
           ++ [stored_sample PostedExample.posted 7 1])%list /\
      safety_alerts (db w') = (safety_alerts (db PostedExample.w) ++ new_alerts)%list /\
      next_alert_id (db w')
        = next_alert_id (db PostedExample.w) + Z.of_nat (List.length new_alerts) /\
      (t_monitoring_enabled trip = false -> new_alerts = []) /\
      In (map sa_alert_type new_alerts)
         [[]; ["deviation"]; ["stationary"]; ["deviation"; "stationary"]]%string /\
      Forall (fun a => sa_status a = "active"%string /\
                       sa_user_id a = 7 /\
                       sa_trip_id a = luc_trip_id PostedExample.posted) new_alerts /\
      map sa_id new_alerts
        = map (fun i => next_alert_id (db PostedExample.w) + Z.of_nat i)
              (seq 0 (List.length new_alerts)) /\
      lr_location_id reply = 1 /\
      lr_alerts_triggered reply
        = match new_alerts with [] => None | _ => Some (map reported new_alerts) end.
Proof.
  eexists _, _. split; [vm_compute; reflexivity|].
  eapply (create_location_update_stores ref_math PostedExample.w PostedExample.posted 7 1).
  vm_compute. reflexivity.
Defined.

(** ** From a reported alert to its response *)

Lemma find_app_some {A : Type} (p : A -> bool) (l l' : list A) (a : A) :
  find p l = Some a -> find p (l ++ l') = Some a.
Proof.
  induction l as [|x l IH]; cbn [find app]; [discriminate|].
  destruct (p x); auto.
Qed.

Lemma find_app_none {A : Type} (p : A -> bool) (l l' : list A) :
  Forall (fun x => p x = false) l -> find p (l ++ l') = find p l'.
Proof.
  induction 1 as [|x l Hx _ IH]; cbn [find app]; [reflexivity|].
  now rewrite Hx.
Qed.

(** With the primary key in order, the query by id and owner finds the
    row just stored. *)
Lemma query_alert_appended (w : World) (a : SafetyAlert) (w' : World) :
  alert_keys_ok w -> appended w a w' ->
  query_alert w' (sa_id a) (sa_user_id a) = Some a.
Proof.
  intros [_ Hlt] (_ & _ & _ & Hrows & _ & Hid & _).
  unfold query_alert. rewrite Hrows, find_app_none.
  - cbn [find]. unfold owned_alert. now rewrite !Z.eqb_refl.
  - eapply Forall_impl; [|exact Hlt]. cbn. intros b Hb.
    unfold owned_alert. apply andb_false_iff. left. lia.
Qed.

Lemma query_alert_kept (w : World) (b : SafetyAlert) (w' : World) (i u : Z)
    (a : SafetyAlert) :
  appended w b w' -> query_alert w i u = Some a -> query_alert w' i u = Some a.
Proof.
  intros (_ & _ & _ & Hrows & _) Hq. unfold query_alert in *.
  rewrite Hrows. now apply find_app_some.
Qed.

Lemma alert_keys_ok_add_location (u : LocationUpdate) (w : World) :
  alert_keys_ok w -> alert_keys_ok (add_location u w).
Proof. intros H. exact H. Qed.

(** X9: every alert [create_location_update] reports can be answered.
    When the stored ids are distinct and below the next key, each entry
    (type, id) of [alerts_triggered] is the id of an active alert of that
    type which the caller's query finds and which was not in the table
    before, so [respond_to_alert] on that id does not raise and answers
    that very row. *)
Theorem reported_alert_can_be_answered (M : PyMath) (w : World)
    (location : LocationUpdateCreate) (current_user_id location_id : Z)
    (reply : LocationReply) (w' : World) (entries : list (string * Z))
    (kind : string) (alert_id : Z) (r : AlertResponse) :
  alert_keys_ok w ->
  create_location_update M w location current_user_id location_id = Ok (reply, w') ->
  lr_alerts_triggered reply = Some entries ->
  In (kind, alert_id) entries ->
  exists alert,
    query_alert w' alert_id current_user_id = Some alert /\
    query_alert w alert_id current_user_id = None /\
    sa_alert_type alert = kind /\
    sa_status alert = "active"%string /\
    sa_trip_id alert = luc_trip_id location /\
    exists answer w'',
      respond_to_alert w' alert_id r current_user_id = Ok (answer, w'') /\
      reply_alert_id answer = alert_id /\
      query_alert w'' alert_id current_user_id
        = Some (responded r (readings w' (ticks w')) alert).
Proof.
  intros Hok H Hrep Hin.
  apply create_location_update_steps in H
    as (trip & dev & sta & w1 & Hq & Hrun & _ & Hrep').
  destruct (query_trip_owned _ _ _ _ Hq) as (_ & Htrip & _).
  set (row := stored_sample location current_user_id location_id) in *.
  rewrite Hrep in Hrep'.
  assert (Hfound : exists alert,
    query_alert w' alert_id current_user_id = Some alert /\
    query_alert w alert_id current_user_id = None /\
    sa_alert_type alert = kind /\ sa_status alert = "active"%string /\
    sa_trip_id alert = luc_trip_id location).
  { assert (Hnew : forall i, next_alert_id (db w) <= i ->
                     query_alert w i current_user_id = None).
    { intros i Hi. unfold query_alert.
      destruct (find _ _) as [x|] eqn:E; [|reflexivity].
      apply find_some in E as [Hx Hp]. destruct Hok as [_ Hlt].
      rewrite Forall_forall in Hlt. specialize (Hlt x Hx).
      unfold owned_alert in Hp. apply andb_prop in Hp as [Hp _]. lia. }
    destruct (t_monitoring_enabled trip).
    - destruct Hrun as [Hd Hs].
      apply check_deviation_alert_outcome in Hd.
      apply check_stationary_alert_outcome in Hs.
      apply (alert_keys_ok_add_location row) in Hok.
      destruct dev as [a|].
      + destruct Hd as (Ha & Hta & Hua & Htra & _).
        pose proof (query_alert_appended _ _ _ Hok Ha) as Hqa.
        pose proof (alert_keys_ok_appended _ _ _ Hok Ha) as Hok1.
        assert (Hia : sa_id a = next_alert_id (db w)) by apply Ha.
        assert (Hsa : sa_status a = "active"%string) by apply Ha.
        assert (Hn1 : next_alert_id (db w1) = next_alert_id (db w) + 1) by apply Ha.
        cbn [lu_user_id row stored_sample] in Hua. rewrite Hua in Hqa.
        destruct sta as [b|].
        * destruct Hs as (Hb & Htb & Hub & Htrb).
          pose proof (query_alert_appended _ _ _ Hok1 Hb) as Hqb.
          assert (Hib : sa_id b = next_alert_id (db w1)) by apply Hb.
          assert (Hsb : sa_status b = "active"%string) by apply Hb.
          rewrite Hub in Hqb.
          cbn [alert_entry app] in Hrep'. injection Hrep' as ->.
          destruct Hin as [[= <- <-]|[[= <- <-]|[]]].
          -- exists a. split; [eapply query_alert_kept; eassumption|].
             split; [apply Hnew; lia|]. repeat split; congruence.
          -- exists b. split; [assumption|].
             split; [apply Hnew; lia|]. repeat split; congruence.
        * cbn [alert_entry app] in Hrep'. injection Hrep' as ->.
          destruct Hin as [[= <- <-]|[]].
          exists a. unfold query_alert in *. rewrite Hs.
          split; [assumption|]. split; [apply Hnew; lia|]. repeat split; congruence.
      + apply (alert_keys_ok_same_db _ w1) in Hok; [|assumption].
        destruct sta as [b|]; [|discriminate].
        destruct Hs as (Hb & Htb & Hub & Htrb).
        pose proof (query_alert_appended _ _ _ Hok Hb) as Hqb.
        assert (Hib : sa_id b = next_alert_id (db w1)) by apply Hb.
        assert (Hsb : sa_status b = "active"%string) by apply Hb.
        rewrite Hub in Hqb.
        cbn [alert_entry app] in Hrep'. injection Hrep' as ->.
        destruct Hin as [[= <- <-]|[]].
        exists b. split; [assumption|].
        split; [apply Hnew; rewrite Hib, Hd; cbn; lia|]. repeat split; congruence.
    - destruct Hrun as (-> & -> & _). discriminate. }
  destruct Hfound as (alert & Hq' & Hnone & Hk & Hs & Ht).
  exists alert. repeat (split; [assumption|]).
  destruct (respond_to_alert_found w' alert_id r current_user_id alert Hq') as [Hr Hq''].
  eexists _, _. split; [exact Hr|]. split; [reflexivity|exact Hq''].
Qed.

Lemma reported_alert_can_be_answered_witness :
  exists reply w',
    create_location_update ref_math PostedExample.w PostedExample.posted 7 1
      = Ok (reply, w') /\
    exists alert,
      query_alert w' 1 7 = Some alert /\
      query_alert PostedExample.w 1 7 = None /\
      sa_alert_type alert = "deviation"%string /\
      sa_status alert = "active"%string /\
      sa_trip_id alert = luc_trip_id PostedExample.posted /\
      exists answer w'',
        respond_to_alert w' 1 {| response := "safe"; message := None |} 7
          = Ok (answer, w'') /\
        reply_alert_id answer = 1 /\
        query_alert w'' 1 7
          = Some (responded {| response := "safe"; message := None |}
                    (readings w' (ticks w')) alert).
Proof.
  eexists _, _. split; [vm_compute; reflexivity|].
  eapply (reported_alert_can_be_answered ref_math PostedExample.w PostedExample.posted 7 1
            _ _ [("deviation"%string, 1)] "deviation" 1
            {| response := "safe"; message := None |}).
  - split; constructor.
  - vm_compute. reflexivity.
  - vm_compute. reflexivity.
  - left. reflexivity.
Defined.

(** ** A response rewrites one row *)

Lemma update_first_by_id (i u : Z) (f : SafetyAlert -> SafetyAlert)
    (rows : list SafetyAlert) (alert : SafetyAlert) :
  NoDup (map sa_id rows) ->
  find (owned_alert i u) rows = Some alert ->
  update_first (owned_alert i u) (f alert) rows
    = map (fun b => if sa_id b =? i then f b else b) rows.
Proof.
  induction rows as [|x rest IH]; cbn [find update_first map]; [discriminate|].
  intros Hnd Hfind. inversion Hnd as [|? ? Hx Hrest]; subst.
  assert (Hother : forall b, In b rest -> sa_id b = sa_id x -> False).
  { intros b Hb E. apply Hx. rewrite <- E. now apply in_map. }
  destruct (owned_alert i u x) eqn:E.
  - injection Hfind as <-. unfold owned_alert in E. apply andb_prop in E as [E _].
    rewrite E. f_equal. rewrite <- (map_id rest) at 1. apply map_ext_in.
    intros b Hb. destruct (sa_id b =? i) eqn:Eb; [|reflexivity].
    exfalso. apply (Hother b Hb). lia.
  - destruct (sa_id x =? i) eqn:Ex.
    + exfalso. apply find_some in Hfind as [Hin Hp].
      unfold owned_alert in Hp. apply andb_prop in Hp as [Hp _].
      apply (Hother alert Hin). lia.
    + f_equal. now apply IH.
Qed.

(** X10: with distinct ids in the table, a successful [respond_to_alert]
    rewrites the row of that id and no other: every other alert, of the
    caller or of anybody else, is stored as it was, at its place, and the
    other tables and the next key are untouched. *)
Theorem respond_to_alert_rewrites_one_row (w : World) (alert_id : Z)
    (r : AlertResponse) (current_user_id : Z) (reply : RespondReply) (w' : World) :
  NoDup (map sa_id (safety_alerts (db w))) ->
  respond_to_alert w alert_id r current_user_id = Ok (reply, w') ->
  safety_alerts (db w')
    = map (fun b => if sa_id b =? alert_id
                    then responded r (readings w (ticks w)) b else b)
          (safety_alerts (db w)) /\
  trips (db w') = trips (db w) /\
  planned_locations (db w') = planned_locations (db w) /\
  location_updates (db w') = location_updates (db w) /\
  next_alert_id (db w') = next_alert_id (db w).
Proof.
  intros Hnd H. apply respond_to_alert_outcome in H
    as (alert & Hq & H1 & H2 & H3 & H4 & Hrows).
  repeat split; try assumption.
  rewrite Hrows. now apply update_first_by_id.
Qed.

(** User 7 answers alert 2; alert 1 of the same user and alert 3 of user 8
    are stored as they were. *)
Lemma respond_to_alert_rewrites_one_row_witness :
  exists reply w',
    respond_to_alert BusyExample.w 2 {| response := "help"; message := None |} 7
      = Ok (reply, w') /\
    safety_alerts (db w')
      = [Paris.alert_in "active";
         responded {| response := "help"; message := None |} (Paris.clock 0)
                   AlertsExample.later;
         BusyExample.stranger] /\
    safety_alerts (db w')
      = map (fun b => if sa_id b =? 2
                      then responded {| response := "help"; message := None |}
                             (readings BusyExample.w (ticks BusyExample.w)) b
                      else b)
            (safety_alerts (db BusyExample.w)).
Proof.
  eexists _, _. split; [vm_compute; reflexivity|]. split; [reflexivity|].
  eapply (respond_to_alert_rewrites_one_row BusyExample.w 2
            {| response := "help"; message := None |} 7).
  - repeat constructor; cbn; lia.
  - vm_compute. reflexivity.
Defined.

(** ** The manual alert *)

(** X11: the three outcomes of [create_manual_alert].  404 when the
    caller owns no trip of that id; 400 when the caller owns the trip but
    has no sample on it; otherwise an active manual alert is stored under
    the next key at the coordinates of a sample of the caller on the trip
    than which none is newer, with the caller's message, no distance, and
    the id returned. *)
Theorem create_manual_alert_cases (w : World) (trip_id : Z) (msg : string)
    (current_user_id : Z) :
  match create_manual_alert w trip_id msg current_user_id with
  | Raise e =>
      (e = HTTPException 404 "Trip not found" /\
       query_trip w trip_id current_user_id = None)
      \/ (e = HTTPException 400 "No location data found for this trip" /\
          query_trip w trip_id current_user_id <> None /\
          forall u, In u (location_updates (db w)) ->
                    lu_user_id u = current_user_id -> lu_trip_id u <> trip_id)
  | Ok (reply, w') =>
      exists latest a,
        In latest (location_updates (db w)) /\
        lu_user_id latest = current_user_id /\ lu_trip_id latest = trip_id /\
        (forall u, In u (location_updates (db w)) ->
                   lu_user_id u = current_user_id -> lu_trip_id u = trip_id ->
                   lu_timestamp u <= lu_timestamp latest) /\
        appended w a w' /\
        sa_alert_type a = "manual"%string /\
        sa_message a = msg /\
        sa_latitude a = lu_latitude latest /\
        sa_longitude a = lu_longitude latest /\
        sa_distance_from_planned_km a = None /\
        sa_user_id a = current_user_id /\ sa_trip_id a = trip_id /\
        reply_alert_id reply = sa_id a
  end.
Proof.
  unfold create_manual_alert. fold (query_trip w trip_id current_user_id).
  destruct (query_trip w trip_id current_user_id) as [trip|]; [|left; auto].
  rewrite order_by_timestamp_desc_eq.
  destruct (order_by_desc lu_timestamp _) as [|latest rest] eqn:E.
  - right. split; [reflexivity|]. split; [discriminate|].
    intros u Hu Huser Htrip.
    assert (Hin : In u (order_by_desc lu_timestamp
                          (filter (fun u => (lu_user_id u =? current_user_id)
                                            && (lu_trip_id u =? trip_id))
                                  (location_updates (db w))))).
    { eapply Permutation_in; [symmetry; apply order_by_desc_perm|].
      apply filter_In. split; [assumption|]. apply andb_true_intro. split; lia. }
    rewrite E in Hin. destruct Hin.
  - apply order_by_desc_head in E as [Hin Hmax].
    apply filter_In in Hin as [Hin Hp]. apply andb_prop in Hp as [Hu Ht].
    cbn [utcnow add_alert]. eexists latest, _.
    split; [assumption|]. split; [lia|]. split; [lia|].
    split.
    { intros u Hu' Huser Htrip. rewrite Forall_forall in Hmax. apply Hmax.
      apply filter_In. split; [assumption|]. apply andb_true_intro. split; lia. }
    unfold appended.
    cbn [db trips planned_locations location_updates safety_alerts next_alert_id].
    repeat split.
Qed.

(** ** Reading the tables back *)

Lemma StronglySorted_app_inv {A : Type} (R : A -> A -> Prop) (l1 l2 : list A) :
  StronglySorted R (l1 ++ l2) ->
  forall x y, In x l1 -> In y l2 -> R x y.
Proof.
  induction l1 as [|a l1 IH]; cbn [app]; intros Hs x y Hx Hy; [destruct Hx|].
  inversion Hs as [|? ? Hs' Ha]; subst. destruct Hx as [<-|Hx].
  - rewrite Forall_forall in Ha. apply Ha, in_or_app. now right.
  - now apply IH.
Qed.

Lemma in_firstn {A : Type} (n : nat) (l : list A) (x : A) :
  In x (firstn n l) -> In x l.
Proof.
  intros H. rewrite <- (firstn_skipn n l). apply in_or_app. now left.
Qed.

Lemma StronglySorted_firstn {A : Type} (R : A -> A -> Prop) (n : nat) (l : list A) :
  StronglySorted R l -> StronglySorted R (firstn n l).
Proof.
  intros Hs. revert n. induction Hs as [|a l Hs IH Ha]; intros [|n]; cbn [firstn];
    try constructor.
  - apply IH.
  - rewrite Forall_forall in *. intros x Hx. apply Ha. eapply in_firstn; eauto.
Qed.

(** X12: [get_trip_locations] answers a trip the caller owns with at most
    50 of the trip's samples, newest first; a sample of the trip that is
    left out is left out because 50 samples no older than it were
    returned. *)
Theorem get_trip_locations_newest (w : World) (trip_id current_user_id : Z)
    (l : list LocationUpdate) :
  get_trip_locations w trip_id current_user_id = Ok l ->
  query_trip w trip_id current_user_id <> None /\
  (List.length l <= 50)%nat /\
  StronglySorted (newer_first lu_timestamp) l /\
  (forall u, In u l -> In u (location_updates (db w)) /\ lu_trip_id u = trip_id) /\
  (forall u, In u (location_updates (db w)) -> lu_trip_id u = trip_id -> ~ In u l ->
             List.length l = 50%nat /\
             Forall (fun v => lu_timestamp u <= lu_timestamp v) l).
Proof.
  unfold get_trip_locations.
  destruct (query_trip w trip_id current_user_id) as [trip|]; [|discriminate].
  rewrite order_by_timestamp_desc_eq.
  set (res := firstn 50 _). intros [= <-]. subst res.
  set (rows := filter (fun u => lu_trip_id u =? trip_id) (location_updates (db w))).
  set (s := order_by_desc lu_timestamp rows).
  pose proof (order_by_desc_perm lu_timestamp rows) as Hp. fold s in Hp.
  pose proof (order_by_desc_sorted lu_timestamp rows) as Hs. fold s in Hs.
  split; [discriminate|]. split; [apply firstn_le_length|].
  split; [now apply StronglySorted_firstn|]. split.
  - intros u Hu. apply in_firstn in Hu.
    apply (Permutation_in _ Hp) in Hu. apply filter_In in Hu as [Hin Ht].
    split; [assumption | lia].
  - intros u Hu Ht Hout.
    assert (Hin : In u s).
    { eapply Permutation_in; [symmetry; exact Hp|].
      apply filter_In. split; [assumption | lia]. }
    rewrite <- (firstn_skipn 50 s) in Hin, Hs.
    apply in_app_or in Hin as [Hin|Hin]; [contradiction|].
    split.
    + assert (Hlen : (50 < List.length s)%nat).
      { destruct (Nat.lt_ge_cases 50 (List.length s)) as [|Hle]; [assumption|].
        rewrite skipn_all2 in Hin by assumption. destruct Hin. }
      rewrite length_firstn. lia.
    + apply Forall_forall. intros v Hv.
      exact (StronglySorted_app_inv _ _ _ Hs v u Hv Hin).
Qed.

Lemma get_trip_locations_newest_witness :
  exists l,
    get_trip_locations
      (Paris.world [] [MovedExample.north; MovedExample.south; MovedExample.middle] [])
      1 7 = Ok l /\
    (List.length l <= 50)%nat /\
    StronglySorted (newer_first lu_timestamp) l.
Proof.
  eexists. split; [vm_compute; reflexivity|].
  refine ((fun H => conj (proj1 (proj2 H)) (proj1 (proj2 (proj2 H))))
            (get_trip_locations_newest
               (Paris.world [] [MovedExample.north; MovedExample.south; MovedExample.middle] [])
               1 7 _ _)).
  vm_compute. reflexivity.
Defined.

(** X13: [get_user_alerts] returns the caller's alerts, all of them and
    each as often as it is stored, and nobody else's, the most recently
    triggered first. *)
Theorem get_user_alerts_spec (w : World) (current_user_id : Z) :
  Permutation (get_user_alerts w current_user_id)
              (filter (fun a => sa_user_id a =? current_user_id) (safety_alerts (db w))) /\
  StronglySorted (newer_first sa_triggered_at) (get_user_alerts w current_user_id) /\
  (forall a, In a (get_user_alerts w current_user_id) <->
             In a (safety_alerts (db w)) /\ sa_user_id a = current_user_id).
Proof.
  unfold get_user_alerts. split; [apply order_by_desc_perm|].
  split; [apply order_by_desc_sorted|].
  intros a. split.
  - intros H. apply (Permutation_in _ (order_by_desc_perm _ _)) in H.
    apply filter_In in H as [H1 H2]. split; [assumption | lia].
  - intros [H1 H2]. eapply Permutation_in; [symmetry; apply order_by_desc_perm|].
    apply filter_In. split; [assumption | lia].
Qed.

(** A row newer than every row of the table, stored last, is read first. *)
Lemma order_by_desc_snoc {A : Type} (column : A -> Z) (l : list A) (x : A) :
  Forall (fun y => column y < column x) l ->
  order_by_desc column (l ++ [x]) = x :: order_by_desc column l.
Proof.
  unfold order_by_desc.
  induction 1 as [|y l Hy _ IH]; cbn [app fold_right]; [reflexivity|].
  rewrite IH. cbn [insert_desc_by].
  destruct (column x <=? column y) eqn:E; [apply Z.leb_le in E; lia | reflexivity].
Qed.

(** X14: an alert raised by hand is the first the caller reads back.
    When every stored alert of the caller was triggered before the
    current reading of the clock, [get_user_alerts] after a successful
    [create_manual_alert] is the new alert, under the id the route
    returned, followed by the list as it was. *)
Theorem manual_alert_read_back_first (w : World) (trip_id : Z) (msg : string)
    (current_user_id : Z) (reply : RespondReply) (w' : World) :
  Forall (fun a => sa_user_id a = current_user_id ->
                   sa_triggered_at a < readings w (ticks w)) (safety_alerts (db w)) ->
  create_manual_alert w trip_id msg current_user_id = Ok (reply, w') ->
  exists a,
    get_user_alerts w' current_user_id = a :: get_user_alerts w current_user_id /\
    sa_id a = reply_alert_id reply /\
    sa_alert_type a = "manual"%string /\ sa_message a = msg.
Proof.
  intros Hclock H.
  assert (Hstamp : exists a, sa_triggered_at a = readings w (ticks w) /\
            safety_alerts (db w') = (safety_alerts (db w) ++ [a])%list /\
            sa_user_id a = current_user_id /\
            sa_id a = reply_alert_id reply /\
            sa_alert_type a = "manual"%string /\ sa_message a = msg).
  { revert H. unfold create_manual_alert.
    destruct (find _ (trips (db w))) as [trip|]; [|discriminate].
    destruct (order_by_timestamp_desc _) as [|latest rest]; [discriminate|].
    cbn [utcnow add_alert]. intros [= <- <-]. eexists.
    cbn [db safety_alerts].
    refine (conj _ (conj eq_refl _)); repeat split. }
  destruct Hstamp as (a & Ht & Hrows & Hu & Hid & Hty & Hmsg).
  exists a. split; [|auto].
  unfold get_user_alerts. rewrite Hrows, filter_app. cbn [filter].
  rewrite Hu, Z.eqb_refl. apply order_by_desc_snoc.
  apply Forall_forall. intros b Hb. apply filter_In in Hb as [Hb Hub].
  rewrite Forall_forall in Hclock. rewrite Ht. apply Hclock; [assumption | lia].
Qed.

Lemma manual_alert_read_back_first_witness :
  exists reply w',
    create_manual_alert
      (Paris.world [] [MovedExample.middle] [Paris.alert_in "active"]) 1 "help me" 7
      = Ok (reply, w') /\
    exists a,
      get_user_alerts w' 7
        = a :: get_user_alerts
                 (Paris.world [] [MovedExample.middle] [Paris.alert_in "active"]) 7 /\
      sa_id a = reply_alert_id reply /\
      sa_alert_type a = "manual"%string /\ sa_message a = "help me"%string.
Proof.
  eexists _, _. split; [vm_compute; reflexivity|].
  eapply (manual_alert_read_back_first
            (Paris.world [] [MovedExample.middle] [Paris.alert_in "active"]) 1 "help me" 7).
  - repeat constructor.
  - vm_compute. reflexivity.
Defined.

(** X15: a posted sample is the first the caller reads back.  When the
    sample is newer than every stored sample of the trip, the list
    [get_trip_locations] returns after a successful
    [create_location_update] is the stored sample followed by the first
    49 of the list it returned before. *)
Theorem posted_sample_read_back_first (M : PyMath) (w : World)
    (location : LocationUpdateCreate) (current_user_id location_id : Z)
    (reply : LocationReply) (w' : World) :
  Forall (fun u => lu_trip_id u = luc_trip_id location ->
                   lu_timestamp u < luc_timestamp location) (location_updates (db w)) ->
  create_location_update M w location current_user_id location_id = Ok (reply, w') ->
  exists before,
    get_trip_locations w (luc_trip_id location) current_user_id = Ok before /\
    get_trip_locations w' (luc_trip_id location) current_user_id
      = Ok (stored_sample location current_user_id location_id :: firstn 49 before).
Proof.
  intros Hnew H.
  apply create_location_update_steps in H
    as (trip & dev & sta & w1 & Hq & Hrun & _ & _).
  set (row := stored_sample location current_user_id location_id) in *.
  assert (Hdb : trips (db w') = trips (db w) /\
                location_updates (db w') = (location_updates (db w) ++ [row])%list).
  { destruct (t_monitoring_enabled trip).
    - destruct Hrun as [Hd Hs].
      apply check_deviation_alert_outcome in Hd.
      apply check_stationary_alert_outcome in Hs.
      destruct (appended_twice (add_location row w) w1 w' dev sta) as (T1 & _ & T3 & _).
      { destruct dev; tauto. }
      { destruct sta; tauto. }
      split; assumption.
    - destruct Hrun as (_ & _ & -> & ->). split; reflexivity. }
  destruct Hdb as [Htrips Hrows].
  unfold get_trip_locations, query_trip in *. rewrite Htrips, Hq, Hrows.
  eexists. split; [reflexivity|].
  rewrite !order_by_timestamp_desc_eq, filter_app. cbn [filter row stored_sample lu_trip_id].
  rewrite Z.eqb_refl.
  fold (stored_sample location current_user_id location_id). fold row.
  rewrite order_by_desc_snoc.
  - change (firstn 50 (row :: ?s)) with (row :: firstn 49 s).
    rewrite firstn_firstn. reflexivity.
  - apply Forall_forall. intros u Hu. apply filter_In in Hu as [Hu Ht].
    rewrite Forall_forall in Hnew. apply Hnew; [assumption | lia].
Qed.

(** Two older samples are stored; the posted one is read back before
    them. *)
Lemma posted_sample_read_back_first_witness :
  exists reply w',
    create_location_update ref_math BusyExample.w PostedExample.posted 7 3
      = Ok (reply, w') /\
    get_trip_locations BusyExample.w 1 7
      = Ok [BusyExample.recent; BusyExample.earlier] /\
    exists before,
      get_trip_locations BusyExample.w (luc_trip_id PostedExample.posted) 7
        = Ok before /\
      get_trip_locations w' (luc_trip_id PostedExample.posted) 7
        = Ok (stored_sample PostedExample.posted 7 3 :: firstn 49 before).
Proof.
  eexists _, _. split; [vm_compute; reflexivity|]. split; [reflexivity|].
  eapply (posted_sample_read_back_first ref_math BusyExample.w PostedExample.posted 7 3).
  - repeat constructor; intros _; vm_compute; reflexivity.
  - vm_compute. reflexivity.
Defined.

(** ** Planned locations and the deviation check *)

(** X16: a planned location added to a trip is seen by the detectors of
    that trip, after those it already had, and by no other trip's; the
    other tables are untouched. *)
Theorem add_planned_location_visible (w : World) (trip_id : Z)
    (location : PlannedLocationCreate) (current_user_id location_id : Z)
    (row : PlannedLocation) (w' : World) :
  add_planned_location w trip_id location current_user_id location_id = Ok (row, w') ->
  query_trip w trip_id current_user_id <> None /\
  pl_latitude row = plc_latitude location /\
  pl_longitude row = plc_longitude location /\
  (forall trip,
     query_planned_locations w' trip
       = if t_id trip =? trip_id
         then (query_planned_locations w trip ++ [row])%list
         else query_planned_locations w trip) /\
  trips (db w') = trips (db w) /\
  location_updates (db w') = location_updates (db w) /\
  safety_alerts (db w') = safety_alerts (db w) /\
  next_alert_id (db w') = next_alert_id (db w).
Proof.
  unfold add_planned_location.
  destruct (query_trip w trip_id current_user_id) as [t|]; [|discriminate].
  intros [= <- <-]. split; [discriminate|]. repeat split.
  intros trip. unfold query_planned_locations.
  cbn [db planned_locations]. rewrite filter_app. cbn [filter pl_trip_id].
  rewrite (Z.eqb_sym trip_id).
  destruct (t_id trip =? trip_id); [reflexivity | apply app_nil_r].
Qed.

Lemma add_planned_location_visible_witness :
  exists row w',
    add_planned_location PostedExample.w 1 PostedExample.added 7 2 = Ok (row, w') /\
    forall trip,
      query_planned_locations w' trip
        = if t_id trip =? 1
          then (query_planned_locations PostedExample.w trip ++ [row])%list
          else query_planned_locations PostedExample.w trip.
Proof.
  eexists _, _. split; [vm_compute; reflexivity|].
  eapply (add_planned_location_visible PostedExample.w 1 PostedExample.added 7 2).
  vm_compute. reflexivity.
Defined.

Lemma fle_trans (x y z : float) : fle x y = true -> fle y z = true -> fle x z = true.
Proof.
  rewrite !fle_spec. intros (Nx & Ny & H1) (_ & Nz & H2).
  repeat split; try assumption. by_keys.
Qed.

Lemma flt_fle (x y : float) : flt x y = true -> fle x y = true.
Proof.
  rewrite flt_spec, fle_spec. intros (Nx & Ny & H).
  repeat split; try assumption. by_keys.
Qed.

Lemma fle_refl (x : float) : is_nan x = false -> fle x x = true.
Proof. intros H. apply fle_spec. repeat split; try assumption. by_keys. Qed.

(** X17: standing on a planned location never opens a deviation alert.
    When the sample has the coordinates of one of the trip's planned
    locations, the coordinates are valid, the distances to the trip's
    planned locations are finite numbers and the threshold is not
    negative, [check_deviation_alert] returns None and stores nothing. *)
Theorem no_deviation_at_planned_location (M : PyMath) (w : World)
    (lu : LocationUpdate) (trip : Trip) (p : PlannedLocation) :
  In p (query_planned_locations w trip) ->
  pl_latitude p = lu_latitude lu -> pl_longitude p = lu_longitude lu ->
  valid_coordinate (lu_latitude lu) (lu_longitude lu) = true ->
  finite_distances M (lu_latitude lu) (lu_longitude lu) (query_planned_locations w trip) ->
  fle pos_zero (t_deviation_threshold_km trip) = true ->
  check_deviation_alert M w lu trip = Ok (None, w).
Proof.
  intros Hin Hlat Hlon Hvalid Hfin Hthr.
  unfold check_deviation_alert.
  destruct (query_planned_locations w trip) as [|q rest] eqn:E; [reflexivity|].
  destruct (find_nearest_nonempty M (lu_latitude lu) (lu_longitude lu) (q :: rest))
    as (n & d & -> & (before & after & Hsplit & Hd & Hb & Ha)); [discriminate|assumption|].
  cbn [bind snd].
  assert (Hp : distance_to M (lu_latitude lu) (lu_longitude lu) p = Ok pos_zero).
  { unfold distance_to. rewrite Hlat, Hlon. now apply distance_self. }
  assert (Hle : fle d pos_zero = true).
  { rewrite Hsplit in Hin. apply in_app_or in Hin as [Hin|[<-|Hin]].
    - rewrite Forall_forall in Hb. destruct (Hb p Hin) as (dp & Hdp & Hlt).
      rewrite Hp in Hdp. injection Hdp as <-. now apply flt_fle.
    - rewrite Hp in Hd. injection Hd as <-. reflexivity.
    - rewrite Forall_forall in Ha. destruct (Ha p Hin) as (dp & Hdp & Hlt).
      rewrite Hp in Hdp. injection Hdp as <-. exact Hlt. }
  unfold fgt. fold (flt (t_deviation_threshold_km trip) d).
  rewrite (fle_not_flt d (t_deviation_threshold_km trip)); [reflexivity|].
  eapply fle_trans; eassumption.
Qed.

Lemma no_deviation_at_planned_location_witness :
  check_deviation_alert ref_math ArrivedExample.w ArrivedExample.at_tower Paris.trip
    = Ok (None, ArrivedExample.w).
Proof.
  apply (no_deviation_at_planned_location ref_math ArrivedExample.w
           ArrivedExample.at_tower Paris.trip Paris.eiffel_tower).
  - right. left. reflexivity.
  - reflexivity.
  - reflexivity.
  - vm_compute. reflexivity.
  - repeat constructor; eexists; (split; [vm_compute; reflexivity | reflexivity]).
  - vm_compute. reflexivity.
Defined.

(** X18: the route that stores a sample keeps the primary key of the
    alerts in order, with whatever the two detectors stored. *)
Theorem create_location_update_keeps_alert_keys (M : PyMath) (w : World)
    (location : LocationUpdateCreate) (current_user_id location_id : Z)
    (reply : LocationReply) (w' : World) :
  alert_keys_ok w ->
  create_location_update M w location current_user_id location_id = Ok (reply, w') ->
  alert_keys_ok w'.
Proof.
  intros Hok H.
  apply create_location_update_steps in H
    as (trip & dev & sta & w1 & _ & Hrun & _ & _).
  set (row := stored_sample location current_user_id location_id) in *.
  apply (alert_keys_ok_add_location row) in Hok.
  destruct (t_monitoring_enabled trip).
  - destruct Hrun as [Hd Hs].
    apply check_deviation_alert_outcome in Hd.
    apply check_stationary_alert_outcome in Hs.
    assert (Hok1 : alert_keys_ok w1).
    { destruct dev as [a|].
      - apply (alert_keys_ok_appended (add_location row w) a); [assumption | apply Hd].
      - now apply (alert_keys_ok_same_db (add_location row w)). }
    destruct sta as [b|].
    + apply (alert_keys_ok_appended w1 b); [assumption | apply Hs].
    + now apply (alert_keys_ok_same_db w1).
  - destruct Hrun as (_ & _ & -> & ->). exact Hok.
Qed.

(** Three alerts are stored under the ids 1, 2 and 3; the posted sample
    is 4.2 km from the planned location and a fourth alert is stored. *)
Lemma create_location_update_keeps_alert_keys_witness :
  exists reply w',
    create_location_update ref_math BusyExample.w PostedExample.posted 7 3
      = Ok (reply, w') /\
    map sa_id (safety_alerts (db w')) = [1; 2; 3; 4] /\
    alert_keys_ok w'.
Proof.
  eexists _, _. split; [vm_compute; reflexivity|]. split; [reflexivity|].
  eapply (create_location_update_keeps_alert_keys ref_math BusyExample.w
            PostedExample.posted 7 3).
  - split.
    + repeat constructor; cbn; lia.
    + repeat constructor.
  - vm_compute. reflexivity.
Defined.

(** ** The alerts in the order of the clock *)

Lemma StronglySorted_snoc {A : Type} (R : A -> A -> Prop) (l : list A) (x : A) :
  StronglySorted R l -> Forall (fun y => R y x) l -> StronglySorted R (l ++ [x]).
Proof.
  induction 1 as [|y l Hs IH Hy]; cbn [app]; intros Hx.
  - repeat constructor.
  - inversion Hx as [|? ? Hyx Hlx]; subst. constructor; [now apply IH|].
    apply Forall_app. split; [assumption | now constructor].
Qed.

Lemma StronglySorted_map {A B : Type} (f : A -> B) (R : B -> B -> Prop) (l : list A) :
  StronglySorted R (map f l) <-> StronglySorted (fun a b => R (f a) (f b)) l.
Proof.
  induction l as [|x l IH]; cbn [map].
  - split; constructor.
  - split; intros H; inversion H as [|? ? Hs Hx]; subst; constructor;
      try (now apply IH); now apply Forall_map.
Qed.

Lemma chronological_appended (w : World) (k : nat) (a : SafetyAlert) (w' : World) :
  clock_increasing w -> chronological w ->
  opened w k a w' -> (ticks w <= k)%nat ->
  readings w' = readings w -> (k < ticks w')%nat ->
  chronological w'.
Proof.
  intros Hclock [Hs Hpast] (Ht & _ & Hrows) Hk Hr Hk'.
  assert (Hlt : forall m n : nat, (m <= n)%nat -> readings w m <= readings w n).
  { intros m n Hmn. destruct (Nat.eq_dec m n) as [->|]; [lia|].
    apply Z.lt_le_incl, Hclock. lia. }
  unfold chronological. rewrite Hrows, Hr. split.
  - apply StronglySorted_snoc; [assumption|].
    eapply Forall_impl; [|exact Hpast]. cbn. intros b Hb.
    rewrite Ht. specialize (Hlt _ _ Hk). lia.
  - apply Forall_app. split.
    + eapply Forall_impl; [|exact Hpast]. cbn. intros b Hb.
      assert (readings w (ticks w) <= readings w (ticks w')) by (apply Hlt; lia). lia.
    + constructor; [|constructor]. rewrite Ht. now apply Hclock.
Qed.

Lemma chronological_later (w w' : World) :
  clock_increasing w -> chronological w ->
  safety_alerts (db w') = safety_alerts (db w) ->
  readings w' = readings w -> (ticks w <= ticks w')%nat ->
  chronological w'.
Proof.
  intros Hclock [Hs Hpast] Hrows Hr Hk.
  unfold chronological. rewrite Hrows, Hr. split; [assumption|].
  eapply Forall_impl; [|exact Hpast]. cbn. intros b Hb.
  destruct (Nat.eq_dec (ticks w) (ticks w')) as [<-|]; [assumption|].
  assert (readings w (ticks w) < readings w (ticks w')) by (apply Hclock; lia). lia.
Qed.

Lemma check_deviation_alert_clock (M : PyMath) (w : World) (lu : LocationUpdate)
    (trip : Trip) (created : option SafetyAlert) (w' : World) :
  check_deviation_alert M w lu trip = Ok (created, w') ->
  readings w' = readings w /\
  ticks w' = match created with Some _ => S (S (ticks w)) | None => ticks w end.
Proof.
  unfold check_deviation_alert.
  destruct (query_planned_locations w trip) as [|p rest].
  - intros [= <- <-]. split; reflexivity.
  - destruct (find_nearest_planned_location M _ _ (p :: rest)) as [[n d]|e];
      cbn [bind snd]; [|discriminate].
    destruct (fgt d (t_deviation_threshold_km trip)).
    + cbn [utcnow add_alert]. intros [= <- <-]. split; reflexivity.
    + intros [= <- <-]. split; reflexivity.
Qed.

Lemma check_stationary_alert_clock (M : PyMath) (w : World) (user_id : Z)
    (trip : Trip) (created : option SafetyAlert) (w' : World) :
  check_stationary_alert M w user_id trip = Ok (created, w') ->
  readings w' = readings w /\
  ticks w' = match created with Some _ => S (S (S (ticks w))) | None => S (ticks w) end.
Proof.
  unfold check_stationary_alert. cbn [utcnow].
  destruct (query_recent_locations _ user_id trip _) as [|latest [|s others]];
    try (intros [= <- <-]; split; reflexivity).
  destruct (stationary_loop M latest (s :: others)) as [[]|e]; cbn [bind];
    try discriminate; try (intros [= <- <-]; split; reflexivity).
  destruct (find_nearest_planned_location M _ _ _) as [[n d]|e];
    cbn [bind snd]; [|discriminate].
  destruct (fgt d one).
  - cbn [add_alert]. intros [= <- <-]. split; reflexivity.
  - intros [= <- <-]. split; reflexivity.
Qed.

Lemma create_manual_alert_clock (w : World) (trip_id : Z) (msg : string)
    (current_user_id : Z) (reply : RespondReply) (w' : World) :
  create_manual_alert w trip_id msg current_user_id = Ok (reply, w') ->
  readings w' = readings w /\ ticks w' = S (S (ticks w)).
Proof.
  unfold create_manual_alert.
  destruct (find _ (trips (db w))) as [trip|]; [|discriminate].
  destruct (order_by_timestamp_desc _) as [|latest rest]; [discriminate|].
  cbn [utcnow add_alert]. intros [= _ <-]. split; reflexivity.
Qed.

(** X19: how often each operation reads the clock.  The deviation check
    reads it twice when it opens an alert and not at all otherwise; the
    stationary check reads it once for the window and twice more when it
    opens an alert; a response reads it once and a manual alert twice.
    No operation changes the clock itself. *)
Theorem run_clock_readings (M : PyMath) (op : Operation) (w : World)
    (created : option SafetyAlert) (w' : World) :
  run M op w = Ok (created, w') ->
  readings w' = readings w /\
  ticks w' = (ticks w
              + match op with
                | CheckDeviation _ _ => match created with Some _ => 2 | None => 0 end
                | CheckStationary _ _ => match created with Some _ => 3 | None => 1 end
                | Respond _ _ _ => 1
                | ManualAlert _ _ _ => 2
                end)%nat.
Proof.
  destruct op as [lu trip|user_id trip|alert_id r u|trip_id msg u]; cbn [run]; intros Hrun.
  - apply check_deviation_alert_clock in Hrun as [Hr Ht].
    split; [assumption|]. rewrite Ht. destruct created; lia.
  - apply check_stationary_alert_clock in Hrun as [Hr Ht].
    split; [assumption|]. rewrite Ht. destruct created; lia.
  - destruct (respond_to_alert w alert_id r u) as [[reply w1]|e] eqn:E; [|discriminate].
    cbn [bind snd] in Hrun. injection Hrun as _ <-.
    destruct (query_alert w alert_id u) as [alert|] eqn:Hq.
    + destruct (respond_to_alert_found w alert_id r u alert Hq) as [Hr _].
      rewrite Hr in E. injection E as _ <-.
      cbn [commit_alert utcnow snd readings ticks]. split; [reflexivity | lia].
    + rewrite respond_to_alert_missing in E by assumption. discriminate.
  - destruct (create_manual_alert w trip_id msg u) as [[reply w1]|e] eqn:E; [|discriminate].
    cbn [bind snd] in Hrun. injection Hrun as _ <-.
    apply create_manual_alert_clock in E as [Hr Ht].
    split; [assumption | lia].
Qed.

Lemma run_clock_readings_witness :
  exists created w',
    run ref_math (CheckDeviation DeviationExample.far_sample Paris.trip)
        DeviationExample.w = Ok (created, w') /\
    readings w' = readings DeviationExample.w /\
    ticks w' = (ticks DeviationExample.w
                + match created with Some _ => 2 | None => 0 end)%nat.
Proof.
  eexists _, _. split; [vm_compute; reflexivity|].
  eapply (run_clock_readings ref_math
            (CheckDeviation DeviationExample.far_sample Paris.trip) DeviationExample.w).
  vm_compute. reflexivity.
Defined.

(** X20: with a clock whose readings increase, every operation keeps the
    alerts in the order of the clock: stored in the order of their
    trigger times, each triggered before the next reading. *)
Theorem run_keeps_chronological (M : PyMath) (op : Operation) (w : World)
    (created : option SafetyAlert) (w' : World) :
  clock_increasing w -> chronological w ->
  run M op w = Ok (created, w') ->
  clock_increasing w' /\ chronological w'.
Proof.
  intros Hclock Hchron Hrun.
  assert (Hr : readings w' = readings w).
  { destruct op as [lu trip|user_id trip|alert_id r u|trip_id msg u]; cbn [run] in Hrun.
    - now apply check_deviation_alert_clock in Hrun.
    - now apply check_stationary_alert_clock in Hrun.
    - destruct (respond_to_alert w alert_id r u) as [[reply w1]|e] eqn:E; [|discriminate].
      cbn [bind snd] in Hrun. injection Hrun as _ <-.
      destruct (query_alert w alert_id u) as [alert|] eqn:Hq.
      + destruct (respond_to_alert_found w alert_id r u alert Hq) as [Hr _].
        rewrite Hr in E. now injection E as _ <-.
      + rewrite respond_to_alert_missing in E by assumption. discriminate.
    - destruct (create_manual_alert w trip_id msg u) as [[reply w1]|e] eqn:E; [|discriminate].
      cbn [bind snd] in Hrun. injection Hrun as _ <-.
      now apply create_manual_alert_clock in E. }
  split; [unfold clock_increasing; now rewrite Hr|].
  destruct op as [lu trip|user_id trip|alert_id r u|trip_id msg u]; cbn [run] in Hrun.
  - pose proof (check_deviation_alert_clock _ _ _ _ _ _ Hrun) as [_ Ht].
    apply check_deviation_alert_writes in Hrun. destruct created as [a|].
    + apply (chronological_appended w (ticks w) a); auto; lia.
    + apply (chronological_later w); auto; lia.
  - pose proof (check_stationary_alert_clock _ _ _ _ _ _ Hrun) as [_ Ht].
    apply check_stationary_alert_writes in Hrun. destruct created as [a|].
    + apply (chronological_appended w (S (ticks w)) a); auto; lia.
    + apply (chronological_later w); auto; lia.
  - destruct (respond_to_alert w alert_id r u) as [[reply w1]|e] eqn:E; [|discriminate].
    cbn [bind snd] in Hrun. injection Hrun as _ <-.
    pose proof (respond_to_alert_writes _ _ _ _ _ _ E) as Hst.
    assert (Htr : map sa_triggered_at (safety_alerts (db w1))
                  = map sa_triggered_at (safety_alerts (db w))).
    { apply (f_equal (map (fun s : Z * datetime * datetime => snd (fst s)))) in Hst.
      rewrite !map_map in Hst. exact Hst. }
    assert (Hticks : ticks w1 = S (ticks w)).
    { destruct (query_alert w alert_id u) as [alert|] eqn:Hq.
      - destruct (respond_to_alert_found w alert_id r u alert Hq) as [Hr' _].
        rewrite Hr' in E. now injection E as _ <-.
      - rewrite respond_to_alert_missing in E by assumption. discriminate. }
    destruct Hchron as [Hs Hpast]. unfold chronological. rewrite Hr, Hticks.
    assert (Hnow : readings w (ticks w) < readings w (S (ticks w))) by (apply Hclock; lia).
    split.
    + apply (StronglySorted_map sa_triggered_at Z.lt). rewrite Htr.
      now apply (StronglySorted_map sa_triggered_at Z.lt).
    + apply (Forall_map sa_triggered_at (fun t => t < readings w (S (ticks w)))).
      rewrite Htr. apply Forall_map.
      eapply Forall_impl; [|exact Hpast]. cbn. intros; lia.
  - destruct (create_manual_alert w trip_id msg u) as [[reply w1]|e] eqn:E; [|discriminate].
    cbn [bind snd] in Hrun. injection Hrun as _ <-.
    pose proof (create_manual_alert_clock _ _ _ _ _ _ E) as [_ Ht].
    apply create_manual_alert_writes in E as (a & Ha).
    apply (chronological_appended w (ticks w) a); auto; lia.
Qed.

Lemma paris_clock_increasing (locations : list PlannedLocation)
    (samples : list LocationUpdate) (alerts : list SafetyAlert) :
  clock_increasing (Paris.world locations samples alerts).
Proof. intros m n H. cbn [Paris.world readings]. unfold Paris.clock. lia. Qed.

(** Three alerts triggered 60, 30 and 20 minutes before the first reading
    of the clock; the deviation check stores a fourth. *)
Lemma run_keeps_chronological_witness :
  exists created w',
    run ref_math (CheckDeviation DeviationExample.far_sample Paris.trip)
        BusyExample.w = Ok (created, w') /\
    List.length (safety_alerts (db w')) = 4%nat /\
    clock_increasing w' /\ chronological w'.
Proof.
  eexists _, _. split; [vm_compute; reflexivity|]. split; [reflexivity|].
  eapply (run_keeps_chronological ref_math
            (CheckDeviation DeviationExample.far_sample Paris.trip) BusyExample.w).
  - apply paris_clock_increasing.
  - split; repeat constructor.
  - vm_compute. reflexivity.
Defined.

Lemma insert_desc_by_last {A : Type} (column : A -> Z) (x : A) (s : list A) :
  Forall (fun y => column x < column y) s ->
  insert_desc_by column x s = (s ++ [x])%list.
Proof.
  induction 1 as [|y s Hy _ IH]; cbn [insert_desc_by app]; [reflexivity|].
  destruct (column y <=? column x) eqn:E; [apply Z.leb_le in E; lia|].
  now rewrite IH.
Qed.

Lemma order_by_desc_rev {A : Type} (column : A -> Z) (l : list A) :
  StronglySorted (fun a b => column a < column b) l ->
  order_by_desc column l = rev l.
Proof.
  unfold order_by_desc.
  induction 1 as [|x l Hs IH Hx]; cbn [fold_right rev]; [reflexivity|].
  rewrite IH. apply insert_desc_by_last.
  apply Forall_forall. intros y Hy. apply in_rev in Hy.
  rewrite Forall_forall in Hx. now apply Hx.
Qed.

Lemma StronglySorted_filter {A : Type} (R : A -> A -> Prop) (p : A -> bool) (l : list A) :
  StronglySorted R l -> StronglySorted R (filter p l).
Proof.
  induction 1 as [|x l Hs IH Hx]; cbn [filter]; [constructor|].
  destruct (p x); [|assumption]. constructor; [assumption|].
  apply Forall_forall. intros y Hy. apply filter_In in Hy as [Hy _].
  rewrite Forall_forall in Hx. now apply Hx.
Qed.

(** X21: when the alerts are stored in strictly increasing order of
    their trigger times, [get_user_alerts] returns the caller's alerts in
    the reverse of the order in which they are stored. *)
Theorem get_user_alerts_latest_first (w : World) (current_user_id : Z) :
  StronglySorted (fun a b => sa_triggered_at a < sa_triggered_at b)
                 (safety_alerts (db w)) ->
  get_user_alerts w current_user_id
    = rev (filter (fun a => sa_user_id a =? current_user_id) (safety_alerts (db w))).
Proof.
  intros Hs. unfold get_user_alerts.
  apply order_by_desc_rev. now apply StronglySorted_filter.
Qed.

(** Of the three stored alerts the first two are user 7's. *)
Lemma get_user_alerts_latest_first_witness :
  get_user_alerts BusyExample.w 7 = [AlertsExample.later; Paris.alert_in "active"] /\
  get_user_alerts BusyExample.w 7
    = rev (filter (fun a => sa_user_id a =? 7) (safety_alerts (db BusyExample.w))).
Proof.
  split; [reflexivity|].
  apply (get_user_alerts_latest_first BusyExample.w 7).
  repeat constructor.
Defined.

(** ** East and west *)

Lemma fsub_opp_opp (x y : float) : eq_abs (fsub (fopp x) (fopp y)) (fsub x y).
Proof.
  destruct x as [[]|[]| |sx mx ex], y as [[]|[]| |sy my ey];
    cbv [fsub SFsub fopp SFopp];
    try (left; reflexivity);
    try (right; cbv [fopp SFopp]; rewrite ?negb_involutive; reflexivity).
  match goal with |- eq_abs (binary_normalize _ _ ?a _ _) (binary_normalize _ _ ?b _ _) =>
    replace a with (- b) by (destruct sx, sy; cbn [cond_Zopp negb]; ring) end.
  apply binary_normalize_opp.
Qed.

(** X22: the distance does not tell east from west.  Reflecting both
    points across the prime meridian, that is negating both longitudes,
    gives the same float or the same exception. *)
Theorem distance_mirror_longitude (M : PyMath) (lat1 lon1 lat2 lon2 : float) :
  calculate_distance_km M lat1 (fopp lon1) lat2 (fopp lon2)
    = calculate_distance_km M lat1 lon1 lat2 lon2.
Proof.
  rewrite !calculate_distance_km_eq.
  rewrite (haversine_abs M (math_radians (fsub (fopp lon2) (fopp lon1)))
                           (math_radians (fsub lon2 lon1)))
    by (apply eq_abs_fmul, fsub_opp_opp).
  reflexivity.
Qed.
